(** * Compositing engine of the thumbnail service

    A shallow embedding of the deterministic compositing code:
    - [src/services/contextualCompositing.ts]  (scene-aware pipeline),
    - [src/services/lifestyleCompositing.ts]   (blur + vignette pipeline),
    - [src/services/compositing.ts]            (flat pipeline),
    - [src/services/gradientService.ts], [src/services/blurService.ts].

    Numbers.  The blur radius and the vignette opacity, which callers pass
    in as arbitrary [number]s, are IEEE 754 doubles ([Double.number]): NaN,
    the infinities and the rounding of the product [opacity * 255] are part
    of the model.  In the geometry code a [number] that the code only ever
    produces with [Math.floor] or reads from an integer table is a [Z], and
    every other one is an exact rational [Q]; there the arithmetic is exact
    and the rounding of doubles is outside the model.

    Images.  The image library (sharp) is external to the repository.  Each
    awaited sharp chain is a field of the class [Host] and returns either a
    buffer or an error; [composite] blends its layers in array order.  The
    theorems hold for every host; the one about the blur service assumes, as
    [BlurContract], that sharp's [blur] accepts a sigma in [0.3, 1000] and
    keeps the dimensions of the image. *)

From Stdlib Require Import ZArith QArith Qround Qminmax Qpower Lia Lqa.
From Stdlib Require Import Bool List String Ascii.
From Stdlib Require Import SpecFloat.
Import ListNotations.

Local Open Scope Z_scope.

(** ** JavaScript primitives *)

Module JS.

(** [Math.floor] on a finite number. *)
Definition floor (q : Q) : Z := Qfloor q.

(** [Math.max] / [Math.min] on finite numbers. *)
Definition max (a b : Q) : Q := if Qle_bool a b then b else a.
Definition min (a b : Q) : Q := if Qle_bool a b then a else b.

(** The comparison [a > b]. *)
Definition gt (a b : Q) : bool := negb (Qle_bool a b).

End JS.

(** ** Shared data *)

(** [PedestalPosition] of gradientService.ts and of the scene-design schema. *)
Inductive PedestalPosition : Type :=
| center
| right_third
| left_third
| center_bottom.

(** The object [{ x, y, width, height }] returned by the geometry resolvers. *)
Record Box : Type := mkBox {
  x : Z;
  y : Z;
  width : Z;
  height : Z
}.

(** Standard YouTube thumbnail dimensions. *)
Definition THUMBNAIL_WIDTH : Z := 1280.
Definition THUMBNAIL_HEIGHT : Z := 720.

(** ** Geometry resolver of the contextual pipeline *)

Module Contextual.

(** [const targetWidth = Math.floor(THUMBNAIL_WIDTH * productSpaceRatio)]. *)
Definition targetWidth (productSpaceRatio : Q) : Z :=
  JS.floor (inject_Z THUMBNAIL_WIDTH * productSpaceRatio).

(** The value of [x] before the final bounds clamp. *)
Definition anchorX (pedestalPosition : PedestalPosition) (drawWidth : Z) : Z :=
  match pedestalPosition with
  | center => JS.floor (inject_Z (THUMBNAIL_WIDTH - drawWidth) / 2)
  | center_bottom => JS.floor (inject_Z (THUMBNAIL_WIDTH - drawWidth) / 2)
  | right_third =>
      JS.floor (inject_Z THUMBNAIL_WIDTH * (65 # 100) - inject_Z drawWidth / 2)
  | left_third =>
      JS.floor (inject_Z THUMBNAIL_WIDTH * (35 # 100) - inject_Z drawWidth / 2)
  end.

(** The value of [y] before the final bounds clamp. *)
Definition anchorY (pedestalPosition : PedestalPosition) (drawHeight : Z) : Z :=
  match pedestalPosition with
  | center => JS.floor (inject_Z (THUMBNAIL_HEIGHT - drawHeight) / 2)
  | center_bottom =>
      JS.floor (inject_Z THUMBNAIL_HEIGHT * (65 # 100) - inject_Z drawHeight)
  | right_third => JS.floor (inject_Z (THUMBNAIL_HEIGHT - drawHeight) / 2)
  | left_third => JS.floor (inject_Z (THUMBNAIL_HEIGHT - drawHeight) / 2)
  end.

(** [calculateProductPosition] of contextualCompositing.ts.  The [default]
    arm of the [switch] is not reachable for a [PedestalPosition]. *)
Definition calculateProductPosition
    (pedestalPosition : PedestalPosition) (productSpaceRatio : Q)
    (cutoutWidth cutoutHeight : Q) : Box :=
  let targetWidth := targetWidth productSpaceRatio in
  let cutoutAspect := (cutoutWidth / cutoutHeight)%Q in
  let '(drawWidth, drawHeight) :=
    if JS.gt cutoutAspect 1 then
      (* Wider than tall *)
      let drawWidth := targetWidth in
      let drawHeight := JS.floor (inject_Z targetWidth / cutoutAspect) in
      if JS.gt (inject_Z drawHeight) (inject_Z THUMBNAIL_HEIGHT * (8 # 10)) then
        let drawHeight := JS.floor (inject_Z THUMBNAIL_HEIGHT * (8 # 10)) in
        let drawWidth := JS.floor (inject_Z drawHeight * cutoutAspect) in
        (drawWidth, drawHeight)
      else (drawWidth, drawHeight)
    else
      (* Taller than wide *)
      let drawHeight := JS.floor (inject_Z THUMBNAIL_HEIGHT * (85 # 100)) in
      let drawWidth := JS.floor (inject_Z drawHeight * cutoutAspect) in
      if drawWidth >? targetWidth then
        let drawWidth := targetWidth in
        let drawHeight := JS.floor (inject_Z drawWidth / cutoutAspect) in
        (drawWidth, drawHeight)
      else (drawWidth, drawHeight) in
  (* Ensure minimum size *)
  let drawWidth := Z.max drawWidth 200 in
  let drawHeight := Z.max drawHeight 200 in
  let x := anchorX pedestalPosition drawWidth in
  let y := anchorY pedestalPosition drawHeight in
  (* Ensure position is within bounds *)
  let x := Z.max 20 (Z.min x (THUMBNAIL_WIDTH - drawWidth - 20)) in
  let y := Z.max 20 (Z.min y (THUMBNAIL_HEIGHT - drawHeight - 20)) in
  {| x := x; y := y; width := drawWidth; height := drawHeight |}.

End Contextual.

(** ** Geometry resolver of the lifestyle pipeline *)

Module Lifestyle.

(** [const targetWidth = Math.floor(THUMBNAIL_WIDTH * 0.35)]. *)
Definition targetWidth : Z :=
  JS.floor (inject_Z THUMBNAIL_WIDTH * (35 # 100)).

(** The value of [x] before the final bounds clamp. *)
Definition anchorX (pedestalPosition : PedestalPosition) (drawWidth : Z) : Z :=
  match pedestalPosition with
  | center => JS.floor (inject_Z (THUMBNAIL_WIDTH - drawWidth) / 2)
  | center_bottom => JS.floor (inject_Z (THUMBNAIL_WIDTH - drawWidth) / 2)
  | right_third =>
      JS.floor (inject_Z THUMBNAIL_WIDTH * (67 # 100) - inject_Z drawWidth / 2)
  | left_third =>
      JS.floor (inject_Z THUMBNAIL_WIDTH * (33 # 100) - inject_Z drawWidth / 2)
  end.

(** The value of [y] before the final bounds clamp. *)
Definition anchorY (pedestalPosition : PedestalPosition) (drawHeight : Z) : Z :=
  match pedestalPosition with
  | center => JS.floor (inject_Z (THUMBNAIL_HEIGHT - drawHeight) / 2)
  | center_bottom =>
      JS.floor (inject_Z THUMBNAIL_HEIGHT * (65 # 100) - inject_Z drawHeight)
  | right_third => JS.floor (inject_Z (THUMBNAIL_HEIGHT - drawHeight) / 2)
  | left_third => JS.floor (inject_Z (THUMBNAIL_HEIGHT - drawHeight) / 2)
  end.

(** [calculateProductPosition] of lifestyleCompositing.ts.  The [default]
    arm of the [switch] is not reachable for a [PedestalPosition]. *)
Definition calculateProductPosition
    (pedestalPosition : PedestalPosition)
    (cutoutWidth cutoutHeight : Q) : Box :=
  let cutoutAspect := (cutoutWidth / cutoutHeight)%Q in
  let targetWidth := targetWidth in
  let '(drawWidth, drawHeight) :=
    if JS.gt cutoutAspect 1 then
      (* Wider than tall *)
      let drawWidth := targetWidth in
      let drawHeight := JS.floor (inject_Z targetWidth / cutoutAspect) in
      if JS.gt (inject_Z drawHeight) (inject_Z THUMBNAIL_HEIGHT * (8 # 10)) then
        let drawHeight := JS.floor (inject_Z THUMBNAIL_HEIGHT * (8 # 10)) in
        let drawWidth := JS.floor (inject_Z drawHeight * cutoutAspect) in
        (drawWidth, drawHeight)
      else (drawWidth, drawHeight)
    else
      (* Taller than wide *)
      let drawHeight := JS.floor (inject_Z THUMBNAIL_HEIGHT * (85 # 100)) in
      let drawWidth := JS.floor (inject_Z drawHeight * cutoutAspect) in
      if drawWidth >? targetWidth then
        let drawWidth := targetWidth in
        let drawHeight := JS.floor (inject_Z drawWidth / cutoutAspect) in
        (drawWidth, drawHeight)
      else (drawWidth, drawHeight) in
  (* Ensure minimum size *)
  let drawWidth := Z.max drawWidth 200 in
  let drawHeight := Z.max drawHeight 200 in
  let x := anchorX pedestalPosition drawWidth in
  let y := anchorY pedestalPosition drawHeight in
  (* Ensure position is within bounds *)
  let x := Z.max 20 (Z.min x (THUMBNAIL_WIDTH - drawWidth - 20)) in
  let y := Z.max 20 (Z.min y (THUMBNAIL_HEIGHT - drawHeight - 20)) in
  {| x := x; y := y; width := drawWidth; height := drawHeight |}.

End Lifestyle.

(** ** Strings *)

Module Str.

(** [toLowerCase] on one ASCII character. *)
Definition lowerChar (c : ascii) : ascii :=
  let n := nat_of_ascii c in
  if (65 <=? n)%nat && (n <=? 90)%nat then ascii_of_nat (n + 32) else c.

(** [String.prototype.toLowerCase]. *)
Fixpoint toLowerCase (s : string) : string :=
  match s with
  | EmptyString => EmptyString
  | String c t => String (lowerChar c) (toLowerCase t)
  end.

(** [hay.includes(needle)]. *)
Fixpoint includes (needle hay : string) : bool :=
  if String.prefix needle hay then true
  else match hay with
       | EmptyString => false
       | String _ t => includes needle t
       end.

(** One hexadecimal digit, as [Number.prototype.toString(16)] writes it. *)
Definition hexDigit (d : Z) : ascii :=
  match d with
  | 0 => "0" | 1 => "1" | 2 => "2" | 3 => "3" | 4 => "4" | 5 => "5"
  | 6 => "6" | 7 => "7" | 8 => "8" | 9 => "9" | 10 => "a" | 11 => "b"
  | 12 => "c" | 13 => "d" | 14 => "e" | _ => "f"
  end%char.

Fixpoint hexDigits (fuel : nat) (n : Z) (acc : string) : string :=
  match fuel with
  | O => acc
  | S fuel' =>
      let acc' := String (hexDigit (n mod 16)) acc in
      if n / 16 =? 0 then acc' else hexDigits fuel' (n / 16) acc'
  end.

(** [n.toString(16)] for an integer [n]. *)
Definition toString16 (n : Z) : string :=
  if n <? 0 then String "-"%char (hexDigits (Z.to_nat (- n)) (- n) EmptyString)
  else hexDigits (S (Z.to_nat n)) n EmptyString.

Fixpoint repeatChar (k : nat) (c : ascii) (s : string) : string :=
  match k with
  | O => s
  | S k' => String c (repeatChar k' c s)
  end.

(** [s.padStart(len, c)] for a one-character pad string. *)
Definition padStart (len : nat) (c : ascii) (s : string) : string :=
  repeatChar (len - String.length s) c s.

End Str.

(** ** Double-precision numbers

    A JavaScript [number] is an IEEE 754 binary64 value.  [spec_float] of the
    standard library gives it as a zero, an infinity, NaN or a finite
    [(-1)^s * m * 2^e]; [valid] singles out the canonical representations,
    which are the values a JavaScript number can take. *)

Module Double.

Definition number : Type := spec_float.

Definition prec : Z := 53.
Definition emax : Z := 1024.

(** The representation is the canonical one of a double. *)
Definition valid (x : number) : bool := valid_binary prec emax x.

Definition NaN : number := S754_nan.

Definition isNaN (x : number) : bool :=
  match x with
  | S754_nan => true
  | _ => false
  end.

(** An integer literal. *)
Definition ofZ (n : Z) : number := binary_normalize prec emax n 0 false.

(** [a / b] and [a * b], rounded to the nearest double, ties to even. *)
Definition div (a b : number) : number := SFdiv prec emax a b.
Definition mul (a b : number) : number := SFmul prec emax a b.

(** The decimal literal with value [n / d], for [n] and [d] below 2^53: the
    double nearest to the quotient, so [decimal 20 100] is the literal
    [0.20]. *)
Definition decimal (n : Z) (d : positive) : number := div (ofZ n) (ofZ (Zpos d)).

(** The comparisons [a <= b] and [a < b]; both are false when an operand is
    NaN. *)
Definition le (a b : number) : bool := SFleb a b.

(** [Math.max] and [Math.min]: NaN when an operand is NaN, and +0 counts as
    larger than -0. *)
Definition max (a b : number) : number :=
  match SFcompare a b with
  | None => NaN
  | Some Lt => b
  | Some Gt => a
  | Some Eq => match a with S754_zero true => b | _ => a end
  end.

Definition min (a b : number) : number :=
  match SFcompare a b with
  | None => NaN
  | Some Lt => a
  | Some Gt => b
  | Some Eq => match a with S754_zero false => b | _ => a end
  end.

(** The real number that a finite double stands for. *)
Definition toQ (x : number) : Q :=
  match x with
  | S754_finite s m e => ((if s then -1 else 1) * inject_Z (Zpos m) * 2 ^ e)%Q
  | _ => 0%Q
  end.

(** The result of [Math.round]: an integer, NaN or an infinity.  The integer
    0 also stands for -0, which [toString] writes as [0]. *)
Inductive integral : Type :=
| Finite (n : Z)
| NotANumber
| Infinite (negative : bool).

(** [Math.round]: the nearest integer, ties towards +infinity. *)
Definition round (x : number) : integral :=
  match x with
  | S754_nan => NotANumber
  | S754_infinity s => Infinite s
  | S754_zero _ => Finite 0
  | S754_finite _ _ _ => Finite (Qfloor (toQ x + (1 # 2)))
  end.

(** [n.toString(16)] for the result of [Math.round]. *)
Definition toString16 (r : integral) : string :=
  match r with
  | Finite n => Str.toString16 n
  | NotANumber => "NaN"
  | Infinite false => "Infinity"
  | Infinite true => "-Infinity"
  end.

(** The place of a double other than NaN in the order of the doubles: the
    two zeros are at 0, and a larger double has a larger rank. *)
Definition rank (x : number) : Z :=
  match x with
  | S754_zero _ => 0
  | S754_nan => 0
  | S754_infinity s => (if s then -1 else 1) * (2046 * 2 ^ 53)
  | S754_finite s m e => (if s then -1 else 1) * ((e + 1074) * 2 ^ 53 + Zpos m)
  end.

End Double.

(** ** Scene design

    The fields of [sceneDesignSchema] (generateContextualThumbnail.ts) that the
    compositing code reads; [id], [textLayout], [productCharacteristics],
    [generatedPrompt] and [createdAt] are never consumed by it. *)

Inductive LightingType : Type :=
| lt_dramatic | lt_soft | lt_natural | lt_studio | lt_golden_hour | lt_neon.

Inductive LightingDirection : Type :=
| ld_side | ld_front | ld_back | ld_overhead | ld_ambient.

Inductive LightingIntensity : Type :=
| li_high_contrast | li_balanced | li_low_key.

Inductive Mood : Type :=
| energetic | premium | calm | natural | bold | elegant | playful.

Inductive EnvironmentType : Type :=
| gym | kitchen | studio | office | outdoor | home | spa | garage | bathroom
| bedroom.

Inductive PedestalStyle : Type :=
| black_glossy | white_matte | glass | wooden | metal | floating | marble
| concrete | ps_none.

Inductive PedestalShape : Type :=
| circular | rectangular | hexagonal | organic | platform.

Record Lighting : Type := {
  l_type : LightingType;
  l_direction : LightingDirection;
  l_intensity : LightingIntensity
}.

Record Environment : Type := {
  e_type : EnvironmentType;
  e_description : string;
  e_props : list string;
  lighting : Lighting
}.

Record ColorScheme : Type := {
  primary : string;
  secondary : string;
  background : string;
  textColor : string;
  mood : Mood
}.

Record Pedestal : Type := {
  p_style : PedestalStyle;
  p_shape : PedestalShape;
  p_position : PedestalPosition;
  hasReflection : bool;
  productSpaceRatio : Q
}.

Record SceneDesign : Type := {
  environment : Environment;
  colorScheme : ColorScheme;
  pedestal : Pedestal
}.

(** [z.number().min(0.2).max(0.6)] on [pedestal.productSpaceRatio]: the
    request is answered with status 400 when this test fails. *)
Definition productSpaceRatioSchema (r : Q) : bool :=
  Qle_bool (2 # 10) r && Qle_bool r (6 # 10).

(** ** Shadow presets *)

Record ShadowSettings : Type := {
  blur : Z;
  offsetX : Z;
  offsetY : Z;
  opacity : Q
}.

Module SHADOW_PRESETS.
Definition dark : ShadowSettings :=
  {| blur := 30; offsetX := 0; offsetY := 20; opacity := 5 # 10 |}.
Definition light : ShadowSettings :=
  {| blur := 25; offsetX := 5; offsetY := 15; opacity := 4 # 10 |}.
Definition dramatic : ShadowSettings :=
  {| blur := 35; offsetX := 10; offsetY := 25; opacity := 6 # 10 |}.
Definition soft : ShadowSettings :=
  {| blur := 15; offsetX := 3; offsetY := 8; opacity := 2 # 10 |}.
Definition default : ShadowSettings :=
  {| blur := 20; offsetX := 5; offsetY := 12; opacity := 35 # 100 |}.
End SHADOW_PRESETS.

Definition LightingType_eqb (a b : LightingType) : bool :=
  match a, b with
  | lt_dramatic, lt_dramatic | lt_soft, lt_soft | lt_natural, lt_natural
  | lt_studio, lt_studio | lt_golden_hour, lt_golden_hour
  | lt_neon, lt_neon => true
  | _, _ => false
  end.

Definition LightingIntensity_eqb (a b : LightingIntensity) : bool :=
  match a, b with
  | li_high_contrast, li_high_contrast | li_balanced, li_balanced
  | li_low_key, li_low_key => true
  | _, _ => false
  end.

Definition Mood_eqb (a b : Mood) : bool :=
  match a, b with
  | energetic, energetic | premium, premium | calm, calm | natural, natural
  | bold, bold | elegant, elegant | playful, playful => true
  | _, _ => false
  end.

Definition PedestalPosition_eqb (a b : PedestalPosition) : bool :=
  match a, b with
  | center, center | right_third, right_third | left_third, left_third
  | center_bottom, center_bottom => true
  | _, _ => false
  end.

(** The local [isDarkBg] of [getShadowFromDesign]. *)
Definition isDarkBg (colorScheme : ColorScheme) : bool :=
  let bgColor := background colorScheme in
  String.eqb (Str.toLowerCase bgColor) "#000000"
  || Str.includes "1c1c1e" (Str.toLowerCase bgColor)
  || Mood_eqb (mood colorScheme) bold
  || Mood_eqb (mood colorScheme) energetic.

(** [getShadowFromDesign] of contextualCompositing.ts, statement by
    statement: four guarded returns and the trailing return. *)
Definition getShadowFromDesign (design : SceneDesign) : ShadowSettings :=
  let isDarkBg := isDarkBg (colorScheme design) in
  let lightingType := l_type (lighting (environment design)) in
  let lightingIntensity := l_intensity (lighting (environment design)) in
  if LightingType_eqb lightingType lt_dramatic
     || LightingType_eqb lightingType lt_neon
  then SHADOW_PRESETS.dramatic
  else if LightingType_eqb lightingType lt_soft
          || LightingIntensity_eqb lightingIntensity li_low_key
  then SHADOW_PRESETS.soft
  else if isDarkBg then SHADOW_PRESETS.dark
  else if negb isDarkBg then SHADOW_PRESETS.light
  else SHADOW_PRESETS.default.

(** The [default] entry of [CATEGORY_SHADOWS]. *)
Definition CATEGORY_SHADOWS_default : ShadowSettings :=
  {| blur := 20; offsetX := 5; offsetY := 10; opacity := 3 # 10 |}.

(** [CATEGORY_SHADOWS] of compositing.ts. *)
Definition CATEGORY_SHADOWS : list (string * ShadowSettings) :=
  [ ("fitness", {| blur := 25; offsetX := 8; offsetY := 15; opacity := 4 # 10 |});
    ("supplements", {| blur := 25; offsetX := 8; offsetY := 15; opacity := 4 # 10 |});
    ("tech", {| blur := 20; offsetX := 5; offsetY := 10; opacity := 3 # 10 |});
    ("electronics", {| blur := 20; offsetX := 5; offsetY := 10; opacity := 3 # 10 |});
    ("beauty", {| blur := 15; offsetX := 3; offsetY := 8; opacity := 2 # 10 |});
    ("home", {| blur := 20; offsetX := 5; offsetY := 12; opacity := 25 # 100 |});
    ("food", {| blur := 18; offsetX := 4; offsetY := 10; opacity := 3 # 10 |});
    ("outdoor", {| blur := 25; offsetX := 8; offsetY := 15; opacity := 35 # 100 |});
    ("baby", {| blur := 12; offsetX := 3; offsetY := 6; opacity := 15 # 100 |});
    ("pet", {| blur := 18; offsetX := 5; offsetY := 10; opacity := 3 # 10 |});
    ("fashion", {| blur := 15; offsetX := 4; offsetY := 8; opacity := 25 # 100 |});
    ("lifestyle", {| blur := 18; offsetX := 5; offsetY := 10; opacity := 25 # 100 |});
    ("default", CATEGORY_SHADOWS_default) ]%string.

Fixpoint lookup (key : string) (table : list (string * ShadowSettings))
  : option ShadowSettings :=
  match table with
  | [] => None
  | (k, v) :: rest => if String.eqb k key then Some v else lookup key rest
  end.

(** [getShadowSettings] of compositing.ts.  Keys that a JavaScript object
    inherits from its prototype are not part of the table modelled here. *)
Definition getShadowSettings (category : option string) : ShadowSettings :=
  match category with
  | None => CATEGORY_SHADOWS_default
  | Some EmptyString => CATEGORY_SHADOWS_default
  | Some category =>
      let normalized := Str.toLowerCase category in
      match lookup normalized CATEGORY_SHADOWS with
      | Some s => s
      | None => CATEGORY_SHADOWS_default
      end
  end.

(** ** The host: JavaScript runtime and image library

    [result] is a settled promise: fulfilled with a value or rejected with an
    error. *)

Inductive result (E A : Type) : Type :=
| Ok (a : A)
| Err (e : E).

Arguments Ok {E A} a.
Arguments Err {E A} e.

Definition bind {E A B : Type} (m : result E A) (k : A -> result E B)
  : result E B :=
  match m with
  | Ok a => k a
  | Err e => Err e
  end.

Notation "'await' x <- m ;; k" := (bind m (fun x => k))
  (at level 61, x name, m at next level, right associativity).

(** [sharp(...).metadata()]: the fields the code reads. *)
Record Metadata : Type := {
  md_width : option Z;
  md_height : option Z
}.

(** The [fit] option of [resize]; [contain] is always used with a
    transparent background. *)
Inductive Fit : Type := contain | cover.

Inductive Blend : Type := over.

(** One entry of the array given to [composite]. *)
Record Layer (Buffer : Type) : Type := {
  input : Buffer;
  top : option Z;
  left : option Z;
  blend : option Blend
}.

Arguments input {Buffer} l.
Arguments top {Buffer} l.
Arguments left {Buffer} l.
Arguments blend {Buffer} l.

Class Host : Type := {
  Buffer : Type;
  Error : Type;
  (** [Buffer.from(s, 'base64')], [buf.toString('base64')], [Buffer.from(s)] *)
  fromBase64 : string -> Buffer;
  toBase64 : Buffer -> string;
  fromString : string -> Buffer;
  (** a number inside a template literal *)
  numberToString : Q -> string;
  (** [sharp(b).metadata()] *)
  metadata : Buffer -> result Error Metadata;
  (** [sharp(b).resize(w, h, { fit }).png().toBuffer()] *)
  resize : Buffer -> Z -> Z -> Fit -> result Error Buffer;
  (** [sharp(b).grayscale().modulate({ brightness }).blur(sigma)
       .ensureAlpha(alpha).toBuffer()] *)
  silhouette : Buffer -> Q -> Q -> Q -> result Error Buffer;
  (** [sharp(b).flip().modulate({ brightness }).blur(sigma)
       .ensureAlpha(alpha).toBuffer()] *)
  flipped : Buffer -> Q -> Q -> Q -> result Error Buffer;
  (** [sharp(b).blur(sigma).toBuffer()] *)
  blurred : Buffer -> Double.number -> result Error Buffer;
  (** blending one layer onto a canvas *)
  draw : Buffer -> Layer Buffer -> result Error Buffer
}.

Section Pipelines.

Context {H : Host}.

Abbreviation promise := (result Error).

(** [sharp(base).composite(layers).png().toBuffer()]: sharp blends the
    entries in array order, each one over the result of the previous. *)
Fixpoint composite (base : Buffer) (layers : list (Layer Buffer))
  : promise Buffer :=
  match layers with
  | [] => Ok base
  | l :: rest => await canvas <- draw base l ;; composite canvas rest
  end.

(** [v || d] for an optional integer [v]. *)
Definition orElse (v : option Z) (d : Z) : Z :=
  match v with
  | Some 0 => d
  | Some n => n
  | None => d
  end.

(** *** blurService.ts *)

Definition MIN_BLUR_RADIUS : Double.number := Double.ofZ 8.
Definition MAX_BLUR_RADIUS : Double.number := Double.ofZ 15.
Definition DEFAULT_BLUR_RADIUS : Double.number := Double.ofZ 12.

(** The local [clampedRadius] of [applyGaussianBlur]. *)
Definition clampedRadius (radius : Double.number) : Double.number :=
  Double.max MIN_BLUR_RADIUS (Double.min MAX_BLUR_RADIUS radius).

(** [applyGaussianBlur]; [None] is an omitted [radius]. *)
Definition applyGaussianBlur (imageBuffer : Buffer)
    (radius : option Double.number) : promise Buffer :=
  let radius := match radius with Some r => r | None => DEFAULT_BLUR_RADIUS end in
  blurred imageBuffer (clampedRadius radius).

(** *** gradientService.ts *)

Definition MIN_OPACITY : Double.number := Double.decimal 20 100.
Definition MAX_OPACITY : Double.number := Double.decimal 30 100.
Definition DEFAULT_OPACITY : Double.number := Double.decimal 25 100.

Definition POSITION_MAP (p : PedestalPosition) : Q * Q :=
  match p with
  | center => (5 # 10, 55 # 100)
  | right_third => (67 # 100, 55 # 100)
  | left_third => (33 # 100, 55 # 100)
  | center_bottom => (5 # 10, 7 # 10)
  end.

(** The local [clampedOpacity] of [createRadialGradient]. *)
Definition clampedOpacity (opacity : Double.number) : Double.number :=
  Double.max MIN_OPACITY (Double.min MAX_OPACITY opacity).

(** The local [opacityHex] of [createRadialGradient]. *)
Definition opacityHex (opacity : Double.number) : string :=
  Str.padStart 2 "0"
    (Double.toString16
       (Double.round (Double.mul (clampedOpacity opacity) (Double.ofZ 255)))).

Definition nl : string := String (ascii_of_nat 10) EmptyString.
Definition dq : string := String (ascii_of_nat 34) EmptyString.

(** The template literal of [createRadialGradient], in three parts: the
    lines before the gradient stops, the three [<stop>] lines, and the lines
    after them. *)
Definition svgHead (width height cx cy : string) : string :=
  ("<svg width=" ++ dq ++ width ++ dq ++ " height=" ++ dq ++ height ++ dq
     ++ " xmlns=" ++ dq ++ "http://www.w3.org/2000/svg" ++ dq ++ ">" ++ nl
   ++ "  <defs>" ++ nl
   ++ "    <radialGradient id=" ++ dq ++ "spotlight" ++ dq
     ++ " cx=" ++ dq ++ cx ++ dq ++ " cy=" ++ dq ++ cy ++ dq
     ++ " r=" ++ dq ++ "0.7" ++ dq ++ ">" ++ nl)%string.

Definition svgStops (opacityHex : string) : string :=
  ("      <stop offset=" ++ dq ++ "0%" ++ dq
     ++ " stop-color=" ++ dq ++ "transparent" ++ dq ++ " />" ++ nl
   ++ "      <stop offset=" ++ dq ++ "60%" ++ dq
     ++ " stop-color=" ++ dq ++ "transparent" ++ dq ++ " />" ++ nl
   ++ "      <stop offset=" ++ dq ++ "100%" ++ dq
     ++ " stop-color=" ++ dq ++ "#000000" ++ opacityHex ++ dq ++ " />" ++ nl)%string.

Definition svgTail : string :=
  ("    </radialGradient>" ++ nl
   ++ "  </defs>" ++ nl
   ++ "  <rect width=" ++ dq ++ "100%" ++ dq ++ " height=" ++ dq ++ "100%" ++ dq
     ++ " fill=" ++ dq ++ "url(#spotlight)" ++ dq ++ " />" ++ nl
   ++ "</svg>")%string.

Definition svgText (width height cx cy : string) (opacityHex : string)
  : string :=
  (svgHead width height cx cy ++ svgStops opacityHex ++ svgTail)%string.

(** [createRadialGradient]; [None] is an omitted [opacity]. *)
Definition createRadialGradient (width height : Z)
    (position : PedestalPosition) (opacity : option Double.number)
  : promise Buffer :=
  let opacity := match opacity with Some o => o | None => DEFAULT_OPACITY end in
  let '(cx, cy) := POSITION_MAP position in
  let opacityHex := opacityHex opacity in
  let svg :=
    svgText (numberToString (inject_Z width)) (numberToString (inject_Z height))
            (numberToString cx) (numberToString cy) opacityHex in
  Ok (fromString svg).

(** [applyGradientOverlay]. *)
Definition applyGradientOverlay (imageBuffer gradientSvg : Buffer)
  : promise Buffer :=
  composite imageBuffer
    [ {| input := gradientSvg; top := None; left := None; blend := Some over |} ].

(** *** compositing.ts *)

Record CompositingResult : Type := {
  cr_imageBase64 : string;
  cr_composited : bool
}.

Definition push {A : Type} (l : list A) (a : A) : list A := l ++ [a].

(** [compositeProductOnBackground].  The [catch] clause logs and rethrows,
    so a rejected step rejects the whole call with the same error. *)
Definition compositeProductOnBackground
    (backgroundBase64 cutoutBase64 : string) (category : option string)
  : promise CompositingResult :=
  let backgroundBuffer := fromBase64 backgroundBase64 in
  let cutoutBuffer := fromBase64 cutoutBase64 in
  await cutoutMetadata <- metadata cutoutBuffer ;;
  let cutoutWidth := orElse (md_width cutoutMetadata) 400 in
  let cutoutHeight := orElse (md_height cutoutMetadata) 400 in
  let aspectRatio := (inject_Z cutoutWidth / inject_Z cutoutHeight)%Q in
  let targetWidth := JS.floor (inject_Z THUMBNAIL_WIDTH * (45 # 100)) in
  let '(drawWidth, drawHeight) :=
    if JS.gt aspectRatio 1 then
      let drawWidth := Z.min targetWidth cutoutWidth in
      let drawHeight := JS.floor (inject_Z drawWidth / aspectRatio) in
      (drawWidth, drawHeight)
    else
      let drawHeight :=
        Z.min (JS.floor (inject_Z THUMBNAIL_HEIGHT * (85 # 100))) cutoutHeight in
      let drawWidth := JS.floor (inject_Z drawHeight * aspectRatio) in
      (drawWidth, drawHeight) in
  let drawWidth := Z.max drawWidth 200 in
  let drawHeight := Z.max drawHeight 200 in
  let x := THUMBNAIL_WIDTH - drawWidth
           - JS.floor (inject_Z THUMBNAIL_WIDTH * (5 # 100)) in
  let y := JS.floor (inject_Z (THUMBNAIL_HEIGHT - drawHeight) / 2) in
  await resizedCutout <- resize cutoutBuffer drawWidth drawHeight contain ;;
  let shadow := getShadowSettings category in
  await shadowBuffer <-
    silhouette resizedCutout 0 (JS.max (inject_Z (blur shadow)) (3 # 10))
               (opacity shadow) ;;
  await resizedBackground <-
    resize backgroundBuffer THUMBNAIL_WIDTH THUMBNAIL_HEIGHT cover ;;
  await result <-
    composite resizedBackground
      [ {| input := shadowBuffer;
           top := Some (Z.max 0 (y + offsetY shadow));
           left := Some (Z.max 0 (x + offsetX shadow));
           blend := None |};
        {| input := resizedCutout; top := Some y; left := Some x;
           blend := None |} ] ;;
  Ok {| cr_imageBase64 := toBase64 result; cr_composited := true |}.

(** *** contextualCompositing.ts *)

Record ContextualCompositingResult : Type := {
  imageBase64 : string;
  composited : bool;
  cc_position : Box
}.

(** The array [compositeInputs] at the call of [composite]: the shadow is
    pushed first, then the reflection inside its own [try]/[catch] (a
    rejected reflection is logged and skipped), then the cutout. *)
Definition compositeInputs (pedestal : Pedestal) (position : Box)
    (shadow : ShadowSettings) (shadowBuffer resizedCutout : Buffer)
  : list (Layer Buffer) :=
  let compositeInputs := [] in
  let compositeInputs :=
    push compositeInputs
      {| input := shadowBuffer;
         top := Some (Z.max 0 (y position + offsetY shadow));
         left := Some (Z.max 0 (x position + offsetX shadow));
         blend := None |} in
  let compositeInputs :=
    if hasReflection pedestal
       && PedestalPosition_eqb (p_position pedestal) center_bottom
    then
      match flipped resizedCutout (3 # 10) 3 (3 # 10) with
      | Ok reflectionBuffer =>
          push compositeInputs
            {| input := reflectionBuffer;
               top := Some (Z.min (THUMBNAIL_HEIGHT - 50)
                                  (y position + height position));
               left := Some (x position);
               blend := None |}
      | Err reflectionError => compositeInputs
      end
    else compositeInputs in
  push compositeInputs
    {| input := resizedCutout; top := Some (y position);
       left := Some (x position); blend := None |}.

(** [compositeContextualThumbnail].  The outer [catch] clause logs and
    rethrows. *)
Definition compositeContextualThumbnail
    (backgroundBase64 cutoutBase64 : string) (sceneDesign : SceneDesign)
  : promise ContextualCompositingResult :=
  let backgroundBuffer := fromBase64 backgroundBase64 in
  let cutoutBuffer := fromBase64 cutoutBase64 in
  await cutoutMetadata <- metadata cutoutBuffer ;;
  let cutoutWidth := orElse (md_width cutoutMetadata) 400 in
  let cutoutHeight := orElse (md_height cutoutMetadata) 400 in
  let pedestal := pedestal sceneDesign in
  let position :=
    Contextual.calculateProductPosition
      (p_position pedestal) (productSpaceRatio pedestal)
      (inject_Z cutoutWidth) (inject_Z cutoutHeight) in
  await resizedCutout <-
    resize cutoutBuffer (width position) (height position) contain ;;
  let shadow := getShadowFromDesign sceneDesign in
  await shadowBuffer <-
    silhouette resizedCutout 0 (JS.max (inject_Z (blur shadow)) (3 # 10))
               (opacity shadow) ;;
  await resizedBackground <-
    resize backgroundBuffer THUMBNAIL_WIDTH THUMBNAIL_HEIGHT cover ;;
  let compositeInputs :=
    compositeInputs pedestal position shadow shadowBuffer resizedCutout in
  await result <- composite resizedBackground compositeInputs ;;
  Ok {| imageBase64 := toBase64 result; composited := true;
        cc_position := position |}.

(** *** lifestyleCompositing.ts *)

Record LifestyleCompositingOptions : Type := {
  o_position : PedestalPosition;
  blurRadius : option Double.number;
  gradientOpacity : option Double.number
}.

Record LifestyleCompositingResult : Type := {
  lr_imageBase64 : string;
  lr_composited : bool;
  lr_position : Box
}.

Definition LIFESTYLE_DEFAULT_BLUR_RADIUS : Double.number := Double.ofZ 12.
Definition LIFESTYLE_DEFAULT_GRADIENT_OPACITY : Double.number :=
  Double.decimal 25 100.

(** [compositeLifestyleThumbnail].  The [catch] clause logs and rethrows. *)
Definition compositeLifestyleThumbnail
    (backgroundBuffer cutoutBuffer : Buffer)
    (options : LifestyleCompositingOptions)
  : promise LifestyleCompositingResult :=
  let position := o_position options in
  let blurRadius :=
    match blurRadius options with
    | Some r => r
    | None => LIFESTYLE_DEFAULT_BLUR_RADIUS
    end in
  let gradientOpacity :=
    match gradientOpacity options with
    | Some o => o
    | None => LIFESTYLE_DEFAULT_GRADIENT_OPACITY
    end in
  await resizedBackground <-
    resize backgroundBuffer THUMBNAIL_WIDTH THUMBNAIL_HEIGHT cover ;;
  await blurredBackground <-
    applyGaussianBlur resizedBackground (Some blurRadius) ;;
  await gradient <-
    createRadialGradient THUMBNAIL_WIDTH THUMBNAIL_HEIGHT position
                         (Some gradientOpacity) ;;
  await backgroundWithGradient <-
    applyGradientOverlay blurredBackground gradient ;;
  await cutoutMetadata <- metadata cutoutBuffer ;;
  let cutoutWidth := orElse (md_width cutoutMetadata) 400 in
  let cutoutHeight := orElse (md_height cutoutMetadata) 400 in
  let productPosition :=
    Lifestyle.calculateProductPosition position
      (inject_Z cutoutWidth) (inject_Z cutoutHeight) in
  await resizedCutout <-
    resize cutoutBuffer (width productPosition) (height productPosition)
           contain ;;
  await result <-
    composite backgroundWithGradient
      [ {| input := resizedCutout; top := Some (y productPosition);
           left := Some (x productPosition); blend := None |} ] ;;
  Ok {| lr_imageBase64 := toBase64 result; lr_composited := true;
        lr_position := productPosition |}.

End Pipelines.

(** ** Definitions used to state the properties *)

(** The sizing block shared, word for word, by both
    [calculateProductPosition] functions: the draw size before the 200-pixel
    floor, as a function of the target width and the aspect ratio. *)
Definition fitSize (targetWidth : Z) (cutoutAspect : Q) : Z * Z :=
  if JS.gt cutoutAspect 1 then
    let drawWidth := targetWidth in
    let drawHeight := JS.floor (inject_Z targetWidth / cutoutAspect) in
    if JS.gt (inject_Z drawHeight) (inject_Z THUMBNAIL_HEIGHT * (8 # 10)) then
      let drawHeight := JS.floor (inject_Z THUMBNAIL_HEIGHT * (8 # 10)) in
      let drawWidth := JS.floor (inject_Z drawHeight * cutoutAspect) in
      (drawWidth, drawHeight)
    else (drawWidth, drawHeight)
  else
    let drawHeight := JS.floor (inject_Z THUMBNAIL_HEIGHT * (85 # 100)) in
    let drawWidth := JS.floor (inject_Z drawHeight * cutoutAspect) in
    if drawWidth >? targetWidth then
      let drawWidth := targetWidth in
      let drawHeight := JS.floor (inject_Z drawWidth / cutoutAspect) in
      (drawWidth, drawHeight)
    else (drawWidth, drawHeight).

(** A box is inside the canvas with a margin of 20 pixels and is at least
    200 pixels wide and high. *)
Definition insideWithMargin (b : Box) : Prop :=
  20 <= x b /\ x b + width b <= THUMBNAIL_WIDTH - 20 /\
  20 <= y b /\ y b + height b <= THUMBNAIL_HEIGHT - 20 /\
  200 <= width b /\ 200 <= height b.


(** The same clamp on doubles. *)
Definition clampToDouble (lo hi v : Double.number) : Double.number :=
  Double.min hi (Double.max lo v).

(** The box that [compositeProductOnBackground] computes from the metadata
    of the cutout: a cutout wider than tall gets the smaller of 45% of the
    canvas width and its own width, any other cutout the smaller of 85% of
    the canvas height and its own height; the other side follows the aspect
    ratio, both sides are raised to 200 pixels, and the box is right-aligned
    with a margin of 5% of the canvas width and centred vertically. *)
Definition flatPosition (md : Metadata) : Box :=
  let cutoutWidth := orElse (md_width md) 400 in
  let cutoutHeight := orElse (md_height md) 400 in
  let aspectRatio := (inject_Z cutoutWidth / inject_Z cutoutHeight)%Q in
  let targetWidth := JS.floor (inject_Z THUMBNAIL_WIDTH * (45 # 100)) in
  let '(drawWidth, drawHeight) :=
    if JS.gt aspectRatio 1 then
      let drawWidth := Z.min targetWidth cutoutWidth in
      let drawHeight := JS.floor (inject_Z drawWidth / aspectRatio) in
      (drawWidth, drawHeight)
    else
      let drawHeight :=
        Z.min (JS.floor (inject_Z THUMBNAIL_HEIGHT * (85 # 100))) cutoutHeight in
      let drawWidth := JS.floor (inject_Z drawHeight * aspectRatio) in
      (drawWidth, drawHeight) in
  let drawWidth := Z.max drawWidth 200 in
  let drawHeight := Z.max drawHeight 200 in
  {| x := THUMBNAIL_WIDTH - drawWidth
          - JS.floor (inject_Z THUMBNAIL_WIDTH * (5 # 100));
     y := JS.floor (inject_Z (THUMBNAIL_HEIGHT - drawHeight) / 2);
     width := drawWidth; height := drawHeight |}.

(** The box that [compositeLifestyleThumbnail] computes from the placement
    intent and the metadata of the cutout. *)
Definition lifestylePosition (position : PedestalPosition) (md : Metadata)
  : Box :=
  Lifestyle.calculateProductPosition position
    (inject_Z (orElse (md_width md) 400)) (inject_Z (orElse (md_height md) 400)).

(** The background counts as dark: the colour, compared without regard to
    letter case, is [#000000] or contains [1c1c1e], or the mood is bold or
    energetic. *)
Definition darkBackground (c : ColorScheme) : Prop :=
  Str.toLowerCase (background c) = "#000000"%string \/
  Str.includes "1c1c1e" (Str.toLowerCase (background c)) = true \/
  mood c = bold \/ mood c = energetic.

(** An 8-bit value written with exactly two hexadecimal digits. *)
Definition hex2 (n : Z) : string :=
  String (Str.hexDigit (n / 16)) (String (Str.hexDigit (n mod 16)) EmptyString).

(** A layer placed at the given top and left coordinates. *)
Definition layerAt {Buffer : Type} (input : Buffer) (top left : Z)
  : Layer Buffer :=
  {| input := input; top := Some top; left := Some left; blend := None |}.

(** The box that [compositeContextualThumbnail] computes from the scene and
    the metadata of the cutout. *)
Definition contextualPosition (sceneDesign : SceneDesign) (md : Metadata) : Box :=
  Contextual.calculateProductPosition
    (p_position (pedestal sceneDesign)) (productSpaceRatio (pedestal sceneDesign))
    (inject_Z (orElse (md_width md) 400)) (inject_Z (orElse (md_height md) 400)).

(** The shadow layer: the box shifted by the preset's offsets, not above or
    left of the canvas origin. *)
Definition shadowLayer {Buffer : Type} (shadowBuffer : Buffer)
    (shadow : ShadowSettings) (position : Box) : Layer Buffer :=
  layerAt shadowBuffer (Z.max 0 (y position + offsetY shadow))
          (Z.max 0 (x position + offsetX shadow)).


(** ** A host on which the pipelines can be run

    Buffers are texts that record how an image was made, so that the order of
    the drawing steps can be read off the result.  An empty text is a buffer
    that does not decode; every image is reported as 200x300; the blur
    operations reject a sigma that is NaN or outside [0.3, 1000] as sharp
    does.  The flag says whether the reflection chain succeeds. *)

Module Symbolic.

Fixpoint decDigits (fuel : nat) (n : Z) (acc : string) : string :=
  match fuel with
  | O => acc
  | S fuel' =>
      let acc' := String (Str.hexDigit (n mod 10)) acc in
      if n / 10 =? 0 then acc' else decDigits fuel' (n / 10) acc'
  end.

Fixpoint fracDigits (fuel : nat) (r : Q) : string :=
  match fuel with
  | O => EmptyString
  | S fuel' =>
      if Qeq_bool r 0 then EmptyString
      else let d := Qfloor (r * 10) in
           String (Str.hexDigit d) (fracDigits fuel' (r * 10 - inject_Z d))
  end.

Definition unsignedToString (q : Q) : string :=
  let i := Qfloor q in
  let r := (q - inject_Z i)%Q in
  (decDigits (S (Z.to_nat i)) i EmptyString
   ++ (if Qeq_bool r 0 then EmptyString else "." ++ fracDigits 17 r))%string.

(** Decimal notation of a number with a short decimal expansion. *)
Definition showNumber (q : Q) : string :=
  if Qle_bool 0 q then unsignedToString q
  else String "-"%char (unsignedToString (- q)).

Definition validSigma (sigma : Q) : bool :=
  Qle_bool (3 # 10) sigma && Qle_bool sigma 1000.

(** The check that sharp's [blur] makes on a sigma given as a double; NaN
    fails both comparisons. *)
Definition validSigmaNumber (sigma : Double.number) : bool :=
  Double.le (Double.decimal 3 10) sigma && Double.le sigma (Double.ofZ 1000).

Definition decodes (b : string) : bool := negb (String.eqb b "").

Definition chain (name : string) (ok : bool) (b : string) : result string string :=
  if decodes b && ok then Ok (name ++ "(" ++ b ++ ")")%string
  else Err (name ++ " failed")%string.

Definition host (reflectionWorks : bool) : Host :=
  {| Buffer := string;
     Error := string;
     fromBase64 := fun s => s;
     toBase64 := fun b => b;
     fromString := fun s => s;
     numberToString := showNumber;
     metadata := fun b =>
       if decodes b then Ok {| md_width := Some 200; md_height := Some 300 |}
       else Err "metadata failed"%string;
     resize := fun b _ _ _ => chain "resize" true b;
     silhouette := fun b _ sigma _ => chain "shadow" (validSigma sigma) b;
     flipped := fun b _ sigma _ =>
       chain "reflection" (reflectionWorks && validSigma sigma) b;
     blurred := fun b sigma => chain "blur" (validSigmaNumber sigma) b;
     draw := fun canvas l =>
       if decodes canvas && decodes (input l)
       then Ok (canvas ++ " <- " ++ input l)%string
       else Err "composite failed"%string |}.

(** A scene with a reflecting pedestal at the bottom centre. *)
Definition scene : SceneDesign :=
  {| environment :=
       {| e_type := studio; e_description := "studio"; e_props := [];
          lighting := {| l_type := lt_natural; l_direction := ld_front;
                         l_intensity := li_balanced |} |};
     colorScheme :=
       {| primary := "#ffffff"; secondary := "#cccccc"; background := "#1C1C1E";
          textColor := "#ffffff"; mood := calm |};
     pedestal :=
       {| p_style := black_glossy; p_shape := circular;
          p_position := center_bottom; hasReflection := true;
          productSpaceRatio := 35 # 100 |} |}.

End Symbolic.

(** ** A host whose images have a size

    A buffer carries a text that records how the image was made, and its
    width and height.  [resize] gives the requested size, every other
    operation keeps the size of its input, and the blur operations reject a
    sigma that is NaN or outside [0.3, 1000] as sharp does. *)

Module Sized.

Record image : Type := {
  label : string;
  columns : Z;
  rows : Z
}.

Definition relabel (name : string) (b : image) : image :=
  {| label := (name ++ "(" ++ label b ++ ")")%string;
     columns := columns b; rows := rows b |}.

Definition host : Host :=
  {| Buffer := image;
     Error := string;
     fromBase64 := fun s => {| label := s; columns := 1920; rows := 1080 |};
     toBase64 := label;
     fromString := fun s => {| label := s; columns := 1280; rows := 720 |};
     numberToString := Symbolic.showNumber;
     metadata := fun b =>
       Ok {| md_width := Some (columns b); md_height := Some (rows b) |};
     resize := fun b w h _ =>
       Ok {| label := ("resize(" ++ label b ++ ")")%string;
             columns := w; rows := h |};
     silhouette := fun b _ sigma _ =>
       if Symbolic.validSigma sigma then Ok (relabel "shadow" b)
       else Err "Expected number between 0.3 and 1000 for sigma"%string;
     flipped := fun b _ sigma _ =>
       if Symbolic.validSigma sigma then Ok (relabel "reflection" b)
       else Err "Expected number between 0.3 and 1000 for sigma"%string;
     blurred := fun b sigma =>
       if Symbolic.validSigmaNumber sigma then Ok (relabel "blur" b)
       else Err "Expected number between 0.3 and 1000 for sigma"%string;
     draw := fun canvas l =>
       Ok {| label := (label canvas ++ " <- " ++ label (input l))%string;
             columns := columns canvas; rows := rows canvas |} |}.

End Sized.

(** ** Definitions used to state the further properties *)

(** Metadata as sharp reports it: a width and a height that are absent or
    not negative (zero is replaced by 400 in the pipelines). *)
Definition plausibleMetadata (md : Metadata) : Prop :=
  (forall n, md_width md = Some n -> 0 <= n) /\
  (forall n, md_height md = Some n -> 0 <= n).

(** Every image of the host has plausible metadata. *)
Definition MetadataContract (H : Host) : Prop :=
  forall (b : Buffer) (md : Metadata), metadata b = Ok md -> plausibleMetadata md.

(** A category that, lower-cased, names a property which every JavaScript
    object inherits; [CATEGORY_SHADOWS] has no entry of its own for these
    two. *)
Definition inheritedKey (category : option string) : Prop :=
  exists s, category = Some s /\
            (Str.toLowerCase s = "constructor"%string \/
             Str.toLowerCase s = "__proto__"%string).

(** ** Image generation and the contextual route

    [types/index.ts], [services/vertexAI.ts] and
    [routes/generateContextualThumbnail.ts]. *)

Inductive ImagenModelTier : Type := STANDARD | FAST | ULTRA.

Definition IMAGEN_MODELS (tier : ImagenModelTier) : string :=
  match tier with
  | STANDARD => "imagen-4.0-generate-001"
  | FAST => "imagen-4.0-fast-generate-001"
  | ULTRA => "imagen-4.0-ultra-generate-001"
  end.

(** The key of [IMAGEN_MODELS] as a string. *)
Definition tierName (tier : ImagenModelTier) : string :=
  match tier with
  | STANDARD => "STANDARD"
  | FAST => "FAST"
  | ULTRA => "ULTRA"
  end.

Inductive AspectRatio : Type :=
| ratio_1_1 | ratio_3_4 | ratio_4_3 | ratio_9_16 | ratio_16_9.

Inductive ImageSize : Type := size_1K | size_2K.

Inductive PersonGeneration : Type := dont_allow | allow_adult | allow_all.

Record GeneratedImage : Type := {
  gi_imageBase64 : string;
  qualityScore : Q;
  mimeType : string
}.

Record GenerateImageOptions : Type := {
  o_modelTier : option ImagenModelTier;
  o_sampleCount : option Z;
  o_aspectRatio : option AspectRatio;
  o_imageSize : option ImageSize;
  o_personGeneration : option PersonGeneration
}.

(** A thrown value: an [Error] with its message, or anything else. *)
Inductive Thrown : Type :=
| ErrorObject (message : string)
| OtherValue.

(** One element of [data.predictions]. *)
Record Prediction : Type := {
  bytesBase64Encoded : option string;
  p_mimeType : option string
}.

(** The body of the request sent to the prediction endpoint. *)
Record PredictRequest : Type := {
  pr_prompt : string;
  pr_sampleCount : Z;
  pr_aspectRatio : AspectRatio;
  pr_imageSize : ImageSize;
  pr_personGeneration : PersonGeneration
}.

(** What the code reads of the response of [fetch]; [json] is the field
    [predictions] of the body, absent or a list. *)
Record FetchResponse : Type := {
  ok : bool;
  status : Z;
  text : result Thrown string;
  json : result Thrown (option (list Prediction))
}.

(** The cloud side: environment variables, the access token, [fetch] and
    the generator of identifiers. *)
Class Cloud : Type := {
  PROJECT_ID : option string;
  GOOGLE_CLOUD_LOCATION : option string;
  getAccessToken : result Thrown string;
  fetch : string -> string -> PredictRequest -> result Thrown FetchResponse;
  uuidv4 : string
}.

(** [v || d] for an optional string [v]. *)
Definition strOr (v : option string) (d : string) : string :=
  match v with
  | Some (String c s) => String c s
  | _ => d
  end.

(** [list.map((x, index) => f(x, index))], counting from [index]. *)
Fixpoint mapFrom {A B : Type} (f : A -> nat -> B) (index : nat) (l : list A)
  : list B :=
  match l with
  | [] => []
  | a :: rest => f a index :: mapFrom f (S index) rest
  end.

(** The request body of the contextual route, for a body of the right
    types. *)
Record ContextualThumbnailRequest : Type := {
  rq_cutoutBase64 : string;
  rq_sceneDesign : SceneDesign;
  rq_imagenPrompt : string;
  rq_variations : option Z;
  rq_aspectRatio : option AspectRatio;
  rq_modelTier : option ImagenModelTier;
  rq_imageSize : option ImageSize
}.

(** The value constraints of [generateContextualThumbnailSchema]; all other
    constraints of the schema are on types. *)
Definition generateContextualThumbnailSchema
    (body : ContextualThumbnailRequest) : bool :=
  (100 <=? String.length (rq_cutoutBase64 body))%nat
  && productSpaceRatioSchema (productSpaceRatio (pedestal (rq_sceneDesign body)))
  && (50 <=? String.length (rq_imagenPrompt body))%nat
  && match rq_variations body with
     | None => true
     | Some n => (n =? 1) || (n =? 2) || (n =? 3) || (n =? 4)
     end.

(** One element of [variations] in the response. *)
Record Variation : Type := {
  v_imageBase64 : string;
  v_qualityScore : Q;
  v_mimeType : string;
  v_composited : bool
}.

(** The responses of the contextual route: status 400, 503, 500 with its
    message, and the JSON body sent with status 200. *)
Inductive Response : Type :=
| InvalidRequest
| ServiceUnavailable
| GenerationFailed (message : string)
| Generated (id : string) (variations : list Variation)
            (sceneDesign : SceneDesign) (modelUsed : string).

Definition statusCode (r : Response) : Z :=
  match r with
  | InvalidRequest => 400
  | ServiceUnavailable => 503
  | GenerationFailed _ => 500
  | Generated _ _ _ _ => 200
  end.

Section Route.

Context {H : Host} {C : Cloud}.

Definition LOCATION : string := strOr GOOGLE_CLOUD_LOCATION "us-central1".

(** [getVertexAI]: it throws when the project is not configured.  The client
    it returns, and the model object made from it, are not used for the
    request; making them is taken not to throw. *)
Definition getVertexAI : result Thrown string :=
  match PROJECT_ID with
  | Some (String c s) => Ok (String c s)
  | _ => Err (ErrorObject "GOOGLE_CLOUD_PROJECT environment variable is required")
  end.

(** [isImagenConfigured]. *)
Definition isImagenConfigured : bool :=
  match PROJECT_ID with
  | Some (String _ _) => true
  | _ => false
  end.

(** [generateImages] of vertexAI.ts.  The [catch] clause logs and
    rethrows. *)
Definition generateImages (prompt : string) (options : GenerateImageOptions)
  : result Thrown (list GeneratedImage) :=
  let modelTier :=
    match o_modelTier options with Some t => t | None => STANDARD end in
  let sampleCount :=
    match o_sampleCount options with Some n => n | None => 2 end in
  let aspectRatio :=
    match o_aspectRatio options with Some r => r | None => ratio_16_9 end in
  let imageSize :=
    match o_imageSize options with Some s => s | None => size_1K end in
  let personGeneration :=
    match o_personGeneration options with Some p => p | None => dont_allow end in
  let modelId := IMAGEN_MODELS modelTier in
  await project <- getVertexAI ;;
  let request :=
    {| pr_prompt := prompt; pr_sampleCount := sampleCount;
       pr_aspectRatio := aspectRatio; pr_imageSize := imageSize;
       pr_personGeneration := personGeneration |} in
  let endpoint :=
    ("projects/" ++ project ++ "/locations/" ++ LOCATION
       ++ "/publishers/google/models/" ++ modelId)%string in
  await token <- getAccessToken ;;
  await response <-
    fetch ("https://" ++ LOCATION ++ "-aiplatform.googleapis.com/v1/"
             ++ endpoint ++ ":predict")%string
          ("Bearer " ++ token)%string request ;;
  if negb (ok response) then
    await errorText <- text response ;;
    Err (ErrorObject
           ("Imagen API error: " ++ numberToString (inject_Z (status response))
              ++ " - " ++ errorText)%string)
  else
    await data <- json response ;;
    match data with
    | None => Err (ErrorObject "No images generated")
    | Some [] => Err (ErrorObject "No images generated")
    | Some predictions =>
        Ok (mapFrom
              (fun prediction index =>
                 {| gi_imageBase64 := strOr (bytesBase64Encoded prediction) "";
                    qualityScore :=
                      ((9 # 10) - inject_Z (Z.of_nat index) * (5 # 100))%Q;
                    mimeType := strOr (p_mimeType prediction) "image/png" |})
              0%nat predictions)
    end.

(** The element that the compositing loop pushes for one background: the
    composited image, or the raw background when compositing is rejected. *)
Definition compositedEntry (cutoutBase64 : string) (sceneDesign : SceneDesign)
    (bg : GeneratedImage) : Variation :=
  match compositeContextualThumbnail (gi_imageBase64 bg) cutoutBase64
                                     sceneDesign with
  | Ok result =>
      {| v_imageBase64 := imageBase64 result;
         v_qualityScore := qualityScore bg;
         v_mimeType := "image/png";
         v_composited := true |}
  | Err compError =>
      {| v_imageBase64 := gi_imageBase64 bg;
         v_qualityScore := qualityScore bg;
         v_mimeType := mimeType bg;
         v_composited := false |}
  end.

(** The handler of [POST /api/generate-contextual-thumbnail]. *)
Definition postGenerateContextualThumbnail (body : ContextualThumbnailRequest)
  : Response :=
  if negb (generateContextualThumbnailSchema body) then InvalidRequest
  else
    let cutoutBase64 := rq_cutoutBase64 body in
    let sceneDesign := rq_sceneDesign body in
    let imagenPrompt := rq_imagenPrompt body in
    let variations := match rq_variations body with Some n => n | None => 2 end in
    let aspectRatio :=
      match rq_aspectRatio body with Some r => r | None => ratio_16_9 end in
    let modelTier :=
      match rq_modelTier body with Some t => t | None => STANDARD end in
    let imageSize :=
      match rq_imageSize body with Some s => s | None => size_1K end in
    if negb isImagenConfigured then ServiceUnavailable
    else
      match generateImages imagenPrompt
              {| o_modelTier := Some modelTier;
                 o_sampleCount := Some variations;
                 o_aspectRatio := Some aspectRatio;
                 o_imageSize := Some imageSize;
                 o_personGeneration := Some dont_allow |} with
      | Ok generatedImages =>
          let compositedImages :=
            fold_left
              (fun compositedImages bg =>
                 push compositedImages
                      (compositedEntry cutoutBase64 sceneDesign bg))
              generatedImages [] in
          Generated uuidv4 compositedImages sceneDesign
            ("imagen-4.0-" ++ Str.toLowerCase (tierName modelTier)
               ++ "-generate-001")%string
      | Err error =>
          GenerationFailed
            match error with
            | ErrorObject message => message
            | OtherValue => "Unknown error occurred"%string
            end
      end.

End Route.

(** A cloud for running the route on examples: the project is configured or
    not, and the endpoint answers with a status and a list of predictions. *)
Module Demo.

Definition cloud (configured : bool) (status : Z)
    (predictions : option (list Prediction)) : Cloud :=
  {| PROJECT_ID := if configured then Some "demo-project"%string else None;
     GOOGLE_CLOUD_LOCATION := None;
     getAccessToken := Ok "token"%string;
     fetch := fun _ _ _ =>
       Ok {| ok := (200 <=? status) && (status <? 300);
             status := status;
             text := Ok "quota exceeded"%string;
             json := Ok predictions |};
     uuidv4 := "00000000-0000-4000-8000-000000000000"%string |}.

Definition twoPredictions : option (list Prediction) :=
  Some [ {| bytesBase64Encoded := Some "first"%string; p_mimeType := None |};
         {| bytesBase64Encoded := Some ""%string;
            p_mimeType := Some "image/jpeg"%string |} ].

(** A body that the schema accepts. *)
Definition body (tier : option ImagenModelTier) : ContextualThumbnailRequest :=
  {| rq_cutoutBase64 :=
       Str.repeatChar 100 "A" EmptyString;
     rq_sceneDesign := Symbolic.scene;
     rq_imagenPrompt := Str.repeatChar 50 "p" EmptyString;
     rq_variations := Some 2;
     rq_aspectRatio := None;
     rq_modelTier := tier;
     rq_imageSize := None |}.

End Demo.

(** * Properties *)

(** ** Arithmetic of [Math.floor] and of the comparisons *)

Lemma gt_true_iff (a b : Q) : JS.gt a b = true <-> (b < a)%Q.
Proof.
  unfold JS.gt. rewrite negb_true_iff. split; intro Hab.
  - apply Qnot_le_lt. intro Hle. apply Qle_bool_iff in Hle. congruence.
  - destruct (Qle_bool a b) eqn:E; [|reflexivity].
    apply Qle_bool_iff in E. exfalso. apply (Qlt_not_le _ _ Hab E).
Qed.

Lemma gt_false_iff (a b : Q) : JS.gt a b = false <-> (a <= b)%Q.
Proof.
  unfold JS.gt. rewrite negb_false_iff. apply Qle_bool_iff.
Qed.

Lemma floor_le_Z (q : Q) (z : Z) : (q <= inject_Z z)%Q -> JS.floor q <= z.
Proof.
  intro Hq. unfold JS.floor. rewrite <- (Qfloor_Z z).
  now apply Qfloor_resp_le.
Qed.

Lemma floor_lt_Z (q : Q) (z : Z) : (q < inject_Z z)%Q -> JS.floor q < z.
Proof.
  intro Hq. unfold JS.floor. rewrite Zlt_Qlt.
  eapply Qle_lt_trans; [apply Qfloor_le | exact Hq].
Qed.

Lemma floor_ge_Z (q : Q) (z : Z) : (inject_Z z <= q)%Q -> z <= JS.floor q.
Proof.
  intro Hq. unfold JS.floor. rewrite <- (Qfloor_Z z) at 1.
  now apply Qfloor_resp_le.
Qed.

Lemma floor_below (q : Q) : (inject_Z (JS.floor q) <= q)%Q.
Proof. apply Qfloor_le. Qed.

Lemma floor_inject (z : Z) : JS.floor (inject_Z z) = z.
Proof. apply Qfloor_Z. Qed.

Lemma gt_compat (a a' b : Q) : (a == a')%Q -> JS.gt a b = JS.gt a' b.
Proof. intro Ha. unfold JS.gt. now rewrite Ha. Qed.

Lemma floor_compat (a a' : Q) : (a == a')%Q -> JS.floor a = JS.floor a'.
Proof. intro Ha. unfold JS.floor. now rewrite Ha. Qed.

Lemma height_08 : JS.floor (inject_Z THUMBNAIL_HEIGHT * (8 # 10)) = 576.
Proof. reflexivity. Qed.

Lemma height_085 : JS.floor (inject_Z THUMBNAIL_HEIGHT * (85 # 100)) = 612.
Proof. reflexivity. Qed.

(** From [k < floor (t / a)] with [a > 0]: [(k + 1) * a <= t]. *)
Lemma floor_div_gt (t : Z) (a : Q) (k : Z) :
  (0 < a)%Q -> k < JS.floor (inject_Z t / a) ->
  (inject_Z (k + 1) * a <= inject_Z t)%Q.
Proof.
  intros Ha Hk.
  assert (Hq : (inject_Z (k + 1) <= inject_Z t / a)%Q).
  { eapply Qle_trans; [|apply floor_below]. rewrite <- Zle_Qle. lia. }
  apply (Qmult_le_compat_r _ _ a) in Hq; [|now apply Qlt_le_weak].
  setoid_replace (inject_Z t / a * a)%Q with (inject_Z t) in Hq; [exact Hq|].
  field. intro E. rewrite E in Ha. now apply Qlt_irrefl in Ha.
Qed.

(** The sizing block never exceeds the target width nor 85% of the canvas
    height. *)
Lemma fitSize_bounds (tw : Z) (a : Q) :
  (0 < a)%Q -> fst (fitSize tw a) <= tw /\ snd (fitSize tw a) <= 612.
Proof.
  intro Ha. unfold fitSize. rewrite height_08, height_085.
  destruct (JS.gt a 1) eqn:Ewide.
  - destruct (JS.gt (inject_Z (JS.floor (inject_Z tw / a)))
                    (inject_Z THUMBNAIL_HEIGHT * (8 # 10))) eqn:Etall; cbn [fst snd].
    + split; [|lia].
      apply gt_true_iff in Etall.
      assert (Hk : 576 < JS.floor (inject_Z tw / a)).
      { rewrite Zlt_Qlt. eapply Qle_lt_trans; [|exact Etall].
        unfold THUMBNAIL_HEIGHT. vm_compute. discriminate. }
      apply floor_div_gt in Hk; [|exact Ha].
      apply floor_le_Z. eapply Qle_trans; [|exact Hk].
      apply Qmult_le_compat_r; [|now apply Qlt_le_weak].
      rewrite <- Zle_Qle. lia.
    + split; [lia|].
      apply gt_false_iff in Etall.
      assert (Hle : (inject_Z (JS.floor (inject_Z tw / a)) <= inject_Z 576)%Q).
      { eapply Qle_trans; [exact Etall|]. vm_compute. discriminate. }
      rewrite <- Zle_Qle in Hle. lia.
  - destruct (JS.floor (inject_Z 612 * a) >? tw) eqn:Ewider; cbn [fst snd].
    + split; [lia|].
      apply Z.gtb_lt in Ewider.
      assert (Hlt : (inject_Z tw < inject_Z 612 * a)%Q).
      { eapply Qlt_le_trans; [|apply floor_below]. now rewrite <- Zlt_Qlt. }
      apply Z.lt_le_incl. apply floor_lt_Z.
      apply Qlt_shift_div_r; [exact Ha | exact Hlt].
    + split; [|lia]. rewrite Z.gtb_ltb in Ewider. apply Z.ltb_ge in Ewider. exact Ewider.
Qed.

(** The sizing block depends on the aspect ratio as a number only. *)
Lemma fitSize_compat (tw : Z) (a a' : Q) :
  (a == a')%Q -> fitSize tw a = fitSize tw a'.
Proof.
  intro E. unfold fitSize.
  assert (Egt : JS.gt a 1 = JS.gt a' 1) by now apply gt_compat.
  assert (Ediv : JS.floor (inject_Z tw / a) = JS.floor (inject_Z tw / a'))
    by (apply floor_compat; now rewrite E).
  assert (Emul : forall k, JS.floor (inject_Z k * a) = JS.floor (inject_Z k * a'))
    by (intro k; apply floor_compat; now rewrite E).
  now rewrite Egt, Ediv, !Emul.
Qed.

(** ** Geometry resolvers *)

Lemma contextual_unfold (pos : PedestalPosition) (r w h : Q) :
  Contextual.calculateProductPosition pos r w h =
  let size := fitSize (Contextual.targetWidth r) (w / h) in
  let dw := Z.max (fst size) 200 in
  let dh := Z.max (snd size) 200 in
  {| x := Z.max 20 (Z.min (Contextual.anchorX pos dw) (THUMBNAIL_WIDTH - dw - 20));
     y := Z.max 20 (Z.min (Contextual.anchorY pos dh) (THUMBNAIL_HEIGHT - dh - 20));
     width := dw; height := dh |}.
Proof.
  unfold Contextual.calculateProductPosition, fitSize.
  destruct (JS.gt (w / h) 1).
  - destruct (JS.gt _ _); reflexivity.
  - destruct (_ >? _); reflexivity.
Qed.

Lemma lifestyle_unfold (pos : PedestalPosition) (w h : Q) :
  Lifestyle.calculateProductPosition pos w h =
  let size := fitSize Lifestyle.targetWidth (w / h) in
  let dw := Z.max (fst size) 200 in
  let dh := Z.max (snd size) 200 in
  {| x := Z.max 20 (Z.min (Lifestyle.anchorX pos dw) (THUMBNAIL_WIDTH - dw - 20));
     y := Z.max 20 (Z.min (Lifestyle.anchorY pos dh) (THUMBNAIL_HEIGHT - dh - 20));
     width := dw; height := dh |}.
Proof.
  unfold Lifestyle.calculateProductPosition, fitSize.
  destruct (JS.gt (w / h) 1).
  - destruct (JS.gt _ _); reflexivity.
  - destruct (_ >? _); reflexivity.
Qed.

Lemma aspect_pos (w h : Q) : (0 < w)%Q -> (0 < h)%Q -> (0 < w / h)%Q.
Proof.
  intros Hw Hh. apply Qlt_shift_div_l; [exact Hh|]. now rewrite Qmult_0_l.
Qed.

Lemma lifestyle_targetWidth : Lifestyle.targetWidth = 448.
Proof. reflexivity. Qed.

(** The target width is monotone in the ratio. *)
Lemma targetWidth_mono (r r' : Q) :
  (r <= r')%Q -> Contextual.targetWidth r <= Contextual.targetWidth r'.
Proof.
  intro Hr. unfold Contextual.targetWidth, JS.floor.
  apply Qfloor_resp_le. apply Qmult_le_l; [reflexivity | exact Hr].
Qed.

Lemma targetWidth_range (r : Q) :
  (2 # 10 <= r)%Q -> (r <= 6 # 10)%Q ->
  256 <= Contextual.targetWidth r <= 768.
Proof.
  intros Hlo Hhi. split.
  - change 256 with (Contextual.targetWidth (2 # 10)). now apply targetWidth_mono.
  - change 768 with (Contextual.targetWidth (6 # 10)). now apply targetWidth_mono.
Qed.

(** Size of the box of a resolver whose target width is at most 768. *)
Lemma draw_size_range (tw : Z) (a : Q) :
  (0 < a)%Q -> tw <= 768 ->
  200 <= Z.max (fst (fitSize tw a)) 200 <= Z.max tw 200 /\
  200 <= Z.max (snd (fitSize tw a)) 200 <= 612.
Proof.
  intros Ha Htw. destruct (fitSize_bounds tw a Ha) as [Hw Hh]. lia.
Qed.

Lemma clamp_inside (a dw dh b : Z) :
  200 <= dw <= 768 -> 200 <= dh <= 612 ->
  insideWithMargin
    {| x := Z.max 20 (Z.min a (THUMBNAIL_WIDTH - dw - 20));
       y := Z.max 20 (Z.min b (THUMBNAIL_HEIGHT - dh - 20));
       width := dw; height := dh |}.
Proof.
  intros Hw Hh. unfold insideWithMargin, THUMBNAIL_WIDTH, THUMBNAIL_HEIGHT.
  cbn [x y width height]. lia.
Qed.

(** C1.  On the 1280x720 canvas, for every cutout of width and height at
    least 1, every placement intent and, for the contextual resolver, every
    productSpaceRatio between 0.2 and 0.6, the box returned by
    [calculateProductPosition] keeps a 20-pixel margin on all four sides and
    is at least 200 pixels wide and high. *)
Theorem C1_box_inside_canvas
    (pos : PedestalPosition) (ratio cutoutWidth cutoutHeight : Q) :
  (1 <= cutoutWidth)%Q -> (1 <= cutoutHeight)%Q ->
  (2 # 10 <= ratio)%Q -> (ratio <= 6 # 10)%Q ->
  insideWithMargin
    (Contextual.calculateProductPosition pos ratio cutoutWidth cutoutHeight) /\
  insideWithMargin
    (Lifestyle.calculateProductPosition pos cutoutWidth cutoutHeight).
Proof.
  intros Hw Hh Hlo Hhi.
  assert (Ha : (0 < cutoutWidth / cutoutHeight)%Q).
  { apply aspect_pos; eapply Qlt_le_trans; try eassumption; reflexivity. }
  pose proof (targetWidth_range ratio Hlo Hhi) as Htw.
  split.
  - rewrite contextual_unfold. cbv zeta.
    destruct (draw_size_range (Contextual.targetWidth ratio) _ Ha) as [Hdw Hdh];
      [lia|].
    apply clamp_inside; lia.
  - rewrite lifestyle_unfold. cbv zeta.
    pose proof lifestyle_targetWidth as Etw.
    destruct (draw_size_range Lifestyle.targetWidth _ Ha) as [Hdw Hdh]; [lia|].
    apply clamp_inside; lia.
Qed.

Lemma C1_box_inside_canvas_witness :
  insideWithMargin (Contextual.calculateProductPosition right_third (35 # 100) 200 300) /\
  insideWithMargin (Lifestyle.calculateProductPosition right_third 200 300).
Proof.
  apply (C1_box_inside_canvas right_third (35 # 100) 200 300);
    unfold Qle; simpl; lia.
Defined.

(** Comparisons between closed rationals. *)
Ltac qcompute := unfold Qle, Qlt; simpl; lia.


Lemma schema_range (r : Q) :
  productSpaceRatioSchema r = true <-> (2 # 10 <= r)%Q /\ (r <= 6 # 10)%Q.
Proof.
  unfold productSpaceRatioSchema. rewrite andb_true_iff, !Qle_bool_iff.
  reflexivity.
Qed.







(** C9.  In both resolvers the returned box depends on the cutout only
    through its aspect ratio: two cutouts with [w1 / h1 = w2 / h2] and the
    same remaining inputs get the same box. *)
Theorem C9_box_depends_on_aspect_only
    (pos : PedestalPosition) (ratio w1 h1 w2 h2 : Q) :
  (0 < w1)%Q -> (0 < h1)%Q -> (0 < w2)%Q -> (0 < h2)%Q ->
  (w1 / h1 == w2 / h2)%Q ->
  Contextual.calculateProductPosition pos ratio w1 h1
    = Contextual.calculateProductPosition pos ratio w2 h2 /\
  Lifestyle.calculateProductPosition pos w1 h1
    = Lifestyle.calculateProductPosition pos w2 h2.
Proof.
  intros _ _ _ _ E. split.
  - rewrite !contextual_unfold. now rewrite (fitSize_compat _ _ _ E).
  - rewrite !lifestyle_unfold. now rewrite (fitSize_compat _ _ _ E).
Qed.

Lemma C9_box_depends_on_aspect_only_witness :
  Contextual.calculateProductPosition center_bottom (4 # 10) 200 300
    = Contextual.calculateProductPosition center_bottom (4 # 10) 3000 4500 /\
  Lifestyle.calculateProductPosition center_bottom 200 300
    = Lifestyle.calculateProductPosition center_bottom 3000 4500.
Proof.
  apply (C9_box_depends_on_aspect_only center_bottom (4 # 10) 200 300 3000 4500);
    reflexivity.
Defined.

(** For a box between 200 and 768 pixels wide, centring it on the fraction
    [c] of the canvas width needs no clamping when [c] is between 0.33 and
    0.67. *)
Lemma anchor_unclamped_x (c : Q) (dw : Z) :
  (33 # 100 <= c)%Q -> (c <= 67 # 100)%Q -> 200 <= dw <= 768 ->
  Z.max 20 (Z.min (JS.floor (inject_Z THUMBNAIL_WIDTH * c - inject_Z dw / 2))
                  (THUMBNAIL_WIDTH - dw - 20))
  = JS.floor (inject_Z THUMBNAIL_WIDTH * c - inject_Z dw / 2).
Proof.
  intros Hlo Hhi Hdw.
  assert (H200 : (inject_Z 200 <= inject_Z dw)%Q) by (rewrite <- Zle_Qle; lia).
  assert (H768 : (inject_Z dw <= inject_Z 768)%Q) by (rewrite <- Zle_Qle; lia).
  assert (Hlow : 20 <= JS.floor (inject_Z THUMBNAIL_WIDTH * c - inject_Z dw / 2)).
  { apply floor_ge_Z. unfold THUMBNAIL_WIDTH.
    change (inject_Z 20) with 20%Q. change (inject_Z 1280) with 1280%Q.
    change (inject_Z 768) with 768%Q in H768.
    unfold Qdiv. change (/ 2)%Q with (1 # 2)%Q. lra. }
  assert (Hup : JS.floor (inject_Z THUMBNAIL_WIDTH * c - inject_Z dw / 2)
                <= THUMBNAIL_WIDTH - dw - 20).
  { apply floor_le_Z. unfold THUMBNAIL_WIDTH.
    replace (1280 - dw - 20) with (1260 + - dw) by lia.
    rewrite inject_Z_plus, inject_Z_opp.
    change (inject_Z 1260) with 1260%Q. change (inject_Z 1280) with 1280%Q.
    change (inject_Z 768) with 768%Q in H768.
    unfold Qdiv. change (/ 2)%Q with (1 # 2)%Q. lra. }
  lia.
Qed.

(** A box between 200 and 612 pixels high is centred vertically without
    clamping. *)
Lemma anchor_unclamped_y (dh : Z) :
  200 <= dh <= 612 ->
  Z.max 20 (Z.min (JS.floor (inject_Z (THUMBNAIL_HEIGHT - dh) / 2))
                  (THUMBNAIL_HEIGHT - dh - 20))
  = JS.floor (inject_Z (THUMBNAIL_HEIGHT - dh) / 2).
Proof.
  intros Hdh.
  assert (Hlow : 20 <= JS.floor (inject_Z (THUMBNAIL_HEIGHT - dh) / 2)).
  { apply floor_ge_Z. apply Qle_shift_div_l; [reflexivity|].
    change (inject_Z 20 * 2)%Q with (inject_Z 40).
    rewrite <- Zle_Qle. unfold THUMBNAIL_HEIGHT. lia. }
  assert (Hup : JS.floor (inject_Z (THUMBNAIL_HEIGHT - dh) / 2)
                <= THUMBNAIL_HEIGHT - dh - 20).
  { apply floor_le_Z. apply Qle_shift_div_r; [reflexivity|].
    setoid_replace (inject_Z (THUMBNAIL_HEIGHT - dh - 20) * 2)%Q
      with (inject_Z ((THUMBNAIL_HEIGHT - dh - 20) * 2))
      by (now rewrite inject_Z_mult).
    rewrite <- Zle_Qle. unfold THUMBNAIL_HEIGHT. lia. }
  lia.
Qed.

(** C3, as stated, fails for the contextual resolver: with ratio 0.35 and a
    200x300 cutout, intent right-third, the box is 408 wide and starts at
    x = 628 = floor(0.65 * 1280 - 408 / 2), whereas centring on the 67% point
    gives floor(0.67 * 1280 - 408 / 2) = 653; for left-third it starts at
    244, not at 218. *)
Lemma C3_counterexample :
  let r := Contextual.calculateProductPosition right_third (35 # 100) 200 300 in
  let l := Contextual.calculateProductPosition left_third (35 # 100) 200 300 in
  width r = 408 /\ x r = 628 /\
  JS.floor (inject_Z THUMBNAIL_WIDTH * (67 # 100) - inject_Z (width r) / 2) = 653 /\
  x r <> JS.floor (inject_Z THUMBNAIL_WIDTH * (67 # 100) - inject_Z (width r) / 2) /\
  width l = 408 /\ x l = 244 /\
  x l <> JS.floor (inject_Z THUMBNAIL_WIDTH * (33 # 100) - inject_Z (width l) / 2).
Proof.
  cbv zeta. repeat split; try reflexivity; vm_compute; discriminate.
Qed.

(** C3, amended.  For every cutout, the lifestyle resolver centres the box
    horizontally on the 33% (left-third) and 67% (right-third) canvas-width
    point, and the contextual resolver, for every accepted
    productSpaceRatio, on the 35% and 65% point; both centre it vertically.
    The final clamp leaves these coordinates unchanged. *)
Theorem C3_third_anchors (ratio cutoutWidth cutoutHeight : Q) :
  (0 < cutoutWidth)%Q -> (0 < cutoutHeight)%Q ->
  (2 # 10 <= ratio)%Q -> (ratio <= 6 # 10)%Q ->
  let ll := Lifestyle.calculateProductPosition left_third cutoutWidth cutoutHeight in
  let lr := Lifestyle.calculateProductPosition right_third cutoutWidth cutoutHeight in
  let cl := Contextual.calculateProductPosition left_third ratio cutoutWidth cutoutHeight in
  let cr := Contextual.calculateProductPosition right_third ratio cutoutWidth cutoutHeight in
  (x ll = JS.floor (inject_Z THUMBNAIL_WIDTH * (33 # 100) - inject_Z (width ll) / 2) /\
   y ll = JS.floor (inject_Z (THUMBNAIL_HEIGHT - height ll) / 2)) /\
  (x lr = JS.floor (inject_Z THUMBNAIL_WIDTH * (67 # 100) - inject_Z (width lr) / 2) /\
   y lr = JS.floor (inject_Z (THUMBNAIL_HEIGHT - height lr) / 2)) /\
  (x cl = JS.floor (inject_Z THUMBNAIL_WIDTH * (35 # 100) - inject_Z (width cl) / 2) /\
   y cl = JS.floor (inject_Z (THUMBNAIL_HEIGHT - height cl) / 2)) /\
  (x cr = JS.floor (inject_Z THUMBNAIL_WIDTH * (65 # 100) - inject_Z (width cr) / 2) /\
   y cr = JS.floor (inject_Z (THUMBNAIL_HEIGHT - height cr) / 2)).
Proof.
  intros Hw Hh Hlo Hhi.
  pose proof (aspect_pos _ _ Hw Hh) as Ha.
  pose proof (targetWidth_range ratio Hlo Hhi) as Htw.
  pose proof lifestyle_targetWidth as Etw.
  destruct (draw_size_range (Contextual.targetWidth ratio) _ Ha) as [Hcw Hch];
    [lia|].
  destruct (draw_size_range Lifestyle.targetWidth _ Ha) as [Hlw Hlh]; [lia|].
  cbv zeta. rewrite !contextual_unfold, !lifestyle_unfold.
  cbv zeta. cbn [x y width height Lifestyle.anchorX Lifestyle.anchorY
                 Contextual.anchorX Contextual.anchorY].
  repeat split;
    first [ apply anchor_unclamped_y; lia
          | apply anchor_unclamped_x; [qcompute | qcompute | lia] ].
Qed.

Lemma C3_third_anchors_witness :
  let ll := Lifestyle.calculateProductPosition left_third 200 300 in
  let cr := Contextual.calculateProductPosition right_third (35 # 100) 200 300 in
  x ll = JS.floor (inject_Z THUMBNAIL_WIDTH * (33 # 100) - inject_Z (width ll) / 2) /\
  x cr = JS.floor (inject_Z THUMBNAIL_WIDTH * (65 # 100) - inject_Z (width cr) / 2).
Proof.
  assert (Hq : (0 < 200)%Q /\ (0 < 300)%Q /\
               (2 # 10 <= 35 # 100)%Q /\ (35 # 100 <= 6 # 10)%Q)
    by (repeat split; qcompute).
  destruct Hq as (Hw & Hh & Hlo & Hhi).
  pose proof (C3_third_anchors (35 # 100) 200 300 Hw Hh Hlo Hhi) as Hthm.
  cbv zeta in Hthm. cbv zeta.
  destruct Hthm as ((Hll & _) & _ & _ & (Hcr & _)).
  split; [exact Hll | exact Hcr].
Defined.

(** ** Shadow preset of a scene *)

Lemma LightingType_eqb_eq (a b : LightingType) :
  LightingType_eqb a b = true <-> a = b.
Proof. destruct a, b; simpl; split; congruence. Qed.

Lemma LightingIntensity_eqb_eq (a b : LightingIntensity) :
  LightingIntensity_eqb a b = true <-> a = b.
Proof. destruct a, b; simpl; split; congruence. Qed.

Lemma Mood_eqb_eq (a b : Mood) : Mood_eqb a b = true <-> a = b.
Proof. destruct a, b; simpl; split; congruence. Qed.

Lemma PedestalPosition_eqb_eq (a b : PedestalPosition) :
  PedestalPosition_eqb a b = true <-> a = b.
Proof. destruct a, b; simpl; split; congruence. Qed.

Lemma isDarkBg_spec (c : ColorScheme) : isDarkBg c = true <-> darkBackground c.
Proof.
  unfold isDarkBg, darkBackground.
  rewrite !orb_true_iff, String.eqb_eq, !Mood_eqb_eq. tauto.
Qed.

(** Lower-casing keeps every occurrence of a lower-case needle, so a colour
    that literally contains [1c1c1e] is dark. *)
Lemma prefix_toLowerCase (needle hay : string) :
  Str.toLowerCase needle = needle ->
  String.prefix needle hay = true ->
  String.prefix needle (Str.toLowerCase hay) = true.
Proof.
  revert hay. induction needle as [|a needle IH]; intros hay Hlow Hpre.
  - now destruct (Str.toLowerCase hay).
  - destruct hay as [|b hay]; [discriminate|].
    simpl in Hlow, Hpre |- *. injection Hlow as Ha Hn.
    destruct (ascii_dec a b) as [->|]; [|discriminate].
    rewrite Ha. destruct (ascii_dec b b); [|congruence].
    now apply IH.
Qed.

Lemma includes_toLowerCase (needle hay : string) :
  Str.toLowerCase needle = needle ->
  Str.includes needle hay = true ->
  Str.includes needle (Str.toLowerCase hay) = true.
Proof.
  intro Hlow. induction hay as [|b hay IH]; intro Hinc.
  - exact Hinc.
  - cbn [Str.includes] in Hinc.
    destruct (String.prefix needle (String b hay)) eqn:Epre.
    + apply (prefix_toLowerCase _ _ Hlow) in Epre.
      change (Str.toLowerCase (String b hay))
        with (String (Str.lowerChar b) (Str.toLowerCase hay)) in Epre |- *.
      unfold Str.includes; fold Str.includes. rewrite Epre. reflexivity.
    + specialize (IH Hinc).
      change (Str.toLowerCase (String b hay))
        with (String (Str.lowerChar b) (Str.toLowerCase hay)).
      unfold Str.includes; fold Str.includes. rewrite IH.
      destruct (String.prefix needle
                  (String (Str.lowerChar b) (Str.toLowerCase hay)));
        reflexivity.
Qed.

Lemma literal_dark_background (c : ColorScheme) :
  background c = "#000000"%string \/
  Str.includes "1c1c1e" (background c) = true ->
  darkBackground c.
Proof.
  intros [E|E]; [left; now rewrite E | right; left].
  now apply includes_toLowerCase.
Qed.

(** C4.  [getShadowFromDesign] chooses by priority: dramatic or neon lighting
    gives the dramatic preset; otherwise soft lighting or low-key intensity
    gives the soft preset; otherwise a dark background (colour [#000000] or
    containing [1c1c1e], compared without regard to case, or mood bold or
    energetic) gives the dark preset; otherwise the light preset.  The result
    is always one of the five named presets, the default preset being the
    trailing return. *)
Theorem C4_shadow_priority (design : SceneDesign) :
  let t := l_type (lighting (environment design)) in
  let i := l_intensity (lighting (environment design)) in
  let dramaticLight := t = lt_dramatic \/ t = lt_neon in
  let softLight := t = lt_soft \/ i = li_low_key in
  let dark := darkBackground (colorScheme design) in
  (dramaticLight -> getShadowFromDesign design = SHADOW_PRESETS.dramatic) /\
  (~ dramaticLight -> softLight ->
   getShadowFromDesign design = SHADOW_PRESETS.soft) /\
  (~ dramaticLight -> ~ softLight -> dark ->
   getShadowFromDesign design = SHADOW_PRESETS.dark) /\
  (~ dramaticLight -> ~ softLight -> ~ dark ->
   getShadowFromDesign design = SHADOW_PRESETS.light) /\
  In (getShadowFromDesign design)
     [SHADOW_PRESETS.dramatic; SHADOW_PRESETS.soft; SHADOW_PRESETS.dark;
      SHADOW_PRESETS.light; SHADOW_PRESETS.default].
Proof.
  cbv zeta. unfold getShadowFromDesign.
  pose proof (isDarkBg_spec (colorScheme design)) as Hdark.
  destruct (LightingType_eqb _ lt_dramatic || LightingType_eqb _ lt_neon) eqn:E1.
  - apply orb_true_iff in E1. rewrite !LightingType_eqb_eq in E1.
    repeat split; intros; try tauto. simpl; tauto.
  - apply orb_false_iff in E1. destruct E1 as [E1a E1b].
    assert (N1 : ~ (l_type (lighting (environment design)) = lt_dramatic \/
                    l_type (lighting (environment design)) = lt_neon)).
    { intros [E|E]; apply LightingType_eqb_eq in E; congruence. }
    destruct (LightingType_eqb _ lt_soft || LightingIntensity_eqb _ li_low_key)
      eqn:E2.
    + apply orb_true_iff in E2.
      rewrite LightingType_eqb_eq, LightingIntensity_eqb_eq in E2.
      repeat split; intros; try tauto. simpl; tauto.
    + apply orb_false_iff in E2. destruct E2 as [E2a E2b].
      assert (N2 : ~ (l_type (lighting (environment design)) = lt_soft \/
                      l_intensity (lighting (environment design)) = li_low_key)).
      { intros [E|E];
          [apply LightingType_eqb_eq in E | apply LightingIntensity_eqb_eq in E];
          congruence. }
      destruct (isDarkBg (colorScheme design)) eqn:E3; cbn [negb].
      * assert (D : darkBackground (colorScheme design)) by now apply Hdark.
        repeat split; intros; try tauto. simpl; tauto.
      * assert (D : ~ darkBackground (colorScheme design))
          by (intro D; apply Hdark in D; discriminate).
        repeat split; intros; try tauto. simpl; tauto.
Qed.

(** C10.  [getShadowFromDesign] returns the dramatic, soft, dark or light
    preset and never the default one: a background is dark or it is not, so
    the trailing return is not reached. *)
Theorem C10_default_never_returned (design : SceneDesign) :
  In (getShadowFromDesign design)
     [SHADOW_PRESETS.dramatic; SHADOW_PRESETS.soft; SHADOW_PRESETS.dark;
      SHADOW_PRESETS.light] /\
  getShadowFromDesign design <> SHADOW_PRESETS.default.
Proof.
  unfold getShadowFromDesign.
  destruct (_ || _); [split; [simpl; tauto | discriminate]|].
  destruct (_ || _); [split; [simpl; tauto | discriminate]|].
  destruct (isDarkBg (colorScheme design)); cbn [negb];
    (split; [simpl; tauto | discriminate]).
Qed.

(** ** Arithmetic of doubles *)

(** The literals of the two services, bit for bit: 0.20 is
    0x1.999999999999ap-3, 0.30 is 0x1.3333333333333p-2, 0.25 is 2^-2, 255 is
    0x1.fep+7, 8 is 2^3, 15 is 0x1.ep+3 and 12 is 0x1.8p+3. *)
Example double_literals :
  Double.decimal 20 100 = S754_finite false 7205759403792794 (-55) /\
  Double.decimal 30 100 = S754_finite false 5404319552844595 (-54) /\
  Double.decimal 25 100 = S754_finite false 4503599627370496 (-54) /\
  Double.ofZ 255 = S754_finite false 8972014882652160 (-45) /\
  Double.ofZ 8 = S754_finite false 4503599627370496 (-49) /\
  Double.ofZ 15 = S754_finite false 8444249301319680 (-49) /\
  Double.ofZ 12 = S754_finite false 6755399441055744 (-49).
Proof. repeat split; vm_compute; reflexivity. Qed.

(** The number of binary digits of a mantissa. *)
Lemma digits2_upper (m : positive) : Zpos m < 2 ^ Zpos (digits2_pos m).
Proof.
  induction m as [m IH|m IH|]; cbn [digits2_pos].
  - rewrite Pos2Z.inj_succ, Z.pow_succ_r by lia. lia.
  - rewrite Pos2Z.inj_succ, Z.pow_succ_r by lia. lia.
  - reflexivity.
Qed.

Lemma digits2_lower (m : positive) : 2 ^ (Zpos (digits2_pos m) - 1) <= Zpos m.
Proof.
  induction m as [m IH|m IH|]; cbn [digits2_pos].
  - rewrite Pos2Z.inj_succ.
    replace (Z.succ (Zpos (digits2_pos m)) - 1)
      with (Z.succ (Zpos (digits2_pos m) - 1)) by lia.
    rewrite Z.pow_succ_r by lia. lia.
  - rewrite Pos2Z.inj_succ.
    replace (Z.succ (Zpos (digits2_pos m)) - 1)
      with (Z.succ (Zpos (digits2_pos m) - 1)) by lia.
    rewrite Z.pow_succ_r by lia. lia.
  - discriminate.
Qed.

Lemma digits2_unique (m : positive) (d : Z) :
  2 ^ (d - 1) <= Zpos m < 2 ^ d -> Zpos (digits2_pos m) = d.
Proof.
  intros [Hlo Hhi].
  pose proof (digits2_upper m) as Hu. pose proof (digits2_lower m) as Hl.
  assert (Hd : 0 < d).
  { destruct (Z_lt_le_dec 0 d) as [|Hn]; [assumption|].
    destruct d; [simpl in Hhi; lia | lia |].
    rewrite Z.pow_neg_r in Hhi by lia. lia. }
  destruct (Z_lt_le_dec (Zpos (digits2_pos m)) d) as [Hlt|Hge].
  - assert (2 ^ Zpos (digits2_pos m) <= 2 ^ (d - 1))
      by (apply Z.pow_le_mono_r; lia).
    lia.
  - destruct (Z_lt_le_dec d (Zpos (digits2_pos m))) as [Hlt|Hle]; [|lia].
    assert (2 ^ d <= 2 ^ (Zpos (digits2_pos m) - 1))
      by (apply Z.pow_le_mono_r; lia).
    lia.
Qed.

(** A canonical finite double: the mantissa has at most 53 bits, and exactly
    53 above the smallest exponent. *)
Lemma valid_finite (s : bool) (m : positive) (e : Z) :
  Double.valid (S754_finite s m e) = true ->
  Zpos m < 2 ^ 53 /\ -1074 <= e <= 971 /\ (-1074 < e -> 2 ^ 52 <= Zpos m).
Proof.
  unfold Double.valid, valid_binary, bounded, canonical_mantissa, fexp, emin,
    Double.prec, Double.emax.
  rewrite andb_true_iff, Z.eqb_eq, Z.leb_le. intros [Hc He].
  pose proof (digits2_upper m) as Hu. pose proof (digits2_lower m) as Hl.
  assert (Hd : Zpos (digits2_pos m) <= 53) by lia.
  assert (Hp : 2 ^ Zpos (digits2_pos m) <= 2 ^ 53)
    by (apply Z.pow_le_mono_r; lia).
  split; [lia|]. split; [lia|].
  intro Hn. assert (Ed : Zpos (digits2_pos m) = 53) by lia.
  rewrite Ed in Hl. exact Hl.
Qed.

Lemma compare_cont_Eq (a b : positive) :
  Pos.compare_cont Eq a b = (Zpos a ?= Zpos b).
Proof. reflexivity. Qed.

(** The comparison of two doubles is the comparison of their ranks. *)
Lemma compare_rank (a b : Double.number) :
  Double.valid a = true -> Double.valid b = true ->
  Double.isNaN a = false -> Double.isNaN b = false ->
  SFcompare a b = Some (Double.rank a ?= Double.rank b).
Proof.
  intros Ha Hb Na Nb.
  destruct a as [sa|sa| |sa ma ea]; try discriminate;
    destruct b as [sb|sb| |sb mb eb]; try discriminate.
  all: try (apply valid_finite in Ha; destruct Ha as (Ha1 & Ha2 & _)).
  all: try (apply valid_finite in Hb; destruct Hb as (Hb1 & Hb2 & _)).
  all: cbn [SFcompare Double.rank]; f_equal; symmetry.
  all: try destruct sa; try destruct sb.
  all: change (2 ^ 53) with 9007199254740992 in *.
  all: try reflexivity.
  all: try (apply Z.compare_lt_iff; lia).
  all: try (apply Z.compare_gt_iff; lia).
  all: rewrite compare_cont_Eq.
  all: destruct (Z.compare_spec ea eb) as [E|E|E];
       destruct (Z.compare_spec (Zpos ma) (Zpos mb)) as [E'|E'|E']; cbn [CompOpp].
  all: try (apply Z.compare_lt_iff; lia).
  all: try (apply Z.compare_gt_iff; lia).
  all: try (apply Z.compare_eq_iff; lia).
Qed.

(** One right shift halves the mantissa. *)
Lemma shr_1_m (mrs : shr_record) :
  0 <= shr_m mrs -> shr_m (shr_1 mrs) = shr_m mrs / 2.
Proof.
  destruct mrs as [m r s]. cbn [shr_m]. intro Hm.
  destruct m as [|p|p]; [reflexivity | | lia].
  destruct p as [p|p|]; cbn [shr_1 shr_m].
  - rewrite Pos2Z.inj_xI. apply Z.div_unique with 1; lia.
  - rewrite Pos2Z.inj_xO. apply Z.div_unique with 0; lia.
  - reflexivity.
Qed.

(** [p] right shifts divide the mantissa by 2^p. *)
Lemma iter_shr_m (p : positive) (mrs : shr_record) :
  0 <= shr_m mrs ->
  shr_m (iter_pos shr_1 p mrs) = shr_m mrs / 2 ^ Zpos p.
Proof.
  revert mrs. induction p as [p IH|p IH|]; intros mrs Hm; cbn [iter_pos].
  - assert (H1 : 0 <= shr_m (shr_1 mrs)).
    { rewrite shr_1_m by exact Hm. apply Z.div_pos; lia. }
    assert (H2 : 0 <= shr_m (iter_pos shr_1 p (shr_1 mrs))).
    { rewrite IH by exact H1. apply Z.div_pos; [exact H1 | lia]. }
    rewrite IH by exact H2. rewrite IH by exact H1. rewrite shr_1_m by exact Hm.
    assert (Hp : 0 < 2 ^ Zpos p) by (apply Z.pow_pos_nonneg; lia).
    rewrite !Z.div_div by lia. f_equal.
    replace (Zpos p~1) with (1 + (Zpos p + Zpos p)) by lia.
    rewrite !Z.pow_add_r by lia. reflexivity.
  - assert (H2 : 0 <= shr_m (iter_pos shr_1 p mrs)).
    { rewrite IH by exact Hm. apply Z.div_pos; [exact Hm | lia]. }
    rewrite IH by exact H2. rewrite IH by exact Hm.
    assert (Hp : 0 < 2 ^ Zpos p) by (apply Z.pow_pos_nonneg; lia).
    rewrite !Z.div_div by lia. f_equal.
    replace (Zpos p~0) with (Zpos p + Zpos p) by lia.
    rewrite !Z.pow_add_r by lia. reflexivity.
  - rewrite shr_1_m by exact Hm. reflexivity.
Qed.

Lemma round_nearest_even_choice (q : Z) (l : location) :
  round_nearest_even q l = q \/ round_nearest_even q l = q + 1.
Proof.
  destruct l as [|[| |]]; cbn; try (now left); try (now right).
  destruct (Z.even q); [now left | now right].
Qed.

(** Rounding an exact product of more than 53 bits in the normal range: the
    result is the truncated mantissa or its successor, at the exponent of the
    truncation or, after a carry, one above. *)
Lemma binary_round_aux_normal (P : positive) (E : Z) :
  let d := Zpos (digits2_pos P) in
  let n := d - 53 in
  let q := Zpos P / 2 ^ n in
  53 < d -> -1074 <= E + n -> E + n < 971 ->
  exists (M : positive) (e' : Z),
    binary_round_aux 53 1024 false (Zpos P) E loc_Exact
    = S754_finite false M e' /\
    2 ^ 52 <= Zpos M < 2 ^ 53 /\
    ((e' = E + n /\ (Zpos M = q \/ Zpos M = q + 1)) \/
     (e' = E + n + 1 /\ 2 * Zpos M = q + 1)).
Proof.
  cbv zeta. intros Hd Hlo Hhi.
  pose proof (digits2_upper P) as Hu. pose proof (digits2_lower P) as Hl.
  set (d := Zpos (digits2_pos P)) in *.
  unfold binary_round_aux, shr_fexp, fexp, emin. cbn [Zdigits2]. fold d.
  replace (Z.max (d + E - 53) (3 - 1024 - 53) - E) with (d - 53) by lia.
  destruct (d - 53) as [|p|p] eqn:En; [lia| |lia].
  cbn [shr shr_record_of_loc].
  set (mrs := iter_pos shr_1 p
                {| shr_m := Zpos P; shr_r := false; shr_s := false |}).
  assert (Eq : shr_m mrs = Zpos P / 2 ^ Zpos p).
  { unfold mrs. rewrite iter_shr_m; [reflexivity | cbn; lia]. }
  set (q := Zpos P / 2 ^ Zpos p) in *.
  assert (Hpow : 2 ^ (d - 1) = 2 ^ 52 * 2 ^ Zpos p).
  { replace (d - 1) with (52 + Zpos p) by lia. apply Z.pow_add_r; lia. }
  assert (Hpow' : 2 ^ d = 2 ^ 53 * 2 ^ Zpos p).
  { replace d with (53 + Zpos p) at 1 by lia. apply Z.pow_add_r; lia. }
  assert (Hp0 : 0 < 2 ^ Zpos p) by (apply Z.pow_pos_nonneg; lia).
  assert (Hq : 2 ^ 52 <= q < 2 ^ 53).
  { unfold q. split.
    - apply Z.div_le_lower_bound; [exact Hp0|]. lia.
    - apply Z.div_lt_upper_bound; [exact Hp0|]. lia. }
  rewrite Eq.
  destruct (round_nearest_even_choice q (loc_of_shr_record mrs)) as [Er|Er];
    rewrite Er.
  - (* no carry *)
    change (2 ^ 52) with 4503599627370496 in *.
    change (2 ^ 53) with 9007199254740992 in *.
    destruct q as [|M|M] eqn:EM; [lia| |lia].
    cbn [Zdigits2].
    rewrite (digits2_unique M 53)
      by (change (2 ^ (53 - 1)) with 4503599627370496;
          change (2 ^ 53) with 9007199254740992; lia).
    replace (Z.max (53 + (E + Zpos p) - 53) (3 - 1024 - 53) - (E + Zpos p))
      with 0 by lia.
    cbn [shr shr_m].
    assert (Ele : (E + Zpos p <=? 1024 - 53) = true) by (apply Z.leb_le; lia).
    rewrite Ele. exists M, (E + Zpos p).
    split; [reflexivity|]. split; [lia|]. left. split; [reflexivity|]. now left.
  - change (2 ^ 52) with 4503599627370496 in *.
    change (2 ^ 53) with 9007199254740992 in *.
    destruct (Z_lt_le_dec (q + 1) 9007199254740992) as [Hlt|Hge].
    + destruct (q + 1) as [|M|M] eqn:EM; [lia| |lia].
      cbn [Zdigits2].
      rewrite (digits2_unique M 53)
      by (change (2 ^ (53 - 1)) with 4503599627370496;
          change (2 ^ 53) with 9007199254740992; lia).
      replace (Z.max (53 + (E + Zpos p) - 53) (3 - 1024 - 53) - (E + Zpos p))
      with 0 by lia.
      cbn [shr shr_m].
      assert (Ele : (E + Zpos p <=? 1024 - 53) = true) by (apply Z.leb_le; lia).
      rewrite Ele. exists M, (E + Zpos p).
      split; [reflexivity|]. split; [lia|]. left. split; [reflexivity|]. now right.
    + assert (E1 : q + 1 = 9007199254740992) by lia.
      rewrite E1. cbn [Zdigits2].
      change (Zpos (digits2_pos 9007199254740992)) with 54.
      replace (Z.max (54 + (E + Zpos p) - 53) (3 - 1024 - 53) - (E + Zpos p))
        with 1 by lia.
      cbn [shr shr_record_of_loc iter_pos shr_1 shr_m].
      assert (Ele : (E + Zpos p + 1 <=? 1024 - 53) = true) by (apply Z.leb_le; lia).
      rewrite Ele. exists 4503599627370496%positive, (E + Zpos p + 1).
      split; [reflexivity|]. split; [lia|]. right. split; [reflexivity|]. lia.
Qed.

(** [Math.round] of a positive double with a negative exponent. *)
Lemma Qpower_2_neg (k : positive) : (2 ^ Zneg k == / inject_Z (2 ^ Zpos k))%Q.
Proof.
  unfold Qpower. change 2%Q with (2 # 1)%Q.
  rewrite Qpower_decomp_positive. apply Qinv_comp.
  unfold Qeq, inject_Z. cbn [Qnum Qden].
  rewrite Pos2Z.inj_pow, Z.pow_1_l by lia. reflexivity.
Qed.

Lemma round_scaled (M k : positive) :
  Double.round (S754_finite false M (Zneg k))
  = Double.Finite ((2 * Zpos M + 2 ^ Zpos k) / (2 * 2 ^ Zpos k)).
Proof.
  unfold Double.round, Double.toQ. f_equal.
  rewrite Zdiv_Qdiv. apply Qfloor_comp.
  rewrite Qpower_2_neg, !inject_Z_plus, !inject_Z_mult.
  assert (Hk : ~ (inject_Z (2 ^ Zpos k) == 0)%Q).
  { change 0%Q with (inject_Z 0). rewrite inject_Z_injective.
    pose proof (Z.pow_pos_nonneg 2 (Zpos k)). lia. }
  change (inject_Z 2) with 2%Q. field. exact Hk.
Qed.

Lemma ofZ_255 : Double.ofZ 255 = S754_finite false 8972014882652160 (-45).
Proof. reflexivity. Qed.

(** The product of a double between 0.20 and 0.30 with 255, rounded to a
    double and then to an integer, lies between 51 and 77. *)
Lemma edge_alpha_range (c : Double.number) :
  Double.valid c = true -> Double.isNaN c = false ->
  Double.rank (Double.decimal 20 100) <= Double.rank c <= Double.rank (Double.decimal 30 100) ->
  exists alpha,
    Double.round (Double.mul c (Double.ofZ 255)) = Double.Finite alpha /\ 51 <= alpha <= 77.
Proof.
  intros Hv Hn Hr.
  change (Double.rank (Double.decimal 20 100)) with 9185541799984863642 in Hr.
  change (Double.rank (Double.decimal 30 100)) with 9192747559388656435 in Hr.
  destruct c as [s|s| |s m e]; try discriminate.
  - cbn in Hr. lia.
  - cbn in Hr. destruct s; lia.
  - apply valid_finite in Hv. destruct Hv as (Hm & He & Hnorm).
    cbn [Double.rank] in Hr. change (2 ^ 53) with 9007199254740992 in *.
    change (2 ^ 52) with 4503599627370496 in *.
    destruct s; [lia|].
    assert (Ee : e = -55 \/ e = -54) by lia.
    specialize (Hnorm ltac:(lia)).
    rewrite ofZ_255. unfold Double.mul. cbn [SFmul xorb].
    fold Double.prec. unfold Double.prec, Double.emax.
    set (P := (m * 8972014882652160)%positive).
    assert (EP : Zpos P = Zpos m * 8972014882652160) by reflexivity.
    pose proof (binary_round_aux_normal P (e + -45)) as Hround.
    cbv zeta in Hround.
    assert (Hd : Zpos (digits2_pos P) = 105 \/ Zpos (digits2_pos P) = 106).
    { destruct (Z_lt_le_dec (Zpos P) (2 ^ 105)) as [Hlt|Hge].
      - left. apply digits2_unique.
        change (2 ^ (105 - 1)) with 20282409603651670423947251286016.
        change (2 ^ 105) with 40564819207303340847894502572032 in *. lia.
      - right. apply digits2_unique.
        change (2 ^ (106 - 1)) with 40564819207303340847894502572032.
        change (2 ^ 105) with 40564819207303340847894502572032 in *.
        change (2 ^ 106) with 81129638414606681695789005144064. lia. }
    pose proof (digits2_upper P) as Hup. pose proof (digits2_lower P) as Hdown.
    destruct Ee as [-> | ->]; destruct Hd as [Ed|Ed];
      rewrite Ed in Hround, Hup, Hdown.
    all: destruct Hround as (M & e' & -> & HM & Hcase); [lia|lia|lia|].
    all: change (2 ^ 52) with 4503599627370496 in *.
    all: change (2 ^ 53) with 9007199254740992 in *.
    all: change (2 ^ 105) with 40564819207303340847894502572032 in *.
    all: change (2 ^ 106) with 81129638414606681695789005144064 in *.
    all: change (2 ^ (105 - 1)) with 20282409603651670423947251286016 in *.
    all: change (2 ^ (106 - 1)) with 40564819207303340847894502572032 in *.
    all: change (2 ^ (105 - 53)) with 4503599627370496 in *.
    all: change (2 ^ (106 - 53)) with 9007199254740992 in *.
    all: cbn in Hcase.
    all: destruct Hcase as [[-> HMq] | [-> HMq]]; rewrite round_scaled;
      eexists; (split; [reflexivity|]).
    all: match goal with
         | |- context [2 ^ Zpos ?k] =>
             let v := eval vm_compute in (2 ^ Zpos k) in
             change (2 ^ Zpos k) with v
         end.
    all: Z.div_mod_to_equations; lia.
Qed.

(** Two doubles of the same rank other than 0 are the same double. *)
Lemma rank_inj (a b : Double.number) :
  Double.valid a = true -> Double.valid b = true ->
  Double.isNaN a = false -> Double.isNaN b = false ->
  Double.rank a = Double.rank b -> Double.rank a <> 0 -> a = b.
Proof.
  intros Ha Hb Na Nb.
  destruct a as [sa|sa| |sa ma ea]; try discriminate;
    destruct b as [sb|sb| |sb mb eb]; try discriminate.
  all: try (apply valid_finite in Ha; destruct Ha as (Ha1 & Ha2 & _)).
  all: try (apply valid_finite in Hb; destruct Hb as (Hb1 & Hb2 & _)).
  all: cbn [Double.rank]; change (2 ^ 53) with 9007199254740992 in *.
  all: try destruct sa; try destruct sb; intros E Hnz; try lia;
    try reflexivity.
  all: assert (ea = eb) by lia; subst eb.
  all: assert (Em : Zpos ma = Zpos mb) by lia; injection Em as ->; reflexivity.
Qed.

(** [Math.max] and [Math.min] of two doubles that are not both zero. *)
Lemma valid_nonzero_cases (a b : Double.number) :
  Double.valid a = true -> Double.valid b = true ->
  Double.isNaN a = false -> Double.isNaN b = false ->
  Double.rank a <> 0 \/ Double.rank b <> 0 ->
  (Double.rank a < Double.rank b /\ Double.max a b = b /\ Double.min a b = a) \/
  (Double.rank b < Double.rank a /\ Double.max a b = a /\ Double.min a b = b) \/
  (a = b /\ Double.max a b = a /\ Double.min a b = a).
Proof.
  intros Ha Hb Na Nb Hnz. unfold Double.max, Double.min.
  rewrite (compare_rank a b Ha Hb Na Nb).
  destruct (Z.compare_spec (Double.rank a) (Double.rank b)) as [E|E|E].
  - right. right.
    assert (Ea : Double.rank a <> 0) by lia.
    rewrite (rank_inj a b Ha Hb Na Nb E Ea) in *.
    destruct b as [s|s| |s m e]; try discriminate; try (now repeat split).
  - left. now repeat split.
  - right. left. now repeat split.
Qed.

Lemma le_rank (a b : Double.number) :
  Double.valid a = true -> Double.valid b = true ->
  Double.isNaN a = false -> Double.isNaN b = false ->
  Double.le a b = (Double.rank a <=? Double.rank b).
Proof.
  intros Ha Hb Na Nb. unfold Double.le, SFleb.
  rewrite (compare_rank a b Ha Hb Na Nb).
  destruct (Z.compare_spec (Double.rank a) (Double.rank b)); symmetry;
    [apply Z.leb_le | apply Z.leb_le | apply Z.leb_gt]; lia.
Qed.


(** The clamp of the code, [max(lo, min(hi, v))], and the clamp of the
    text, [min(hi, max(lo, v))], are the same double for positive bounds
    [lo < hi] and every [v] other than NaN: it is [lo], [hi] or [v]. *)
Lemma clamp_cases (lo hi v : Double.number) :
  Double.valid lo = true -> Double.valid hi = true -> Double.valid v = true ->
  Double.isNaN lo = false -> Double.isNaN hi = false -> Double.isNaN v = false ->
  0 < Double.rank lo < Double.rank hi ->
  let c := Double.max lo (Double.min hi v) in
  c = Double.min hi (Double.max lo v) /\
  ((Double.rank v <= Double.rank lo /\ c = lo) \/
   (Double.rank hi <= Double.rank v /\ c = hi) \/
   (Double.rank lo <= Double.rank v <= Double.rank hi /\ c = v)).
Proof.
  intros Vlo Vhi Vv Nlo Nhi Nv Hr. cbv zeta.
  destruct (valid_nonzero_cases hi v Vhi Vv Nhi Nv ltac:(lia))
    as [(H1 & _ & ->) | [(H1 & _ & ->) | (E1 & _ & ->)]];
  destruct (valid_nonzero_cases lo v Vlo Vv Nlo Nv ltac:(lia))
    as [(H2 & -> & _) | [(H2 & -> & _) | (E2 & -> & _)]];
  try subst v; try lia.
  all: repeat match goal with
       | |- context [Double.max ?a ?b] =>
           destruct (valid_nonzero_cases a b ltac:(assumption) ltac:(assumption)
                       ltac:(assumption) ltac:(assumption) ltac:(lia))
             as [(? & -> & _) | [(? & -> & _) | (? & -> & _)]]
       | |- context [Double.min ?a ?b] =>
           destruct (valid_nonzero_cases a b ltac:(assumption) ltac:(assumption)
                       ltac:(assumption) ltac:(assumption) ltac:(lia))
             as [(? & _ & ->) | [(? & _ & ->) | (? & _ & ->)]]
       end; try lia; try subst.
  all: split; [reflexivity|].
  all: first [ left; split; [lia | reflexivity]
             | right; left; split; [lia | reflexivity]
             | right; right; split; [lia | reflexivity] ].
Qed.

(** ** Vignette gradient *)

(** A value between 16 and 255 is written with two hexadecimal digits, so
    [padStart] adds nothing. *)
Lemma toString16_two_digits (n : Z) :
  16 <= n <= 255 -> Str.padStart 2 "0" (Str.toString16 n) = hex2 n.
Proof.
  intro Hn. unfold Str.toString16.
  destruct (n <? 0) eqn:Eneg; [apply Z.ltb_lt in Eneg; lia|].
  destruct (Z.to_nat n) as [|fuel] eqn:Efuel; [lia|].
  cbn [Str.hexDigits].
  destruct (n / 16 =? 0) eqn:E0.
  { apply Z.eqb_eq in E0. pose proof (Z.div_le_lower_bound n 16 1). lia. }
  destruct ((n / 16) / 16 =? 0) eqn:E1.
  - unfold hex2, Str.padStart. cbn [String.length Nat.sub Str.repeatChar].
    rewrite (Z.mod_small (n / 16) 16); [reflexivity|].
    split; [apply Z.div_pos; lia | apply Z.div_lt_upper_bound; lia].
  - apply Z.eqb_neq in E1. exfalso. apply E1. apply Z.div_small.
    split; [apply Z.div_pos; lia | apply Z.div_lt_upper_bound; lia].
Qed.

(** The clamped opacity of an opacity other than NaN: it is the double that
    the clamp of the text gives, a canonical double between 0.20 and 0.30. *)
Lemma clampedOpacity_spec (opacity : Double.number) :
  Double.valid opacity = true -> Double.isNaN opacity = false ->
  let c := clampedOpacity opacity in
  c = clampToDouble (Double.decimal 20 100) (Double.decimal 30 100) opacity /\
  Double.valid c = true /\ Double.isNaN c = false /\
  Double.rank (Double.decimal 20 100) <= Double.rank c
    <= Double.rank (Double.decimal 30 100) /\
  Double.rank c
  = Z.max (Double.rank (Double.decimal 20 100))
          (Z.min (Double.rank (Double.decimal 30 100)) (Double.rank opacity)) /\
  (Double.rank (Double.decimal 20 100) <= Double.rank opacity
     <= Double.rank (Double.decimal 30 100) -> c = opacity).
Proof.
  intros Hv Hn. cbv zeta. unfold clampedOpacity, clampToDouble.
  destruct (clamp_cases MIN_OPACITY MAX_OPACITY opacity
              eq_refl eq_refl Hv eq_refl eq_refl Hn
              ltac:(vm_compute; split; reflexivity)) as (Eorder & Hcases).
  fold MIN_OPACITY MAX_OPACITY. rewrite <- Eorder.
  split; [reflexivity|].
  assert (Hlohi : Double.rank MIN_OPACITY < Double.rank MAX_OPACITY)
    by (vm_compute; reflexivity).
  destruct Hcases as [(Hr & ->) | [(Hr & ->) | (Hr & ->)]].
  - split; [reflexivity|]. split; [reflexivity|]. split; [lia|].
    split; [lia|]. intro Hin. apply rank_inj; try reflexivity; try assumption.
    + lia.
    + vm_compute. discriminate.
  - split; [reflexivity|]. split; [reflexivity|]. split; [lia|].
    split; [lia|]. intro Hin. apply rank_inj; try reflexivity; try assumption.
    + lia.
    + vm_compute. discriminate.
  - split; [exact Hv|]. split; [exact Hn|]. split; [exact Hr|].
    split; [lia|]. reflexivity.
Qed.




(** ** Blur service *)


(** The clamped radius of a radius other than NaN: it is the double that
    the clamp of the text gives, a canonical double between 8 and 15. *)
Lemma clampedRadius_spec (radius : Double.number) :
  Double.valid radius = true -> Double.isNaN radius = false ->
  let c := clampedRadius radius in
  c = clampToDouble (Double.ofZ 8) (Double.ofZ 15) radius /\
  Double.valid c = true /\ Double.isNaN c = false /\
  Double.rank (Double.ofZ 8) <= Double.rank c <= Double.rank (Double.ofZ 15) /\
  Double.rank c
  = Z.max (Double.rank (Double.ofZ 8))
          (Z.min (Double.rank (Double.ofZ 15)) (Double.rank radius)) /\
  (Double.rank radius <= Double.rank (Double.ofZ 8) -> c = Double.ofZ 8) /\
  (Double.rank (Double.ofZ 15) <= Double.rank radius -> c = Double.ofZ 15) /\
  (Double.rank (Double.ofZ 8) <= Double.rank radius
     <= Double.rank (Double.ofZ 15) -> c = radius).
Proof.
  intros Hv Hn. cbv zeta. unfold clampedRadius, clampToDouble.
  destruct (clamp_cases MIN_BLUR_RADIUS MAX_BLUR_RADIUS radius
              eq_refl eq_refl Hv eq_refl eq_refl Hn
              ltac:(vm_compute; split; reflexivity)) as (Eorder & Hcases).
  fold MIN_BLUR_RADIUS MAX_BLUR_RADIUS. rewrite <- Eorder.
  split; [reflexivity|].
  assert (Hlohi : Double.rank MIN_BLUR_RADIUS < Double.rank MAX_BLUR_RADIUS)
    by (vm_compute; reflexivity).
  assert (Hpos : 0 < Double.rank MIN_BLUR_RADIUS) by (vm_compute; reflexivity).
  assert (Hinj : forall a b : Double.number,
            Double.valid a = true -> Double.valid b = true ->
            Double.isNaN a = false -> Double.isNaN b = false ->
            Double.rank a = Double.rank b -> 0 < Double.rank a -> a = b).
  { intros a b Va Vb Na Nb E Hp. apply rank_inj; try assumption. lia. }
  destruct Hcases as [(Hr & ->) | [(Hr & ->) | (Hr & ->)]].
  - split; [reflexivity|]. split; [reflexivity|]. split; [lia|].
    split; [lia|]. split; [reflexivity|].
    split; [intro; lia|]. intro Hin. apply Hinj; try reflexivity; try assumption; lia.
  - split; [reflexivity|]. split; [reflexivity|]. split; [lia|].
    split; [lia|]. split; [intro; lia|]. split; [reflexivity|].
    intro Hin. apply Hinj; try reflexivity; try assumption; lia.
  - split; [exact Hv|]. split; [exact Hn|]. split; [exact Hr|].
    split; [lia|].
    split; [intro; symmetry; apply Hinj; try reflexivity; try assumption; lia|].
    split; [intro; symmetry; apply Hinj; try reflexivity; try assumption; lia|].
    reflexivity.
Qed.




(** ** Layer order *)

Section LayerOrder.

Context {H : Host}.

(** Drawing a list of layers and then one more is drawing the longer list:
    the entry at the end of the array is blended last. *)
Lemma composite_snoc (base final : Buffer) (before : list (Layer Buffer))
    (l : Layer Buffer) :
  composite base (before ++ [l]) = Ok final <->
  exists canvas, composite base before = Ok canvas /\ draw canvas l = Ok final.
Proof.
  revert base. induction before as [|l0 before IH]; intro base; cbn.
  - unfold bind. split.
    + intro Hd. exists base. split; [reflexivity|].
      destruct (draw base l); [exact Hd | discriminate].
    + intros (canvas & Hc & Hd). injection Hc as <-. now rewrite Hd.
  - unfold bind. destruct (draw base l0) as [canvas0|e].
    + apply IH.
    + split; [discriminate | intros (canvas & Hc & _); discriminate].
Qed.

End LayerOrder.

(** ** Contextual pipeline *)

(** C5.  In [compositeContextualThumbnail] a reflection layer is added
    exactly when [pedestal.hasReflection] holds, the pedestal position is
    center-bottom and the reflection chain succeeds; its top is
    min(720 - 50, y + height) = min(670, y + height) and its left is the x of
    the subject.  When the reflection chain is rejected the layer is left out
    and the call still succeeds with [composited = true]; a rejection of any
    other step rejects the call with the same error. *)
Theorem C5_reflection_layer
    (H : Host) (backgroundBase64 cutoutBase64 : string)
    (sceneDesign : SceneDesign) :
  let run := compositeContextualThumbnail backgroundBase64 cutoutBase64 sceneDesign in
  let cutoutBuffer := fromBase64 cutoutBase64 in
  let backgroundBuffer := fromBase64 backgroundBase64 in
  let ped := pedestal sceneDesign in
  let shadow := getShadowFromDesign sceneDesign in
  let sigma := JS.max (inject_Z (blur shadow)) (3 # 10) in
  (forall e, metadata cutoutBuffer = Err e -> run = Err e) /\
  (forall md, metadata cutoutBuffer = Ok md ->
   let position := contextualPosition sceneDesign md in
   (forall e,
      resize cutoutBuffer (width position) (height position) contain = Err e ->
      run = Err e) /\
   (forall resizedCutout,
      resize cutoutBuffer (width position) (height position) contain
        = Ok resizedCutout ->
    (forall e,
       silhouette resizedCutout 0 sigma (opacity shadow) = Err e ->
       run = Err e) /\
    (forall shadowBuffer,
       silhouette resizedCutout 0 sigma (opacity shadow) = Ok shadowBuffer ->
     (forall e,
        resize backgroundBuffer THUMBNAIL_WIDTH THUMBNAIL_HEIGHT cover = Err e ->
        run = Err e) /\
     (forall resizedBackground,
        resize backgroundBuffer THUMBNAIL_WIDTH THUMBNAIL_HEIGHT cover
          = Ok resizedBackground ->
      let layers :=
        compositeInputs ped position shadow shadowBuffer resizedCutout in
      let shadowL := shadowLayer shadowBuffer shadow position in
      let cutoutL := layerAt resizedCutout (y position) (x position) in
      let reflectionTop :=
        Z.min (THUMBNAIL_HEIGHT - 50) (y position + height position) in
      reflectionTop = Z.min 670 (y position + height position) /\
      reflectionTop <= THUMBNAIL_HEIGHT - 50 /\
      (forall reflectionBuffer,
         hasReflection ped = true -> p_position ped = center_bottom ->
         flipped resizedCutout (3 # 10) 3 (3 # 10) = Ok reflectionBuffer ->
         layers = [shadowL;
                   layerAt reflectionBuffer reflectionTop (x position);
                   cutoutL]) /\
      (hasReflection ped = false \/ p_position ped <> center_bottom \/
       (exists e, flipped resizedCutout (3 # 10) 3 (3 # 10) = Err e) ->
       layers = [shadowL; cutoutL]) /\
      (forall e, composite resizedBackground layers = Err e -> run = Err e) /\
      (forall final,
         composite resizedBackground layers = Ok final ->
         run = Ok {| imageBase64 := toBase64 final; composited := true;
                     cc_position := position |}))))).
Proof.
  cbv zeta. unfold compositeContextualThumbnail, contextualPosition.
  split; [intros e He; now rewrite He|].
  intros md Hmd. rewrite Hmd. cbn [bind].
  split; [intros e He; now rewrite He|].
  intros resizedCutout Hrc. rewrite Hrc. cbn [bind].
  split; [intros e He; now rewrite He|].
  intros shadowBuffer Hsb. rewrite Hsb. cbn [bind].
  split; [intros e He; now rewrite He|].
  intros resizedBackground Hrb. rewrite Hrb. cbn [bind].
  split; [reflexivity|]. split; [unfold THUMBNAIL_HEIGHT; lia|].
  split; [|split; [|split]].
  - intros reflectionBuffer Hrefl Hpos Hflip.
    unfold compositeInputs. rewrite Hrefl, Hpos, Hflip. reflexivity.
  - intros Hno. unfold compositeInputs.
    destruct (hasReflection (pedestal sceneDesign)) eqn:Erefl;
      [|reflexivity].
    destruct (PedestalPosition_eqb (p_position (pedestal sceneDesign))
                                   center_bottom) eqn:Epos; [|reflexivity].
    apply PedestalPosition_eqb_eq in Epos.
    destruct Hno as [Hno | [Hno | (e & Hno)]];
      [discriminate | contradiction | rewrite Hno; reflexivity].
  - intros e He. now rewrite He.
  - intros final Hfinal. now rewrite Hfinal.
Qed.

Lemma C5_reflection_layer_witness :
  @compositeContextualThumbnail (Symbolic.host false) "bg" "cut" Symbolic.scene
  = Ok {| imageBase64 := "resize(bg) <- shadow(resize(cut)) <- resize(cut)";
          composited := true;
          cc_position := {| x := 436; y := 20; width := 408; height := 612 |} |}.
Proof.
  pose proof (C5_reflection_layer (Symbolic.host false) "bg" "cut" Symbolic.scene)
    as Hthm.
  cbv zeta in Hthm. destruct Hthm as [_ Hthm].
  specialize (Hthm _ eq_refl). destruct Hthm as [_ Hthm].
  specialize (Hthm _ eq_refl). destruct Hthm as [_ Hthm].
  specialize (Hthm _ eq_refl). destruct Hthm as [_ Hthm].
  specialize (Hthm _ eq_refl).
  destruct Hthm as (_ & _ & _ & _ & _ & Hthm).
  apply (Hthm "resize(bg) <- shadow(resize(cut)) <- resize(cut)"%string).
  reflexivity.
Defined.

(** ** Order of the layers in the three pipelines *)

(** C6.  Every pipeline gives [composite] the layers in the order shadow (if
    any), reflection (if any), cutout, and [composite] blends them in that
    order onto the resized background.  A run is fulfilled exactly when
    every step of the following trace succeeds, and its image is the result
    of the last drawing step, which draws the resized cutout at the position
    that is returned.
    - Flat pipeline: the silhouette of the resized cutout is drawn on the
      background resized to 1280x720, then the cutout on the result.
    - Contextual pipeline: the silhouette is drawn on the resized
      background; when the pedestal reflects, the position is center-bottom
      and the reflection chain succeeds, the flipped cutout is drawn next;
      then the cutout.
    - Lifestyle pipeline: there is neither shadow nor reflection; the cutout
      is drawn on the resized background after its blur and vignette. *)
Theorem C6_cutout_drawn_last (H : Host) :
  (forall base before last final,
     composite base (before ++ [last]) = Ok final <->
     exists canvas, composite base before = Ok canvas /\
                    draw canvas last = Ok final) /\
  (forall backgroundBase64 cutoutBase64 category res,
     compositeProductOnBackground backgroundBase64 cutoutBase64 category = Ok res <->
     exists md resizedCutout shadowBuffer resizedBackground canvas final,
       let position := flatPosition md in
       let shadow := getShadowSettings category in
       let layers := [ shadowLayer shadowBuffer shadow position;
                       layerAt resizedCutout (y position) (x position) ] in
       metadata (fromBase64 cutoutBase64) = Ok md /\
       resize (fromBase64 cutoutBase64) (width position) (height position) contain
         = Ok resizedCutout /\
       silhouette resizedCutout 0 (JS.max (inject_Z (blur shadow)) (3 # 10))
                  (opacity shadow) = Ok shadowBuffer /\
       resize (fromBase64 backgroundBase64) THUMBNAIL_WIDTH THUMBNAIL_HEIGHT cover
         = Ok resizedBackground /\
       composite resizedBackground layers = Ok final /\
       draw resizedBackground (shadowLayer shadowBuffer shadow position)
         = Ok canvas /\
       draw canvas (layerAt resizedCutout (y position) (x position)) = Ok final /\
       res = {| cr_imageBase64 := toBase64 final; cr_composited := true |}) /\
  (forall backgroundBase64 cutoutBase64 sceneDesign res,
     compositeContextualThumbnail backgroundBase64 cutoutBase64 sceneDesign = Ok res <->
     exists md resizedCutout shadowBuffer resizedBackground canvas canvas' final,
       let position := contextualPosition sceneDesign md in
       let shadow := getShadowFromDesign sceneDesign in
       let ped := pedestal sceneDesign in
       let layers :=
         compositeInputs ped position shadow shadowBuffer resizedCutout in
       let shadowL := shadowLayer shadowBuffer shadow position in
       let cutoutL := layerAt resizedCutout (y position) (x position) in
       metadata (fromBase64 cutoutBase64) = Ok md /\
       resize (fromBase64 cutoutBase64) (width position) (height position) contain
         = Ok resizedCutout /\
       silhouette resizedCutout 0 (JS.max (inject_Z (blur shadow)) (3 # 10))
                  (opacity shadow) = Ok shadowBuffer /\
       resize (fromBase64 backgroundBase64) THUMBNAIL_WIDTH THUMBNAIL_HEIGHT cover
         = Ok resizedBackground /\
       composite resizedBackground layers = Ok final /\
       draw resizedBackground shadowL = Ok canvas /\
       ((hasReflection ped = true /\ p_position ped = center_bottom /\
         exists reflectionBuffer,
           let reflectionL :=
             layerAt reflectionBuffer
                     (Z.min (THUMBNAIL_HEIGHT - 50) (y position + height position))
                     (x position) in
           flipped resizedCutout (3 # 10) 3 (3 # 10) = Ok reflectionBuffer /\
           layers = [shadowL; reflectionL; cutoutL] /\
           draw canvas reflectionL = Ok canvas') \/
        ((hasReflection ped = false \/ p_position ped <> center_bottom \/
          exists e, flipped resizedCutout (3 # 10) 3 (3 # 10) = Err e) /\
         layers = [shadowL; cutoutL] /\ canvas' = canvas)) /\
       draw canvas' cutoutL = Ok final /\
       res = {| imageBase64 := toBase64 final; composited := true;
                cc_position := position |}) /\
  (forall backgroundBuffer cutoutBuffer options res,
     compositeLifestyleThumbnail backgroundBuffer cutoutBuffer options = Ok res <->
     exists resizedBackground blurredBackground gradient backgroundWithGradient
            md resizedCutout final,
       let position := lifestylePosition (o_position options) md in
       let radius :=
         match blurRadius options with
         | Some r => r
         | None => LIFESTYLE_DEFAULT_BLUR_RADIUS
         end in
       let opacity :=
         match gradientOpacity options with
         | Some o => o
         | None => LIFESTYLE_DEFAULT_GRADIENT_OPACITY
         end in
       let cutoutL := layerAt resizedCutout (y position) (x position) in
       resize backgroundBuffer THUMBNAIL_WIDTH THUMBNAIL_HEIGHT cover
         = Ok resizedBackground /\
       blurred resizedBackground (clampedRadius radius) = Ok blurredBackground /\
       createRadialGradient THUMBNAIL_WIDTH THUMBNAIL_HEIGHT (o_position options)
                            (Some opacity) = Ok gradient /\
       draw blurredBackground
            {| input := gradient; top := None; left := None; blend := Some over |}
         = Ok backgroundWithGradient /\
       metadata cutoutBuffer = Ok md /\
       resize cutoutBuffer (width position) (height position) contain
         = Ok resizedCutout /\
       composite backgroundWithGradient [cutoutL] = Ok final /\
       draw backgroundWithGradient cutoutL = Ok final /\
       res = {| lr_imageBase64 := toBase64 final; lr_composited := true;
                lr_position := position |}).
Proof.
  split; [intros base before last final; apply composite_snoc|].
  split; [|split].
  - intros bg cut category res. split.
    + intro Hrun. unfold compositeProductOnBackground in Hrun.
      destruct (metadata (fromBase64 cut)) as [md|] eqn:Emd; [|discriminate].
      cbn [bind] in Hrun. cbv zeta in Hrun.
      exists md. unfold flatPosition. cbv zeta.
      destruct (JS.gt _ 1) in Hrun |- *.
      all: cbn [x y width height].
      all: destruct (resize (fromBase64 cut) _ _ contain) as [rc|] eqn:Erc;
        [|discriminate]; cbn [bind] in Hrun.
      all: destruct (silhouette rc _ _ _) as [sb|] eqn:Esb; [|discriminate];
        cbn [bind] in Hrun.
      all: destruct (resize (fromBase64 bg) _ _ cover) as [rb|] eqn:Erb;
        [|discriminate]; cbn [bind] in Hrun.
      all: destruct (composite rb _) as [final|] eqn:Ecomp; [|discriminate];
        cbn [bind] in Hrun; injection Hrun as <-.
      all: pose proof Ecomp as Edraw; cbn [composite] in Edraw.
      all: destruct (draw rb _) as [canvas|] eqn:Eshadow; [|discriminate];
        cbn [bind] in Edraw.
      all: destruct (draw canvas _) as [final'|] eqn:Ecut; [|discriminate];
        cbn [bind] in Edraw; injection Edraw as ->.
      all: exists rc, sb, rb, canvas, final.
      all: split; [reflexivity|]; split; [reflexivity|]; split; [exact Esb|].
      all: split; [reflexivity|]; split; [exact Ecomp|].
      all: split; [exact Eshadow|]; split; [exact Ecut | reflexivity].
    + intros (md & rc & sb & rb & canvas & final & Htrace). cbv zeta in Htrace.
      destruct Htrace as (Emd & Erc & Esb & Erb & Ecomp & _ & _ & ->).
      unfold compositeProductOnBackground. rewrite Emd. cbn [bind]. cbv zeta.
      unfold flatPosition in Erc, Ecomp. cbv zeta in Erc, Ecomp.
      unfold shadowLayer, layerAt in Ecomp.
      destruct (JS.gt _ 1) in Erc, Ecomp |- *.
      all: cbn [x y width height] in Erc, Ecomp.
      all: rewrite Erc; cbn [bind]; rewrite Esb; cbn [bind].
      all: rewrite Erb; cbn [bind]; rewrite Ecomp; reflexivity.
  - intros bg cut sceneDesign res. split.
    + intro Hrun. unfold compositeContextualThumbnail in Hrun.
      destruct (metadata (fromBase64 cut)) as [md|] eqn:Emd; [|discriminate].
      cbn [bind] in Hrun. cbv zeta in Hrun.
      destruct (resize (fromBase64 cut) _ _ contain) as [rc|] eqn:Erc;
        [|discriminate]; cbn [bind] in Hrun.
      destruct (silhouette rc _ _ _) as [sb|] eqn:Esb; [|discriminate].
      cbn [bind] in Hrun.
      destruct (resize (fromBase64 bg) _ _ cover) as [rb|] eqn:Erb;
        [|discriminate]; cbn [bind] in Hrun.
      destruct (composite rb _) as [final|] eqn:Ecomp; [|discriminate].
      cbn [bind] in Hrun. injection Hrun as <-.
      fold (contextualPosition sceneDesign md) in Erc, Ecomp |- *.
      set (position := contextualPosition sceneDesign md) in *.
      pose proof Ecomp as Edraw.
      unfold compositeInputs, push in Edraw. cbn [app] in Edraw.
      destruct (hasReflection (pedestal sceneDesign)) eqn:Erefl;
        [destruct (PedestalPosition_eqb (p_position (pedestal sceneDesign))
                                        center_bottom) eqn:Epos;
         [destruct (flipped rc (3 # 10) 3 (3 # 10)) as [rf|e] eqn:Eflip|]|];
        cbn [andb app composite] in Edraw.
      * destruct (draw rb _) as [canvas|] eqn:Eshadow; [|discriminate].
        cbn [bind] in Edraw.
        destruct (draw canvas _) as [canvas'|] eqn:Ereflection; [|discriminate].
        cbn [bind] in Edraw.
        destruct (draw canvas' _) as [final'|] eqn:Ecut; [|discriminate].
        cbn [bind] in Edraw. injection Edraw as ->.
        exists md, rc, sb, rb, canvas, canvas', final. cbv zeta.
        split; [reflexivity|]. split; [exact Erc|]. split; [exact Esb|].
        split; [reflexivity|]. split; [exact Ecomp|]. split; [exact Eshadow|].
        split; [|split; [exact Ecut | reflexivity]].
        left. split; [exact Erefl|].
        split; [now apply PedestalPosition_eqb_eq|].
        exists rf. split; [exact Eflip|]. split; [|exact Ereflection].
        unfold compositeInputs, push. rewrite Erefl, Epos, Eflip. reflexivity.
      * destruct (draw rb _) as [canvas|] eqn:Eshadow; [|discriminate].
        cbn [bind] in Edraw.
        destruct (draw canvas _) as [final'|] eqn:Ecut; [|discriminate].
        cbn [bind] in Edraw. injection Edraw as ->.
        exists md, rc, sb, rb, canvas, canvas, final. cbv zeta.
        split; [reflexivity|]. split; [exact Erc|]. split; [exact Esb|].
        split; [reflexivity|]. split; [exact Ecomp|]. split; [exact Eshadow|].
        split; [|split; [exact Ecut | reflexivity]].
        right. split; [right; right; now exists e|]. split; [|reflexivity].
        unfold compositeInputs, push. rewrite Erefl, Epos, Eflip. reflexivity.
      * destruct (draw rb _) as [canvas|] eqn:Eshadow; [|discriminate].
        cbn [bind] in Edraw.
        destruct (draw canvas _) as [final'|] eqn:Ecut; [|discriminate].
        cbn [bind] in Edraw. injection Edraw as ->.
        exists md, rc, sb, rb, canvas, canvas, final. cbv zeta.
        split; [reflexivity|]. split; [exact Erc|]. split; [exact Esb|].
        split; [reflexivity|]. split; [exact Ecomp|]. split; [exact Eshadow|].
        split; [|split; [exact Ecut | reflexivity]].
        right. split.
        { right. left. intro Hc. apply PedestalPosition_eqb_eq in Hc. congruence. }
        split; [|reflexivity].
        unfold compositeInputs, push. rewrite Erefl, Epos. reflexivity.
      * destruct (draw rb _) as [canvas|] eqn:Eshadow; [|discriminate].
        cbn [bind] in Edraw.
        destruct (draw canvas _) as [final'|] eqn:Ecut; [|discriminate].
        cbn [bind] in Edraw. injection Edraw as ->.
        exists md, rc, sb, rb, canvas, canvas, final. cbv zeta.
        split; [reflexivity|]. split; [exact Erc|]. split; [exact Esb|].
        split; [reflexivity|]. split; [exact Ecomp|]. split; [exact Eshadow|].
        split; [|split; [exact Ecut | reflexivity]].
        right. split; [now left|]. split; [|reflexivity].
        unfold compositeInputs, push. rewrite Erefl. reflexivity.
    + intros (md & rc & sb & rb & canvas & canvas' & final & Htrace).
      cbv zeta in Htrace.
      destruct Htrace as (Emd & Erc & Esb & Erb & Ecomp & _ & _ & _ & ->).
      unfold compositeContextualThumbnail. rewrite Emd. cbn [bind]. cbv zeta.
      fold (contextualPosition sceneDesign md).
      rewrite Erc. cbn [bind]. rewrite Esb. cbn [bind].
      rewrite Erb. cbn [bind]. rewrite Ecomp. reflexivity.
  - intros bgBuf cutBuf options res. split.
    + intro Hrun. unfold compositeLifestyleThumbnail in Hrun. cbv zeta in Hrun.
      destruct (resize bgBuf _ _ cover) as [rb|] eqn:Erb; [|discriminate].
      cbn [bind] in Hrun.
      destruct (applyGaussianBlur rb _) as [blurredBackground|] eqn:Eblur;
        [|discriminate]; cbn [bind] in Hrun.
      destruct (createRadialGradient _ _ _ _) as [gradient|] eqn:Egrad;
        [|discriminate]; cbn [bind] in Hrun.
      destruct (applyGradientOverlay blurredBackground gradient)
        as [backgroundWithGradient|] eqn:Eover; [|discriminate].
      cbn [bind] in Hrun.
      destruct (metadata cutBuf) as [md|] eqn:Emd; [|discriminate].
      cbn [bind] in Hrun.
      destruct (resize cutBuf _ _ contain) as [rc|] eqn:Erc; [|discriminate].
      cbn [bind] in Hrun.
      destruct (composite backgroundWithGradient _) as [final|] eqn:Ecomp;
        [|discriminate].
      cbn [bind] in Hrun. injection Hrun as <-.
      exists rb, blurredBackground, gradient, backgroundWithGradient, md, rc, final.
      cbv zeta. unfold lifestylePosition.
      split; [reflexivity|]. split; [exact Eblur|]. split; [exact Egrad|].
      split.
      { unfold applyGradientOverlay in Eover. cbn [composite] in Eover.
        destruct (draw blurredBackground _) as [bwg|] eqn:Edraw; [|discriminate].
        cbn [bind] in Eover. injection Eover as ->. reflexivity. }
      split; [reflexivity|]. split; [exact Erc|]. split; [exact Ecomp|].
      split; [|reflexivity].
      cbn [composite] in Ecomp.
      destruct (draw backgroundWithGradient _) as [final'|] eqn:Edraw;
        [|discriminate].
      cbn [bind] in Ecomp. injection Ecomp as ->. reflexivity.
    + intros (rb & bb & gradient & bwg & md & rc & final & Htrace).
      cbv zeta in Htrace. unfold lifestylePosition in Htrace.
      destruct Htrace as (Erb & Eblur & Egrad & Eover & Emd & Erc & Ecomp & _ & ->).
      unfold compositeLifestyleThumbnail. cbv zeta.
      rewrite Erb. cbn [bind]. unfold applyGaussianBlur. rewrite Eblur.
      cbn [bind]. rewrite Egrad. cbn [bind].
      unfold applyGradientOverlay. cbn [composite]. rewrite Eover. cbn [bind].
      rewrite Emd. cbn [bind]. rewrite Erc. cbn [bind].
      unfold layerAt in Ecomp. cbn [composite] in Ecomp. rewrite Ecomp.
      reflexivity.
Qed.

Lemma C6_cutout_drawn_last_witness :
  exists canvas,
    @draw (Symbolic.host true) canvas (layerAt "resize(cut)"%string 20 436)
    = Ok "resize(bg) <- shadow(resize(cut)) <- reflection(resize(cut)) <- resize(cut)"%string.
Proof.
  destruct (C6_cutout_drawn_last (Symbolic.host true)) as (_ & _ & Hctx & _).
  destruct (proj1 (Hctx "bg"%string "cut"%string Symbolic.scene _) eq_refl)
    as (md & rc & sb & rb & canvas & canvas' & final & Htrace).
  cbv zeta in Htrace.
  destruct Htrace as (Hmd & Hrc & _ & _ & _ & _ & _ & Hdraw & Hres).
  injection Hmd as <-. injection Hrc as <-. injection Hres as Hfinal.
  exists canvas'. cbn in Hfinal. subst final. exact Hdraw.
Defined.

(** ** The repository's tests, replayed on the model *)

(** gradientService.test.ts: the SVG carries the centre of the placement and
    the opacity as hexadecimal alpha. *)
Example gradient_tests :
  let svg o p :=
    match @createRadialGradient (Symbolic.host true) 1280 720 p (Some o) with
    | Ok b => b
    | Err _ => EmptyString
    end in
  Str.includes ("width=" ++ dq ++ "1280" ++ dq) (svg (Double.decimal 25 100) center) = true /\
  Str.includes ("height=" ++ dq ++ "720" ++ dq) (svg (Double.decimal 25 100) center) = true /\
  Str.includes ("cx=" ++ dq ++ "0.5" ++ dq) (svg (Double.decimal 25 100) center) = true /\
  Str.includes ("cx=" ++ dq ++ "0.67" ++ dq) (svg (Double.decimal 25 100) right_third) = true /\
  Str.includes ("cx=" ++ dq ++ "0.33" ++ dq) (svg (Double.decimal 25 100) left_third) = true /\
  Str.includes ("cy=" ++ dq ++ "0.7" ++ dq) (svg (Double.decimal 25 100) center_bottom) = true /\
  Str.includes ("stop-color=" ++ dq ++ "#00000040" ++ dq) (svg (Double.decimal 25 100) center) = true /\
  Str.includes ("stop-color=" ++ dq ++ "#00000033" ++ dq) (svg (Double.decimal 10 100) center) = true /\
  Str.includes ("stop-color=" ++ dq ++ "#0000004d" ++ dq) (svg (Double.decimal 50 100) center) = true.
Proof. cbv zeta. repeat split; vm_compute; reflexivity. Qed.

(** lifestyleCompositing.test.ts: a 200x300 cutout is placed right of x = 600
    for right-third, left of x = 500 for left-third, and between 400 and 800
    for center-bottom. *)
Example lifestyle_position_tests :
  600 < x (Lifestyle.calculateProductPosition right_third 200 300) /\
  x (Lifestyle.calculateProductPosition left_third 200 300) < 500 /\
  400 < x (Lifestyle.calculateProductPosition center_bottom 200 300) < 800.
Proof. vm_compute. repeat split; reflexivity. Qed.

(** The shadow of the category baby is lighter than the one of fitness, and
    the lookup ignores letter case. *)
Example category_shadow_tests :
  opacity (getShadowSettings (Some "baby"%string)) = (15 # 100)%Q /\
  opacity (getShadowSettings (Some "Fitness"%string)) = (4 # 10)%Q /\
  getShadowSettings (Some "unknown"%string) = CATEGORY_SHADOWS_default /\
  getShadowSettings None = CATEGORY_SHADOWS_default.
Proof. repeat split; reflexivity. Qed.

(** * Further properties of the geometry resolvers *)

Lemma floor_half (n : Z) : JS.floor (inject_Z n / 2) = n / 2.
Proof.
  unfold JS.floor, Qfloor, Qdiv, Qmult, Qinv, inject_Z. cbn.
  now rewrite Z.mul_1_r.
Qed.

Lemma floor_sub_Z (q : Q) (n : Z) :
  JS.floor (q - inject_Z n) = JS.floor q - n.
Proof.
  apply Z.le_antisymm.
  - apply Z.lt_succ_r. apply floor_lt_Z.
    replace (Z.succ (JS.floor q - n)) with ((JS.floor q + 1) + - n) by lia.
    rewrite inject_Z_plus, inject_Z_opp.
    pose proof (Qlt_floor q) as Hq. unfold JS.floor. lra.
  - apply floor_ge_Z.
    replace (JS.floor q - n) with (JS.floor q + - n) by lia.
    rewrite inject_Z_plus, inject_Z_opp.
    pose proof (floor_below q) as Hq. lra.
Qed.

Lemma targetWidth_below (ratio : Q) :
  (ratio < 1241 # 1280)%Q -> Contextual.targetWidth ratio <= 1240.
Proof.
  intro Hr. apply Z.lt_succ_r. apply floor_lt_Z.
  unfold THUMBNAIL_WIDTH. change (inject_Z 1280) with 1280%Q.
  change (inject_Z (Z.succ 1240)) with 1241%Q. lra.
Qed.

Lemma clamp_inside_wide (a dw dh b : Z) :
  200 <= dw <= 1240 -> 200 <= dh <= 680 ->
  insideWithMargin
    {| x := Z.max 20 (Z.min a (THUMBNAIL_WIDTH - dw - 20));
       y := Z.max 20 (Z.min b (THUMBNAIL_HEIGHT - dh - 20));
       width := dw; height := dh |}.
Proof.
  intros Hw Hh. unfold insideWithMargin, THUMBNAIL_WIDTH, THUMBNAIL_HEIGHT.
  cbn [x y width height]. lia.
Qed.

Lemma inside_below_threshold
    (pos : PedestalPosition) (ratio cutoutWidth cutoutHeight : Q) :
  (0 < cutoutWidth)%Q -> (0 < cutoutHeight)%Q -> (ratio < 1241 # 1280)%Q ->
  insideWithMargin
    (Contextual.calculateProductPosition pos ratio cutoutWidth cutoutHeight).
Proof.
  intros Hw Hh Hr.
  pose proof (aspect_pos _ _ Hw Hh) as Ha.
  pose proof (targetWidth_below ratio Hr) as Htw.
  destruct (fitSize_bounds (Contextual.targetWidth ratio) _ Ha) as [Hdw Hdh].
  rewrite contextual_unfold. cbv zeta. apply clamp_inside_wide; lia.
Qed.



(** Above that threshold the right margin is lost for wide cutouts: when the
    target width exceeds 1240 and the cutout is wide enough for its height to
    stay within 576, the box is as wide as the target, starts at x = 20 and
    ends right of x = 1260. *)
Theorem contextual_margin_lost_above_threshold
    (pos : PedestalPosition) (ratio cutoutWidth cutoutHeight : Q) :
  (0 < cutoutHeight)%Q -> (1 < cutoutWidth / cutoutHeight)%Q ->
  1240 < Contextual.targetWidth ratio ->
  (inject_Z (Contextual.targetWidth ratio)
   <= 576 * (cutoutWidth / cutoutHeight))%Q ->
  let b := Contextual.calculateProductPosition pos ratio cutoutWidth cutoutHeight in
  width b = Contextual.targetWidth ratio /\ x b = 20 /\
  THUMBNAIL_WIDTH - 20 < x b + width b.
Proof.
  intros Hh Hwide Htw Hfit. cbv zeta. rewrite contextual_unfold. cbv zeta.
  set (tw := Contextual.targetWidth ratio) in *.
  set (a := (cutoutWidth / cutoutHeight)%Q) in *.
  assert (Ha : (0 < a)%Q)
    by (apply Qlt_trans with 1%Q; [reflexivity | exact Hwide]).
  assert (Esize : fst (fitSize tw a) = tw).
  { unfold fitSize. rewrite (proj2 (gt_true_iff a 1) Hwide).
    assert (Hlow : JS.floor (inject_Z tw / a) <= 576).
    { apply floor_le_Z. apply Qle_shift_div_r; [exact Ha|].
      change (inject_Z 576) with 576%Q. exact Hfit. }
    assert (Eno : JS.gt (inject_Z (JS.floor (inject_Z tw / a)))
                        (inject_Z THUMBNAIL_HEIGHT * (8 # 10)) = false).
    { apply gt_false_iff. apply Qle_trans with (inject_Z 576).
      - now rewrite <- Zle_Qle.
      - unfold Qle. simpl. lia. }
    now rewrite Eno. }
  cbn [x y width height]. rewrite Esize. unfold THUMBNAIL_WIDTH. lia.
Qed.

Lemma contextual_margin_lost_above_threshold_witness :
  let b := Contextual.calculateProductPosition center 1 3000 1000 in
  width b = 1280 /\ x b = 20 /\ THUMBNAIL_WIDTH - 20 < x b + width b.
Proof.
  apply (contextual_margin_lost_above_threshold center 1 3000 1000);
    vm_compute; first [reflexivity | discriminate].
Defined.

(** ** Size of the box as a function of the aspect ratio *)

Lemma gt_one_of_wide (tw : Z) (a : Q) :
  200 <= tw -> (inject_Z tw < 200 * a)%Q -> (1 < a)%Q.
Proof.
  intros Htw Hwide.
  assert (H200 : (inject_Z 200 <= inject_Z tw)%Q) by (now rewrite <- Zle_Qle).
  change (inject_Z 200) with 200%Q in H200. lra.
Qed.

(** A cutout wider than targetWidth : 200 is drawn targetWidth x 200. *)
Lemma size_very_wide (tw : Z) (a : Q) :
  (0 < a)%Q -> 200 <= tw -> (inject_Z tw < 200 * a)%Q ->
  Z.max (fst (fitSize tw a)) 200 = tw /\ Z.max (snd (fitSize tw a)) 200 = 200.
Proof.
  intros Ha Htw Hwide. unfold fitSize.
  rewrite (proj2 (gt_true_iff a 1) (gt_one_of_wide tw a Htw Hwide)).
  assert (Hlow : JS.floor (inject_Z tw / a) < 200).
  { apply floor_lt_Z. apply Qlt_shift_div_r; [exact Ha|].
    change (inject_Z 200) with 200%Q. exact Hwide. }
  assert (Eno : JS.gt (inject_Z (JS.floor (inject_Z tw / a)))
                      (inject_Z THUMBNAIL_HEIGHT * (8 # 10)) = false).
  { apply gt_false_iff. apply Qle_trans with (inject_Z 576).
    - rewrite <- Zle_Qle. lia.
    - unfold Qle. simpl. lia. }
  rewrite Eno. cbn [fst snd]. lia.
Qed.

(** A cutout narrower than 200 : 612 is drawn 200 x 612. *)
Lemma size_very_tall (tw : Z) (a : Q) :
  (0 < a)%Q -> 200 <= tw -> (612 * a < 200)%Q ->
  Z.max (fst (fitSize tw a)) 200 = 200 /\ Z.max (snd (fitSize tw a)) 200 = 612.
Proof.
  intros Ha Htw Htall. unfold fitSize.
  assert (Ele : JS.gt a 1 = false) by (apply gt_false_iff; lra).
  rewrite Ele, height_085.
  assert (Hlow : JS.floor (inject_Z 612 * a) < 200).
  { apply floor_lt_Z. change (inject_Z 612) with 612%Q.
    change (inject_Z 200) with 200%Q. exact Htall. }
  assert (Eno : (JS.floor (inject_Z 612 * a) >? tw) = false).
  { rewrite Z.gtb_ltb. apply Z.ltb_ge. lia. }
  rewrite Eno. cbn [fst snd]. lia.
Qed.

(** In both resolvers, for a ratio of at least 0.2, the 200-pixel floor
    decides the size of an extreme cutout: one whose aspect ratio exceeds
    targetWidth : 200 is drawn targetWidth x 200, and one whose aspect ratio
    is below 200 : 612 is drawn 200 x 612. *)
Theorem box_size_by_aspect
    (pos : PedestalPosition) (ratio cutoutWidth cutoutHeight : Q) :
  (0 < cutoutWidth)%Q -> (0 < cutoutHeight)%Q -> (2 # 10 <= ratio)%Q ->
  let a := (cutoutWidth / cutoutHeight)%Q in
  let tw := Contextual.targetWidth ratio in
  let c := Contextual.calculateProductPosition pos ratio cutoutWidth cutoutHeight in
  let l := Lifestyle.calculateProductPosition pos cutoutWidth cutoutHeight in
  ((inject_Z tw < 200 * a)%Q -> width c = tw /\ height c = 200) /\
  ((612 * a < 200)%Q -> width c = 200 /\ height c = 612) /\
  ((448 < 200 * a)%Q -> width l = 448 /\ height l = 200) /\
  ((612 * a < 200)%Q -> width l = 200 /\ height l = 612).
Proof.
  intros Hw Hh Hr. cbv zeta.
  pose proof (aspect_pos _ _ Hw Hh) as Ha.
  assert (Htw : 200 <= Contextual.targetWidth ratio).
  { apply Z.le_trans with (Contextual.targetWidth (2 # 10)); [discriminate|].
    now apply targetWidth_mono. }
  rewrite contextual_unfold, lifestyle_unfold. cbv zeta.
  cbn [width height]. rewrite lifestyle_targetWidth.
  repeat split.
  - now apply size_very_wide.
  - now apply size_very_wide.
  - now apply size_very_tall.
  - now apply size_very_tall.
  - now apply size_very_wide.
  - now apply size_very_wide.
  - now apply size_very_tall.
  - now apply size_very_tall.
Qed.

Lemma box_size_by_aspect_witness :
  (let l := Lifestyle.calculateProductPosition center 3000 1000 in
   width l = 448 /\ height l = 200) /\
  (let c := Contextual.calculateProductPosition center (35 # 100) 100 1000 in
   width c = 200 /\ height c = 612).
Proof.
  split.
  - assert (Hq : (0 < 3000)%Q /\ (0 < 1000)%Q /\ (2 # 10 <= 35 # 100)%Q /\
                 (448 < 200 * (3000 / 1000))%Q)
      by (repeat split; vm_compute; first [reflexivity | discriminate]).
    destruct Hq as (Hw & Hh & Hr & Hwide).
    pose proof (box_size_by_aspect center (35 # 100) 3000 1000 Hw Hh Hr) as Hthm.
    cbv zeta in Hthm. destruct Hthm as (_ & _ & Hl & _).
    exact (Hl Hwide).
  - assert (Hq : (0 < 100)%Q /\ (0 < 1000)%Q /\ (2 # 10 <= 35 # 100)%Q /\
                 (612 * (100 / 1000) < 200)%Q)
      by (repeat split; vm_compute; first [reflexivity | discriminate]).
    destruct Hq as (Hw & Hh & Hr & Htall).
    pose proof (box_size_by_aspect center (35 # 100) 100 1000 Hw Hh Hr) as Hthm.
    cbv zeta in Hthm. destruct Hthm as (_ & Hc & _).
    exact (Hc Htall).
Defined.

(** ** Placement for the intents center and center-bottom *)

Lemma half_bounds (n : Z) : 2 * (n / 2) <= n <= 2 * (n / 2) + 1.
Proof.
  pose proof (Z.div_mod n 2 ltac:(lia)) as Hdm.
  pose proof (Z.mod_pos_bound n 2 ltac:(lia)) as Hm. lia.
Qed.




Lemma pedestal_line : JS.floor (inject_Z THUMBNAIL_HEIGHT * (65 # 100)) = 468.
Proof. reflexivity. Qed.

(** With the intent center-bottom both resolvers, for every ratio and every
    cutout, put the top of the box at max(20, 468 - height): a box of height
    at most 448 stands with its lower edge on the line y = 468 (65% of the
    canvas height); a higher box is pinned to the top margin y = 20 and
    reaches below that line. *)
Theorem center_bottom_rests_or_is_pinned
    (ratio cutoutWidth cutoutHeight : Q) :
  (0 < cutoutWidth)%Q -> (0 < cutoutHeight)%Q ->
  let placed (b : Box) :=
    y b = Z.max 20 (468 - height b) /\
    (height b <= 448 -> y b + height b = 468) /\
    (448 < height b -> y b = 20 /\ 468 < y b + height b) in
  placed (Contextual.calculateProductPosition center_bottom ratio
            cutoutWidth cutoutHeight) /\
  placed (Lifestyle.calculateProductPosition center_bottom
            cutoutWidth cutoutHeight).
Proof.
  intros _ _. cbv zeta. rewrite contextual_unfold, lifestyle_unfold. cbv zeta.
  cbn [x y width height Contextual.anchorY Lifestyle.anchorY].
  rewrite !floor_sub_Z, pedestal_line.
  unfold THUMBNAIL_HEIGHT. split; lia.
Qed.

Lemma center_bottom_rests_or_is_pinned_witness :
  let b := Lifestyle.calculateProductPosition center_bottom 1000 500 in
  height b = 224 /\ y b + height b = 468.
Proof.
  assert (Hq : (0 < 1000)%Q /\ (0 < 500)%Q) by (split; reflexivity).
  destruct Hq as [Hw Hh].
  destruct (center_bottom_rests_or_is_pinned (35 # 100) 1000 500 Hw Hh)
    as (_ & _ & Hrest & _).
  cbv zeta. split; [reflexivity|]. apply Hrest. vm_compute. discriminate.
Defined.

(** A cutout that is not wider than tall and whose width, scaled to the
    height 612, fits the target width is drawn 612 pixels high; with the
    intent center-bottom it is therefore pinned to y = 20 and its lower edge
    is at y = 632, not on the line y = 468. *)
Theorem center_bottom_tall_cutout_is_pinned
    (ratio cutoutWidth cutoutHeight : Q) :
  (0 < cutoutWidth)%Q -> (0 < cutoutHeight)%Q ->
  (cutoutWidth <= cutoutHeight)%Q ->
  let a := (cutoutWidth / cutoutHeight)%Q in
  let c := Contextual.calculateProductPosition center_bottom ratio
             cutoutWidth cutoutHeight in
  let l := Lifestyle.calculateProductPosition center_bottom
             cutoutWidth cutoutHeight in
  ((612 * a < inject_Z (Contextual.targetWidth ratio + 1))%Q ->
   height c = 612 /\ y c = 20 /\ y c + height c = 632) /\
  ((612 * a < 449)%Q -> height l = 612 /\ y l = 20 /\ y l + height l = 632).
Proof.
  intros Hw Hh Hle. cbv zeta.
  assert (Ha : (cutoutWidth / cutoutHeight <= 1)%Q).
  { apply Qle_shift_div_r; [exact Hh|]. now rewrite Qmult_1_l. }
  assert (Hsize : forall tw,
             (612 * (cutoutWidth / cutoutHeight) < inject_Z (tw + 1))%Q ->
             snd (fitSize tw (cutoutWidth / cutoutHeight)) = 612).
  { intros tw Hfit. unfold fitSize.
    rewrite (proj2 (gt_false_iff _ 1) Ha), height_085.
    assert (Hlow : JS.floor (inject_Z 612 * (cutoutWidth / cutoutHeight)) < tw + 1)
      by (apply floor_lt_Z; exact Hfit).
    assert (Eno : (JS.floor (inject_Z 612 * (cutoutWidth / cutoutHeight)) >? tw)
                  = false) by (rewrite Z.gtb_ltb; apply Z.ltb_ge; lia).
    now rewrite Eno. }
  rewrite contextual_unfold, lifestyle_unfold. cbv zeta.
  cbn [x y width height Contextual.anchorY Lifestyle.anchorY].
  rewrite !floor_sub_Z, pedestal_line. unfold THUMBNAIL_HEIGHT.
  split; intro Hfit.
  - rewrite (Hsize _ Hfit). lia.
  - rewrite lifestyle_targetWidth, (Hsize 448 Hfit). lia.
Qed.

Lemma center_bottom_tall_cutout_is_pinned_witness :
  let l := Lifestyle.calculateProductPosition center_bottom 200 300 in
  height l = 612 /\ y l = 20 /\ y l + height l = 632.
Proof.
  assert (Hq : (0 < 200)%Q /\ (0 < 300)%Q /\ (200 <= 300)%Q /\
               (612 * (200 / 300) < 449)%Q)
    by (repeat split; vm_compute; first [reflexivity | discriminate]).
  destruct Hq as (Hw & Hh & Hle & Hfit).
  exact (proj2 (center_bottom_tall_cutout_is_pinned (35 # 100) 200 300 Hw Hh Hle)
               Hfit).
Defined.

(** ** Spotlight of the lifestyle pipeline *)

Lemma lifestyle_anchor_is_spotlight (pos : PedestalPosition) (dw : Z) :
  Lifestyle.anchorX pos dw
  = JS.floor (inject_Z THUMBNAIL_WIDTH * fst (POSITION_MAP pos)
              - inject_Z dw / 2).
Proof.
  destruct pos; cbn [Lifestyle.anchorX POSITION_MAP fst]; try reflexivity;
    apply floor_compat; unfold THUMBNAIL_WIDTH;
    replace (1280 - dw) with (1280 + - dw) by lia;
    rewrite inject_Z_plus, inject_Z_opp; change (inject_Z 1280) with 1280%Q;
    field.
Qed.

(** [compositeLifestyleThumbnail] gives the same placement intent to the
    gradient and to the geometry resolver.  For every intent and cutout the
    horizontal centre of the product box is then within one pixel of the
    centre of the spotlight, cx * 1280 with cx from [POSITION_MAP]. *)
Theorem lifestyle_box_under_spotlight
    (pos : PedestalPosition) (cutoutWidth cutoutHeight : Q) :
  (0 < cutoutWidth)%Q -> (0 < cutoutHeight)%Q ->
  let b := Lifestyle.calculateProductPosition pos cutoutWidth cutoutHeight in
  let boxCentre := (inject_Z (x b) + inject_Z (width b) / 2)%Q in
  let spotlight := (inject_Z THUMBNAIL_WIDTH * fst (POSITION_MAP pos))%Q in
  (boxCentre <= spotlight)%Q /\ (spotlight < boxCentre + 1)%Q.
Proof.
  intros Hw Hh. cbv zeta.
  pose proof (aspect_pos _ _ Hw Hh) as Ha.
  pose proof lifestyle_targetWidth as Etw.
  destruct (draw_size_range Lifestyle.targetWidth _ Ha) as [Hdw _]; [lia|].
  rewrite lifestyle_unfold. cbv zeta. cbn [x width].
  set (dw := Z.max (fst (fitSize Lifestyle.targetWidth
                                 (cutoutWidth / cutoutHeight))) 200) in *.
  rewrite lifestyle_anchor_is_spotlight.
  rewrite anchor_unclamped_x;
    [| destruct pos; cbn; unfold Qle; simpl; lia
     | destruct pos; cbn; unfold Qle; simpl; lia
     | lia].
  set (q := (inject_Z THUMBNAIL_WIDTH * fst (POSITION_MAP pos)
             - inject_Z dw / 2)%Q).
  pose proof (floor_below q) as Hlo. pose proof (Qlt_floor q) as Hhi.
  fold (JS.floor q) in Hhi. rewrite inject_Z_plus in Hhi.
  change (inject_Z 1) with 1%Q in Hhi.
  assert (Eq : (inject_Z THUMBNAIL_WIDTH * fst (POSITION_MAP pos)
                == q + inject_Z dw / 2)%Q) by (unfold q; ring).
  rewrite Eq. split; lra.
Qed.

Lemma lifestyle_box_under_spotlight_witness :
  let b := Lifestyle.calculateProductPosition right_third 200 300 in
  (inject_Z (x b) + inject_Z (width b) / 2
   <= inject_Z THUMBNAIL_WIDTH * fst (POSITION_MAP right_third))%Q /\
  (inject_Z THUMBNAIL_WIDTH * fst (POSITION_MAP right_third)
   < inject_Z (x b) + inject_Z (width b) / 2 + 1)%Q.
Proof.
  apply (lifestyle_box_under_spotlight right_third 200 300); reflexivity.
Defined.

(** * Further properties of the shadow presets *)

Lemma scene_preset_bounds (shadow : ShadowSettings) :
  In shadow [SHADOW_PRESETS.dramatic; SHADOW_PRESETS.soft; SHADOW_PRESETS.dark;
             SHADOW_PRESETS.light] ->
  15 <= blur shadow <= 35 /\
  JS.max (inject_Z (blur shadow)) (3 # 10) = inject_Z (blur shadow) /\
  (2 # 10 <= opacity shadow)%Q /\ (opacity shadow <= 6 # 10)%Q /\
  0 <= offsetX shadow <= 10 /\ 8 <= offsetY shadow <= 25.
Proof.
  cbn [In]. intros [<- | [<- | [<- | [<- | []]]]];
    (repeat split; try reflexivity; try discriminate;
     cbn [blur offsetX offsetY SHADOW_PRESETS.dramatic SHADOW_PRESETS.soft
          SHADOW_PRESETS.dark SHADOW_PRESETS.light]; lia).
Qed.

(** Every scene gets a shadow whose blur, between 15 and 35, is passed to
    sharp as it is ([Math.max] with 0.3 changes nothing), whose opacity is
    between 0.2 and 0.6 and whose offsets are not negative.  As x and y of the
    box are at least 20, the shadow layer lies at (y + offsetY, x + offsetX):
    the clamp to 0 of its coordinates never applies. *)
Theorem scene_shadow_applied_as_given
    (H : Host) (design : SceneDesign) (ped : Pedestal)
    (pos : PedestalPosition) (ratio cutoutWidth cutoutHeight : Q)
    (shadowBuffer resizedCutout : Buffer) :
  (0 < cutoutWidth)%Q -> (0 < cutoutHeight)%Q ->
  let shadow := getShadowFromDesign design in
  let position :=
    Contextual.calculateProductPosition pos ratio cutoutWidth cutoutHeight in
  15 <= blur shadow <= 35 /\
  JS.max (inject_Z (blur shadow)) (3 # 10) = inject_Z (blur shadow) /\
  (2 # 10 <= opacity shadow)%Q /\ (opacity shadow <= 6 # 10)%Q /\
  0 <= offsetX shadow <= 10 /\ 8 <= offsetY shadow <= 25 /\
  exists rest,
    compositeInputs ped position shadow shadowBuffer resizedCutout
    = layerAt shadowBuffer (y position + offsetY shadow)
                           (x position + offsetX shadow) :: rest.
Proof.
  intros _ _. cbv zeta.
  assert (Hpreset :
    In (getShadowFromDesign design)
       [SHADOW_PRESETS.dramatic; SHADOW_PRESETS.soft; SHADOW_PRESETS.dark;
        SHADOW_PRESETS.light]).
  { unfold getShadowFromDesign.
    destruct (_ || _); [simpl; tauto|].
    destruct (_ || _); [simpl; tauto|].
    destruct (isDarkBg (colorScheme design)); cbn [negb]; simpl; tauto. }
  apply scene_preset_bounds in Hpreset.
  destruct Hpreset as (Hblur & Hmax & Hlo & Hhi & Hox & Hoy).
  assert (Hxy : 20 <= x (Contextual.calculateProductPosition pos ratio
                           cutoutWidth cutoutHeight) /\
                20 <= y (Contextual.calculateProductPosition pos ratio
                           cutoutWidth cutoutHeight)).
  { rewrite contextual_unfold. cbv zeta. cbn [x y]. lia. }
  revert Hblur Hmax Hlo Hhi Hox Hoy Hxy.
  generalize (getShadowFromDesign design) as shadow.
  generalize (Contextual.calculateProductPosition pos ratio
                cutoutWidth cutoutHeight) as position.
  intros position shadow Hblur Hmax Hlo Hhi Hox Hoy Hxy.
  repeat (split; [assumption|]).
  unfold compositeInputs, push, layerAt.
  rewrite !Z.max_r by lia. cbn [app].
  destruct (hasReflection ped && _);
    [destruct (flipped _ _ _ _)|]; eexists; reflexivity.
Qed.

Lemma scene_shadow_applied_as_given_witness :
  exists rest,
    @compositeInputs (Symbolic.host true) (pedestal Symbolic.scene)
      (Contextual.calculateProductPosition center_bottom (35 # 100) 200 300)
      (getShadowFromDesign Symbolic.scene) "shadow"%string "cutout"%string
    = layerAt "shadow"%string 40 436 :: rest.
Proof.
  assert (Hq : (0 < 200)%Q /\ (0 < 300)%Q) by (split; reflexivity).
  destruct Hq as [Hw Hh].
  destruct (scene_shadow_applied_as_given (Symbolic.host true) Symbolic.scene
              (pedestal Symbolic.scene) center_bottom (35 # 100) 200 300
              "shadow"%string "cutout"%string Hw Hh)
    as (_ & _ & _ & _ & _ & _ & Hhead).
  exact Hhead.
Defined.

Lemma lowerChar_idempotent (c : ascii) :
  Str.lowerChar (Str.lowerChar c) = Str.lowerChar c.
Proof.
  destruct c as [b0 b1 b2 b3 b4 b5 b6 b7].
  destruct b0, b1, b2, b3, b4, b5, b6, b7; reflexivity.
Qed.

Lemma toLowerCase_idempotent (s : string) :
  Str.toLowerCase (Str.toLowerCase s) = Str.toLowerCase s.
Proof.
  induction s as [|c s IH]; [reflexivity|].
  cbn [Str.toLowerCase]. now rewrite lowerChar_idempotent, IH.
Qed.

(** [getShadowSettings] does not distinguish upper and lower case: a category
    and its lower-cased form get the same preset. *)
Theorem category_lookup_ignores_case (category : string) :
  getShadowSettings (Some category)
  = getShadowSettings (Some (Str.toLowerCase category)).
Proof.
  destruct category as [|c s]; [reflexivity|].
  unfold getShadowSettings. cbn [Str.toLowerCase].
  now rewrite lowerChar_idempotent, toLowerCase_idempotent.
Qed.

Lemma lookup_In (key : string) (table : list (string * ShadowSettings))
    (v : ShadowSettings) :
  lookup key table = Some v -> In v (map snd table).
Proof.
  induction table as [|[k w] table IH]; [discriminate|].
  cbn [lookup map snd In]. destruct (String.eqb k key).
  - intros [= ->]. now left.
  - intro Hl. right. now apply IH.
Qed.

(** A missing, empty or unknown category falls back to the default preset;
    whatever the category (the two inherited keys apart), the preset is an
    entry of the table, with a blur between 12 and 25 that is passed to sharp
    as it is, an opacity between 0.15 and 0.4 and positive offsets. *)
Theorem category_shadow_is_table_entry (category : option string) :
  ~ inheritedKey category ->
  let shadow := getShadowSettings category in
  In shadow (map snd CATEGORY_SHADOWS) /\
  ((category = None \/ category = Some EmptyString \/
    (exists s, category = Some s /\
               lookup (Str.toLowerCase s) CATEGORY_SHADOWS = None)) ->
   shadow = CATEGORY_SHADOWS_default) /\
  12 <= blur shadow <= 25 /\
  JS.max (inject_Z (blur shadow)) (3 # 10) = inject_Z (blur shadow) /\
  (15 # 100 <= opacity shadow)%Q /\ (opacity shadow <= 4 # 10)%Q /\
  3 <= offsetX shadow <= 8 /\ 6 <= offsetY shadow <= 15.
Proof.
  intros _. cbv zeta.
  assert (Hdef : In CATEGORY_SHADOWS_default (map snd CATEGORY_SHADOWS))
    by (cbn; tauto).
  assert (Hin : In (getShadowSettings category) (map snd CATEGORY_SHADOWS)).
  { unfold getShadowSettings. destruct category as [[|c s]|]; try exact Hdef.
    destruct (lookup _ CATEGORY_SHADOWS) eqn:El; [|exact Hdef].
    exact (lookup_In _ _ _ El). }
  split; [exact Hin|]. split.
  - intros [-> | [-> | (s & -> & Hnone)]]; try reflexivity.
    unfold getShadowSettings. destruct s; [reflexivity|]. now rewrite Hnone.
  - revert Hin. generalize (getShadowSettings category). intros shadow Hin.
    cbn [CATEGORY_SHADOWS map snd In] in Hin.
    repeat (destruct Hin as [<- | Hin];
            [repeat split; try (cbn; lia); try (vm_compute; discriminate);
             reflexivity|]).
    contradiction.
Qed.

Lemma category_shadow_is_table_entry_witness :
  blur (getShadowSettings (Some "Baby"%string)) = 12 /\
  getShadowSettings (Some "gardening"%string) = CATEGORY_SHADOWS_default.
Proof.
  assert (Hb : ~ inheritedKey (Some "Baby"%string))
    by (intros (s & [= <-] & [E | E]); discriminate).
  assert (Hg : ~ inheritedKey (Some "gardening"%string))
    by (intros (s & [= <-] & [E | E]); discriminate).
  pose proof (category_shadow_is_table_entry (Some "Baby"%string) Hb) as Tb.
  pose proof (category_shadow_is_table_entry (Some "gardening"%string) Hg) as Tg.
  cbv zeta in Tb, Tg. split; [reflexivity|].
  destruct Tg as (_ & Tg & _). apply Tg. right. right.
  exists "gardening"%string. split; reflexivity.
Defined.

(** * Further properties of the pipelines *)

Lemma orElse_positive (v : option Z) :
  (forall n, v = Some n -> 0 <= n) -> 0 < orElse v 400.
Proof.
  intro Hv. destruct v as [n|]; [|reflexivity].
  specialize (Hv n eq_refl). destruct n; cbn; lia.
Qed.

Lemma inject_pos (n : Z) : 0 < n -> (0 < inject_Z n)%Q.
Proof. intro Hn. change 0%Q with (inject_Z 0). now rewrite <- Zlt_Qlt. Qed.

Lemma symbolic_metadata_contract (reflectionWorks : bool) :
  MetadataContract (Symbolic.host reflectionWorks).
Proof.
  intros b md. cbn. destruct (Symbolic.decodes b); [|discriminate].
  intros [= <-]. split; cbn; intros n [= <-]; lia.
Qed.

(** The position reported by a successful run of the contextual pipeline, for
    a ratio that the request schema accepts, and by a successful run of the
    lifestyle pipeline lies inside the canvas with the 20-pixel margin and is
    at least 200 pixels wide and high, also when the metadata of the cutout
    lacks a dimension. *)
Theorem reported_position_inside_canvas
    (H : Host) (sharpMetadata : MetadataContract H) :
  (forall backgroundBase64 cutoutBase64 sceneDesign res,
     productSpaceRatioSchema (productSpaceRatio (pedestal sceneDesign)) = true ->
     compositeContextualThumbnail backgroundBase64 cutoutBase64 sceneDesign
       = Ok res ->
     insideWithMargin (cc_position res)) /\
  (forall backgroundBuffer cutoutBuffer options res,
     compositeLifestyleThumbnail backgroundBuffer cutoutBuffer options = Ok res ->
     insideWithMargin (lr_position res)).
Proof.
  assert (Hdims : forall b md, metadata b = Ok md ->
            (0 < inject_Z (orElse (md_width md) 400))%Q /\
            (0 < inject_Z (orElse (md_height md) 400))%Q).
  { intros b md Hmd. destruct (sharpMetadata b md Hmd) as [Hw Hh].
    split; apply inject_pos; now apply orElse_positive. }
  split.
  - intros bg cut sceneDesign res Hschema Hrun.
    apply schema_range in Hschema. destruct Hschema as [Hlo Hhi].
    unfold compositeContextualThumbnail in Hrun.
    destruct (metadata (fromBase64 cut)) as [md|] eqn:Emd; [|discriminate].
    cbn [bind] in Hrun. cbv zeta in Hrun.
    destruct (resize (fromBase64 cut) _ _ contain) as [rc|]; [|discriminate].
    cbn [bind] in Hrun.
    destruct (silhouette rc _ _ _) as [sb|]; [|discriminate].
    cbn [bind] in Hrun.
    destruct (resize (fromBase64 bg) _ _ cover) as [rb|]; [|discriminate].
    cbn [bind] in Hrun.
    destruct (composite rb _) as [final|]; [|discriminate].
    cbn [bind] in Hrun. injection Hrun as <-. cbn [cc_position].
    destruct (Hdims _ _ Emd) as [Hw Hh].
    apply inside_below_threshold; try assumption.
    eapply Qle_lt_trans; [exact Hhi | reflexivity].
  - intros bgBuf cutBuf options res Hrun.
    unfold compositeLifestyleThumbnail in Hrun. cbv zeta in Hrun.
    destruct (resize bgBuf _ _ cover) as [rb|]; [|discriminate].
    cbn [bind] in Hrun.
    destruct (applyGaussianBlur rb _) as [bb|]; [|discriminate].
    cbn [bind] in Hrun.
    destruct (createRadialGradient _ _ _ _) as [gradient|]; [|discriminate].
    cbn [bind] in Hrun.
    destruct (applyGradientOverlay bb gradient) as [bwg|]; [|discriminate].
    cbn [bind] in Hrun.
    destruct (metadata cutBuf) as [md|] eqn:Emd; [|discriminate].
    cbn [bind] in Hrun.
    destruct (resize cutBuf _ _ contain) as [rc|]; [|discriminate].
    cbn [bind] in Hrun.
    destruct (composite bwg _) as [final|]; [|discriminate].
    cbn [bind] in Hrun. injection Hrun as <-. cbn [lr_position].
    destruct (Hdims _ _ Emd) as [Hw Hh].
    pose proof (aspect_pos _ _ Hw Hh) as Ha.
    pose proof lifestyle_targetWidth as Etw.
    rewrite lifestyle_unfold. cbv zeta.
    destruct (draw_size_range Lifestyle.targetWidth _ Ha) as [Hdw Hdh]; [lia|].
    apply clamp_inside; lia.
Qed.

Lemma reported_position_inside_canvas_witness :
  insideWithMargin {| x := 436; y := 20; width := 408; height := 612 |}.
Proof.
  destruct (reported_position_inside_canvas (Symbolic.host true)
              (symbolic_metadata_contract true)) as [Hctx _].
  exact (Hctx "bg"%string "cut"%string Symbolic.scene _ eq_refl eq_refl).
Defined.

Lemma floor_mul_le (n : Z) (a : Q) :
  0 <= n -> (a <= 1)%Q -> JS.floor (inject_Z n * a) <= n.
Proof.
  intros Hn Ha. apply floor_le_Z.
  assert (H0 : (0 <= inject_Z n)%Q)
    by (change 0%Q with (inject_Z 0); now rewrite <- Zle_Qle).
  revert H0. generalize (inject_Z n). intros q H0. nra.
Qed.

Lemma floor_div_le (n : Z) (a : Q) :
  0 <= n -> (1 < a)%Q -> JS.floor (inject_Z n / a) <= n.
Proof.
  intros Hn Ha. apply floor_le_Z.
  assert (H0 : (0 <= inject_Z n)%Q)
    by (change 0%Q with (inject_Z 0); now rewrite <- Zle_Qle).
  apply Qle_shift_div_r; [lra|].
  revert H0. generalize (inject_Z n). intros q H0. nra.
Qed.

(** The flat pipeline draws the cutout right-aligned: in a successful run the
    cutout is resized to a box between 200 and 612 pixels wide and high whose
    right edge is at x = 1216 (a margin of 5% of the width) and which is
    centred vertically, so the box lies inside the canvas. *)
Theorem flat_cutout_right_aligned
    (H : Host) (sharpMetadata : MetadataContract H)
    (backgroundBase64 cutoutBase64 : string) (category : option string)
    (res : CompositingResult) :
  compositeProductOnBackground backgroundBase64 cutoutBase64 category = Ok res ->
  exists resizedCutout drawWidth drawHeight top left canvas final,
    resize (fromBase64 cutoutBase64) drawWidth drawHeight contain
      = Ok resizedCutout /\
    draw canvas (layerAt resizedCutout top left) = Ok final /\
    cr_imageBase64 res = toBase64 final /\ cr_composited res = true /\
    200 <= drawWidth <= 612 /\ 200 <= drawHeight <= 612 /\
    left + drawWidth = 1216 /\ top = (THUMBNAIL_HEIGHT - drawHeight) / 2 /\
    604 <= left /\ 54 <= top /\ top + drawHeight <= 666.
Proof.
  intro Hrun. unfold compositeProductOnBackground in Hrun.
  destruct (metadata (fromBase64 cutoutBase64)) as [md|] eqn:Emd;
    [|discriminate].
  cbn [bind] in Hrun. cbv zeta in Hrun.
  destruct (sharpMetadata _ _ Emd) as [Hmw Hmh].
  pose proof (orElse_positive _ Hmw) as Hcw.
  pose proof (orElse_positive _ Hmh) as Hch.
  set (cw := orElse (md_width md) 400) in *.
  set (ch := orElse (md_height md) 400) in *.
  assert (E45 : JS.floor (inject_Z THUMBNAIL_WIDTH * (45 # 100)) = 576)
    by reflexivity.
  assert (E05 : JS.floor (inject_Z THUMBNAIL_WIDTH * (5 # 100)) = 64)
    by reflexivity.
  destruct (JS.gt (inject_Z cw / inject_Z ch) 1) eqn:Ewide.
  all: destruct (resize (fromBase64 cutoutBase64) _ _ contain) as [rc|] eqn:Erc;
    [|discriminate]; cbn [bind] in Hrun.
  all: destruct (silhouette rc _ _ _) as [sb|]; [|discriminate];
    cbn [bind] in Hrun.
  all: destruct (resize (fromBase64 backgroundBase64) _ _ cover) as [rb|];
    [|discriminate]; cbn [bind] in Hrun.
  all: destruct (composite rb _) as [final|] eqn:Ecomp; [|discriminate];
    cbn [bind] in Hrun; injection Hrun as <-.
  all: cbn [composite] in Ecomp.
  all: destruct (draw rb _) as [canvas|]; [|discriminate]; cbn [bind] in Ecomp.
  all: destruct (draw canvas _) as [final'|] eqn:Ecut; [|discriminate];
    cbn [bind] in Ecomp; injection Ecomp as ->.
  all: eexists rc, _, _, _, _, canvas, final.
  all: split; [exact Erc|]; split; [exact Ecut|].
  all: split; [reflexivity|]; split; [reflexivity|].
  all: rewrite ?E45, ?E05, ?height_085, ?floor_half.
  all: match goal with
       | |- context [(THUMBNAIL_HEIGHT - ?d) / 2] =>
           pose proof (half_bounds (THUMBNAIL_HEIGHT - d)) as Hy
       end.
  - apply gt_true_iff in Ewide.
    pose proof (floor_div_le (Z.min 576 cw) _ ltac:(lia) Ewide) as Hdh.
    unfold THUMBNAIL_WIDTH, THUMBNAIL_HEIGHT in *. lia.
  - apply gt_false_iff in Ewide.
    pose proof (floor_mul_le (Z.min 612 ch) _ ltac:(lia) Ewide) as Hdw.
    unfold THUMBNAIL_WIDTH, THUMBNAIL_HEIGHT in *. lia.
Qed.

Lemma flat_cutout_right_aligned_witness :
  exists drawWidth left : Z, left + drawWidth = 1216 /\ 604 <= left.
Proof.
  destruct (flat_cutout_right_aligned (Symbolic.host true)
              (symbolic_metadata_contract true) "bg" "cut" (Some "baby"%string)
              _ eq_refl)
    as (rc & dw & dh & top & left & canvas & final
        & _ & _ & _ & _ & _ & _ & Hright & _ & Hleft & _).
  exists dw, left. split; assumption.
Defined.

(** The lifestyle pipeline runs its steps in the order resize, blur,
    gradient overlay, metadata, resize of the cutout, drawing of the cutout,
    and gives the same placement intent to the gradient and to the geometry
    resolver.  The blur is asked for the clamped radius: a sigma between 8
    and 15 for every [blurRadius] other than NaN, and NaN for the
    [blurRadius] NaN.  The creation of the gradient succeeds whatever
    [gradientOpacity] is, NaN included.  A rejected step rejects the call
    with the same error, and when all steps succeed the call is fulfilled
    with [composited = true] and the position of the cutout. *)
Theorem lifestyle_outcome
    (H : Host) (backgroundBuffer cutoutBuffer : Buffer)
    (options : LifestyleCompositingOptions) :
  let run := compositeLifestyleThumbnail backgroundBuffer cutoutBuffer options in
  let radius :=
    match blurRadius options with
    | Some r => r
    | None => LIFESTYLE_DEFAULT_BLUR_RADIUS
    end in
  let sigma := clampedRadius radius in
  let position := o_position options in
  (Double.valid radius = true -> Double.isNaN radius = false ->
   sigma = clampToDouble (Double.ofZ 8) (Double.ofZ 15) radius /\
   Double.le (Double.ofZ 8) sigma = true /\
   Double.le sigma (Double.ofZ 15) = true) /\
  (Double.isNaN radius = true -> sigma = Double.NaN) /\
  (forall e,
     resize backgroundBuffer THUMBNAIL_WIDTH THUMBNAIL_HEIGHT cover = Err e ->
     run = Err e) /\
  (forall resizedBackground,
     resize backgroundBuffer THUMBNAIL_WIDTH THUMBNAIL_HEIGHT cover
       = Ok resizedBackground ->
   (forall e, blurred resizedBackground sigma = Err e -> run = Err e) /\
   (forall blurredBackground,
      blurred resizedBackground sigma = Ok blurredBackground ->
    exists gradient,
      createRadialGradient THUMBNAIL_WIDTH THUMBNAIL_HEIGHT position
        (Some match gradientOpacity options with
              | Some o => o
              | None => LIFESTYLE_DEFAULT_GRADIENT_OPACITY
              end) = Ok gradient /\
      let overlay :=
        {| input := gradient; top := None; left := None; blend := Some over |} in
      (forall e, draw blurredBackground overlay = Err e -> run = Err e) /\
      (forall backgroundWithGradient,
         draw blurredBackground overlay = Ok backgroundWithGradient ->
       (forall e, metadata cutoutBuffer = Err e -> run = Err e) /\
       (forall md, metadata cutoutBuffer = Ok md ->
        let productPosition :=
          Lifestyle.calculateProductPosition position
            (inject_Z (orElse (md_width md) 400))
            (inject_Z (orElse (md_height md) 400)) in
        (forall e,
           resize cutoutBuffer (width productPosition) (height productPosition)
                  contain = Err e ->
           run = Err e) /\
        (forall resizedCutout,
           resize cutoutBuffer (width productPosition) (height productPosition)
                  contain = Ok resizedCutout ->
         let cutoutL :=
           layerAt resizedCutout (y productPosition) (x productPosition) in
         (forall e, draw backgroundWithGradient cutoutL = Err e -> run = Err e) /\
         (forall final,
            draw backgroundWithGradient cutoutL = Ok final ->
            run = Ok {| lr_imageBase64 := toBase64 final;
                        lr_composited := true;
                        lr_position := productPosition |})))))).
Proof.
  cbv zeta.
  split.
  { intros Hv Hn.
    destruct (clampedRadius_spec _ Hv Hn) as (Ec & Vc & Nc & Hr & _).
    split; [exact Ec|].
    split; rewrite le_rank by (try assumption; reflexivity);
      apply Z.leb_le; lia. }
  split.
  { destruct (match blurRadius options with
              | Some r => r
              | None => LIFESTYLE_DEFAULT_BLUR_RADIUS
              end); try discriminate. reflexivity. }
  unfold compositeLifestyleThumbnail. cbv zeta.
  split; [intros e He; now rewrite He|].
  intros rb Hrb. rewrite Hrb. cbn [bind].
  unfold applyGaussianBlur.
  split; [intros e He; now rewrite He|].
  intros bb Hbb. rewrite Hbb. cbn [bind].
  unfold createRadialGradient.
  destruct (POSITION_MAP (o_position options)) as [cx cy].
  eexists. split; [reflexivity|]. cbn [bind].
  unfold applyGradientOverlay. cbn [composite]. cbv zeta.
  split; [intros e He; now rewrite He|].
  intros bwg Hbwg. rewrite Hbwg. cbn [bind].
  split; [intros e He; now rewrite He|].
  intros md Hmd. rewrite Hmd. cbn [bind].
  split; [intros e He; now rewrite He|].
  intros rc Hrc. rewrite Hrc. cbn [bind].
  split.
  - intros e He. unfold layerAt in He. now rewrite He.
  - intros final Hfinal. unfold layerAt in Hfinal. now rewrite Hfinal.
Qed.

Lemma lifestyle_outcome_witness :
  (exists image,
     @compositeLifestyleThumbnail (Symbolic.host true) "bg"%string "cut"%string
       {| o_position := center; blurRadius := Some (Double.ofZ 50);
          gradientOpacity := Some (Double.decimal 80 100) |}
     = Ok {| lr_imageBase64 := image; lr_composited := true;
             lr_position := {| x := 436; y := 54; width := 408; height := 612 |} |}) /\
  @compositeLifestyleThumbnail (Symbolic.host true) "bg"%string "cut"%string
    {| o_position := center; blurRadius := Some Double.NaN;
       gradientOpacity := None |}
  = Err "blur failed"%string.
Proof.
  split.
  - pose proof (lifestyle_outcome (Symbolic.host true) "bg"%string "cut"%string
                  {| o_position := center; blurRadius := Some (Double.ofZ 50);
                     gradientOpacity := Some (Double.decimal 80 100) |}) as Hthm.
    cbv zeta in Hthm. destruct Hthm as (_ & _ & _ & Hthm).
    specialize (Hthm _ eq_refl). destruct Hthm as [_ Hthm].
    specialize (Hthm _ eq_refl). destruct Hthm as (gradient & Hgrad & _ & Hthm).
    injection Hgrad as <-.
    specialize (Hthm _ eq_refl). destruct Hthm as [_ Hthm].
    specialize (Hthm _ eq_refl). destruct Hthm as [_ Hthm].
    specialize (Hthm _ eq_refl). destruct Hthm as [_ Hthm].
    eexists. apply Hthm. reflexivity.
  - pose proof (lifestyle_outcome (Symbolic.host true) "bg"%string "cut"%string
                  {| o_position := center; blurRadius := Some Double.NaN;
                     gradientOpacity := None |}) as Hthm.
    cbv zeta in Hthm. destruct Hthm as (_ & _ & _ & Hthm).
    specialize (Hthm _ eq_refl). destruct Hthm as [Hthm _].
    apply Hthm. reflexivity.
Defined.


(** * Image generation and the contextual route *)

Lemma length_mapFrom {A B : Type} (f : A -> nat -> B) (start : nat) (l : list A) :
  List.length (mapFrom f start l) = List.length l.
Proof.
  revert start. induction l as [|a l IH]; intro start; cbn; [reflexivity|].
  now rewrite IH.
Qed.

Lemma nth_error_mapFrom {A B : Type} (f : A -> nat -> B) (start : nat)
    (l : list A) (k : nat) :
  nth_error (mapFrom f start l) k
  = option_map (fun a => f a (start + k)%nat) (nth_error l k).
Proof.
  revert start k. induction l as [|a l IH]; intros start k.
  - now destruct k.
  - destruct k as [|k]; cbn.
    + now rewrite Nat.add_0_r.
    + rewrite IH. now rewrite Nat.add_succ_r.
Qed.

Lemma fold_push_map {A B : Type} (f : A -> B) (l : list A) (init : list B) :
  fold_left (fun acc a => push acc (f a)) l init = init ++ map f l.
Proof.
  revert init. induction l as [|a l IH]; intro init; cbn.
  - now rewrite app_nil_r.
  - rewrite IH. unfold push. now rewrite <- app_assoc.
Qed.

(** The score that [generateImages] gives to the prediction at an index. *)
Lemma score_decreases (i j : nat) :
  (i < j)%nat ->
  ((9 # 10) - inject_Z (Z.of_nat j) * (5 # 100)
   < (9 # 10) - inject_Z (Z.of_nat i) * (5 # 100))%Q.
Proof.
  intro Hij.
  assert (Hq : (inject_Z (Z.of_nat i) < inject_Z (Z.of_nat j))%Q)
    by (rewrite <- Zlt_Qlt; lia).
  lra.
Qed.

Lemma includes_step (needle hay : string) :
  Str.includes needle hay
  = if String.prefix needle hay then true
    else match hay with
         | EmptyString => false
         | String _ t => Str.includes needle t
         end.
Proof. now destruct hay. Qed.

Lemma prefix_app_left (needle s t : string) :
  String.prefix needle s = true -> String.prefix needle (s ++ t) = true.
Proof.
  revert s. induction needle as [|a needle IH]; intros s Hp.
  - now destruct (s ++ t)%string.
  - destruct s as [|b s]; [discriminate|]. cbn in Hp |- *.
    destruct (ascii_dec a b); [|discriminate]. now apply IH.
Qed.

Lemma prefix_refl (needle : string) : String.prefix needle needle = true.
Proof.
  induction needle as [|a needle IH]; [reflexivity|]. cbn.
  now destruct (ascii_dec a a).
Qed.

Lemma includes_app_right (needle s t : string) :
  Str.includes needle t = true -> Str.includes needle (s ++ t) = true.
Proof.
  intro Ht. induction s as [|c s IH]; [exact Ht|].
  change (String c s ++ t)%string with (String c (s ++ t)).
  rewrite includes_step, IH.
  destruct (String.prefix needle (String c (s ++ t))); reflexivity.
Qed.

Lemma includes_app_left (needle s t : string) :
  Str.includes needle s = true -> Str.includes needle (s ++ t) = true.
Proof.
  induction s as [|c s IH]; intro Hs.
  - rewrite includes_step in Hs.
    destruct (String.prefix needle "") eqn:Ep; [|discriminate].
    rewrite includes_step. now rewrite (prefix_app_left _ _ t Ep).
  - rewrite includes_step in Hs.
    destruct (String.prefix needle (String c s)) eqn:Ep.
    + rewrite includes_step. now rewrite (prefix_app_left _ _ t Ep).
    + change (String c s ++ t)%string with (String c (s ++ t)).
      rewrite includes_step, (IH Hs).
      destruct (String.prefix needle (String c (s ++ t))); reflexivity.
Qed.

Lemma includes_refl (needle : string) : Str.includes needle needle = true.
Proof. rewrite includes_step. now rewrite prefix_refl. Qed.

(** The address of the prediction endpoint names the model. *)
Lemma url_names_model (location project modelId : string) :
  Str.includes modelId
    ("https://" ++ location ++ "-aiplatform.googleapis.com/v1/"
       ++ ("projects/" ++ project ++ "/locations/" ++ location
             ++ "/publishers/google/models/" ++ modelId)
       ++ ":predict")%string = true.
Proof.
  do 3 apply includes_app_right. apply includes_app_left.
  do 5 apply includes_app_right. apply includes_refl.
Qed.

Lemma generateImages_inversion
    (H : Host) (C : Cloud) (prompt : string) (options : GenerateImageOptions)
    (images : list GeneratedImage) :
  generateImages prompt options = Ok images ->
  isImagenConfigured = true /\ images <> [] /\
  (exists url authorization request response predictions,
     fetch url authorization request = Ok response /\
     Str.includes (IMAGEN_MODELS match o_modelTier options with
                                 | Some t => t
                                 | None => STANDARD
                                 end) url = true /\
     request
     = {| pr_prompt := prompt;
          pr_sampleCount :=
            match o_sampleCount options with Some n => n | None => 2 end;
          pr_aspectRatio :=
            match o_aspectRatio options with Some r => r | None => ratio_16_9 end;
          pr_imageSize :=
            match o_imageSize options with Some s => s | None => size_1K end;
          pr_personGeneration :=
            match o_personGeneration options with
            | Some p => p
            | None => dont_allow
            end |} /\
     ok response = true /\ json response = Ok (Some predictions) /\
     List.length images = List.length predictions /\
     forall i p,
       nth_error predictions i = Some p ->
       nth_error images i
       = Some {| gi_imageBase64 := strOr (bytesBase64Encoded p) "";
                 qualityScore :=
                   ((9 # 10) - inject_Z (Z.of_nat i) * (5 # 100))%Q;
                 mimeType := strOr (p_mimeType p) "image/png" |}) /\
  (forall i j gi gj,
     (i < j)%nat ->
     nth_error images i = Some gi -> nth_error images j = Some gj ->
     (qualityScore gj < qualityScore gi)%Q) /\
  (forall gi, In gi images -> (qualityScore gi <= 9 # 10)%Q).
Proof.
  intro Hrun. unfold generateImages in Hrun. cbv zeta in Hrun.
  unfold getVertexAI, isImagenConfigured in *.
  destruct PROJECT_ID as [[|c s]|]; try discriminate. cbn [bind] in Hrun.
  destruct getAccessToken as [token|]; [|discriminate]. cbn [bind] in Hrun.
  destruct (fetch _ _ _) as [response|] eqn:Efetch; [|discriminate].
  cbn [bind] in Hrun.
  destruct (ok response) eqn:Eok; cbn [negb] in Hrun.
  2: { destruct (text response); discriminate. }
  destruct (json response) as [[[|p0 ps]|]|] eqn:Ejson; try discriminate.
  cbn [bind] in Hrun. injection Hrun as <-.
  set (f := fun (prediction : Prediction) (index : nat) =>
              {| gi_imageBase64 := strOr (bytesBase64Encoded prediction) "";
                 qualityScore :=
                   ((9 # 10) - inject_Z (Z.of_nat index) * (5 # 100))%Q;
                 mimeType := strOr (p_mimeType prediction) "image/png" |}).
  match goal with
  | |- context [?hd :: mapFrom f 1 ps] =>
      change (hd :: mapFrom f 1 ps) with (mapFrom f 0 (p0 :: ps))
  end.
  assert (Hnth : forall i gi,
            nth_error (mapFrom f 0 (p0 :: ps)) i = Some gi ->
            exists p, nth_error (p0 :: ps) i = Some p /\ gi = f p i).
  { intros i gi Hi. rewrite nth_error_mapFrom in Hi. cbn [Nat.add] in Hi.
    destruct (nth_error (p0 :: ps) i) as [p|]; [|discriminate].
    injection Hi as <-. now exists p. }
  split; [reflexivity|]. split; [discriminate|]. split; [|split].
  - eexists _, _, _, response, (p0 :: ps).
    split; [exact Efetch|]. split; [apply url_names_model|].
    split; [reflexivity|]. split; [exact Eok|].
    split; [exact Ejson|]. split; [apply length_mapFrom|].
    intros i p Hp. rewrite nth_error_mapFrom, Hp. reflexivity.
  - intros i j gi gj Hij Hi Hj.
    destruct (Hnth _ _ Hi) as (pi & _ & ->).
    destruct (Hnth _ _ Hj) as (pj & _ & ->).
    cbn [qualityScore f]. now apply score_decreases.
  - intros gi Hin. apply In_nth_error in Hin. destruct Hin as [i Hi].
    destruct (Hnth _ _ Hi) as (p & _ & ->). cbn [qualityScore f].
    assert (Hq : (0 <= inject_Z (Z.of_nat i))%Q)
      by (change 0%Q with (inject_Z 0); rewrite <- Zle_Qle; lia).
    lra.
Qed.

(** A fulfilled [generateImages] had a configured project and an [ok]
    response with at least one prediction.  It returns one image per
    prediction, in the same order: a missing image becomes the empty string
    and a missing MIME type [image/png]; the quality score is
    0.9 - 0.05 * index, so it is at most 0.9 and strictly decreasing along
    the list.  The result is never empty. *)
Theorem generated_images_follow_predictions
    (H : Host) (C : Cloud) (prompt : string) (options : GenerateImageOptions)
    (images : list GeneratedImage) :
  generateImages prompt options = Ok images ->
  isImagenConfigured = true /\ images <> [] /\
  (exists url authorization request response predictions,
     fetch url authorization request = Ok response /\
     pr_prompt request = prompt /\
     ok response = true /\ json response = Ok (Some predictions) /\
     List.length images = List.length predictions /\
     forall i p,
       nth_error predictions i = Some p ->
       nth_error images i
       = Some {| gi_imageBase64 := strOr (bytesBase64Encoded p) "";
                 qualityScore :=
                   ((9 # 10) - inject_Z (Z.of_nat i) * (5 # 100))%Q;
                 mimeType := strOr (p_mimeType p) "image/png" |}) /\
  (forall i j gi gj,
     (i < j)%nat ->
     nth_error images i = Some gi -> nth_error images j = Some gj ->
     (qualityScore gj < qualityScore gi)%Q) /\
  (forall gi, In gi images -> (qualityScore gi <= 9 # 10)%Q).
Proof.
  intro Hrun.
  destruct (generateImages_inversion H C prompt options images Hrun)
    as (Hconf & Hne & (url & auth & request & response & predictions
                       & Hfetch & _ & Hreq & Hok & Hjson & Hlen & Hnth)
        & Hdec & Hmax).
  split; [exact Hconf|]. split; [exact Hne|]. split; [|split; assumption].
  exists url, auth, request, response, predictions.
  split; [exact Hfetch|]. split; [now rewrite Hreq|].
  repeat split; assumption.
Qed.

Lemma generated_images_follow_predictions_witness :
  exists images,
    @generateImages (Symbolic.host true) (Demo.cloud true 200 Demo.twoPredictions)
      "a studio"%string
      {| o_modelTier := None; o_sampleCount := None; o_aspectRatio := None;
         o_imageSize := None; o_personGeneration := None |} = Ok images /\
    images <> [] /\
    (forall gi, In gi images -> (qualityScore gi <= 9 # 10)%Q).
Proof.
  eexists. split; [reflexivity|].
  destruct (generated_images_follow_predictions (Symbolic.host true)
              (Demo.cloud true 200 Demo.twoPredictions) "a studio"%string
              {| o_modelTier := None; o_sampleCount := None;
                 o_aspectRatio := None; o_imageSize := None;
                 o_personGeneration := None |} _ eq_refl)
    as (_ & Hne & _ & _ & Hscore).
  split; [exact Hne | exact Hscore].
Defined.

(** Every rejection of [generateImages] has one of six causes: the project
    is not configured, the access token cannot be obtained, [fetch] is
    rejected, the response is not [ok] (the error then carries the status and
    the text of the response, unless reading the text is rejected), the body
    cannot be read, or there is no prediction. *)
Theorem generate_images_rejections
    (H : Host) (C : Cloud) (prompt : string) (options : GenerateImageOptions)
    (error : Thrown) :
  generateImages prompt options = Err error ->
  (isImagenConfigured = false /\
   error = ErrorObject "GOOGLE_CLOUD_PROJECT environment variable is required") \/
  (isImagenConfigured = true /\
   (getAccessToken = Err error \/
    (exists url authorization request,
       fetch url authorization request = Err error) \/
    (exists url authorization request response,
       fetch url authorization request = Ok response /\
       ((ok response = false /\
         (text response = Err error \/
          exists errorText,
            text response = Ok errorText /\
            error = ErrorObject
                      ("Imagen API error: "
                         ++ numberToString (inject_Z (status response))
                         ++ " - " ++ errorText)%string)) \/
        (ok response = true /\
         (json response = Err error \/
          ((json response = Ok None \/ json response = Ok (Some [])) /\
           error = ErrorObject "No images generated"))))))).
Proof.
  intro Hrun. unfold generateImages in Hrun. cbv zeta in Hrun.
  unfold getVertexAI, isImagenConfigured in *.
  destruct PROJECT_ID as [[|c s]|]; cbn [bind] in Hrun;
    try (left; split; [reflexivity | now injection Hrun as <-]).
  right. split; [reflexivity|].
  destruct getAccessToken as [token|e]; cbn [bind] in Hrun;
    [|left; now injection Hrun as <-].
  right.
  destruct (fetch _ _ _) as [response|e] eqn:Efetch; cbn [bind] in Hrun;
    [|left; injection Hrun as <-; eexists _, _, _; exact Efetch].
  right. eexists _, _, _, response. split; [exact Efetch|].
  destruct (ok response) eqn:Eok; cbn [negb] in Hrun.
  - right. split; [reflexivity|].
    destruct (json response) as [[[|p0 ps]|]|e] eqn:Ejson; cbn [bind] in Hrun.
    + right. split; [now right | now injection Hrun as <-].
    + discriminate.
    + right. split; [now left | now injection Hrun as <-].
    + left. now injection Hrun as <-.
  - left. split; [reflexivity|].
    destruct (text response) as [errorText|e]; cbn [bind] in Hrun.
    + right. exists errorText. split; [reflexivity | now injection Hrun as <-].
    + left. now injection Hrun as <-.
Qed.

Lemma generate_images_rejections_witness :
  exists url authorization request response,
    @fetch (Demo.cloud true 429 Demo.twoPredictions) url authorization request
      = Ok response /\
    ok response = false /\ status response = 429.
Proof.
  destruct (generate_images_rejections (Symbolic.host true)
              (Demo.cloud true 429 Demo.twoPredictions) "a studio"%string
              {| o_modelTier := None; o_sampleCount := None;
                 o_aspectRatio := None; o_imageSize := None;
                 o_personGeneration := None |}
              (ErrorObject "Imagen API error: 429 - quota exceeded") eq_refl)
    as [[Hc _] | (_ & [Ht | [(u & a & r & Hf) | (u & a & r & resp & Hf & Hcase)]])];
    try discriminate.
  exists u, a, r, resp. split; [exact Hf|].
  cbn in Hf. injection Hf as <-. split; reflexivity.
Defined.

(** ** The contextual route *)

Ltac settle_status :=
  cbn [statusCode];
  repeat split; intros;
  repeat match goal with
         | Hx : _ /\ _ |- _ => destruct Hx
         | Hx : exists _, _ |- _ => destruct Hx
         end;
  try discriminate; try reflexivity; eauto.

(** The status of the answer of the contextual route: 400 exactly when the
    body fails the schema; 503 exactly when the body passes and the project
    is not configured; 500 exactly when, after both checks, the generation of
    the backgrounds is rejected, the message being the one of the error or
    [Unknown error occurred]; 200 exactly when the generation is fulfilled.
    Rejected compositing steps do not change the status. *)
Theorem route_status_codes
    (H : Host) (C : Cloud) (body : ContextualThumbnailRequest) :
  let response := postGenerateContextualThumbnail body in
  let generation :=
    generateImages (rq_imagenPrompt body)
      {| o_modelTier :=
           Some match rq_modelTier body with Some t => t | None => STANDARD end;
         o_sampleCount :=
           Some match rq_variations body with Some n => n | None => 2 end;
         o_aspectRatio :=
           Some match rq_aspectRatio body with
                | Some r => r
                | None => ratio_16_9
                end;
         o_imageSize :=
           Some match rq_imageSize body with Some s => s | None => size_1K end;
         o_personGeneration := Some dont_allow |} in
  let accepted := generateContextualThumbnailSchema body in
  (statusCode response = 400 <-> accepted = false) /\
  (statusCode response = 503 <-> accepted = true /\ isImagenConfigured = false) /\
  (statusCode response = 500 <->
   accepted = true /\ isImagenConfigured = true /\
   exists error, generation = Err error) /\
  (statusCode response = 200 <->
   accepted = true /\ isImagenConfigured = true /\
   exists images, generation = Ok images) /\
  (forall message,
     response = GenerationFailed message ->
     exists error,
       generation = Err error /\
       message = match error with
                 | ErrorObject m => m
                 | OtherValue => "Unknown error occurred"%string
                 end).
Proof.
  cbv zeta. unfold postGenerateContextualThumbnail. cbv zeta.
  destruct (generateContextualThumbnailSchema body); cbn [negb];
    [|settle_status].
  destruct isImagenConfigured; cbn [negb]; [|settle_status].
  destruct (generateImages _ _) as [images|error]; [settle_status|].
  cbn [statusCode]. repeat split; intros;
    repeat match goal with
           | Hx : _ /\ _ |- _ => destruct Hx
           | Hx : exists _, _ |- _ => destruct Hx
           end;
    try discriminate; try reflexivity; eauto.
  match goal with
  | Hm : GenerationFailed _ = GenerationFailed _ |- _ => injection Hm as <-
  end.
  exists error. split; reflexivity.
Qed.

Lemma route_generated_inversion
    (H : Host) (C : Cloud) (body : ContextualThumbnailRequest)
    (id : string) (variations : list Variation) (sceneDesign : SceneDesign)
    (modelUsed : string) :
  postGenerateContextualThumbnail body
    = Generated id variations sceneDesign modelUsed ->
  let tier := match rq_modelTier body with Some t => t | None => STANDARD end in
  generateContextualThumbnailSchema body = true /\
  exists images,
    generateImages (rq_imagenPrompt body)
      {| o_modelTier := Some tier;
         o_sampleCount :=
           Some match rq_variations body with Some n => n | None => 2 end;
         o_aspectRatio :=
           Some match rq_aspectRatio body with
                | Some r => r
                | None => ratio_16_9
                end;
         o_imageSize :=
           Some match rq_imageSize body with Some s => s | None => size_1K end;
         o_personGeneration := Some dont_allow |} = Ok images /\
    id = uuidv4 /\ sceneDesign = rq_sceneDesign body /\
    variations
    = map (compositedEntry (rq_cutoutBase64 body) (rq_sceneDesign body)) images /\
    modelUsed = ("imagen-4.0-" ++ Str.toLowerCase (tierName tier)
                   ++ "-generate-001")%string.
Proof.
  cbv zeta. unfold postGenerateContextualThumbnail. cbv zeta.
  destruct (generateContextualThumbnailSchema body); cbn [negb];
    [|discriminate].
  destruct isImagenConfigured; cbn [negb]; [|discriminate].
  destruct (generateImages _ _) as [images|error]; [|discriminate].
  intros [= <- <- <- <-]. split; [reflexivity|].
  exists images. rewrite fold_push_map. repeat split; reflexivity.
Qed.

Lemma schema_accepts_ratio (body : ContextualThumbnailRequest) :
  generateContextualThumbnailSchema body = true ->
  productSpaceRatioSchema
    (productSpaceRatio (pedestal (rq_sceneDesign body))) = true /\
  (100 <= String.length (rq_cutoutBase64 body))%nat /\
  (50 <= String.length (rq_imagenPrompt body))%nat /\
  1 <= match rq_variations body with Some n => n | None => 2 end <= 4.
Proof.
  unfold generateContextualThumbnailSchema. rewrite !andb_true_iff.
  intros [[[Hc Hr] Hp] Hv]. split; [exact Hr|].
  apply Nat.leb_le in Hc, Hp. split; [exact Hc|]. split; [exact Hp|].
  destruct (rq_variations body) as [n|]; [|lia].
  rewrite !orb_true_iff, !Z.eqb_eq in Hv. lia.
Qed.

(** In an answer with status 200 the list [variations] has one entry for
    every background that [generateImages] returned for the prompt and the
    options of the request, in the same order and with the same quality
    score, and is not empty.  An entry is marked [composited] exactly when
    the compositing of its background was fulfilled; it then carries the
    composited image as [image/png], and the product was placed inside the
    canvas with its margins.  When the compositing was rejected the entry is
    the raw background with its own MIME type, marked as not composited. *)
Theorem route_variations
    (H : Host) (C : Cloud) (sharpMetadata : MetadataContract H)
    (body : ContextualThumbnailRequest)
    (id : string) (variations : list Variation) (sceneDesign : SceneDesign)
    (modelUsed : string) :
  postGenerateContextualThumbnail body
    = Generated id variations sceneDesign modelUsed ->
  variations <> [] /\ sceneDesign = rq_sceneDesign body /\
  exists images,
    generateImages (rq_imagenPrompt body)
      {| o_modelTier :=
           Some match rq_modelTier body with Some t => t | None => STANDARD end;
         o_sampleCount :=
           Some match rq_variations body with Some n => n | None => 2 end;
         o_aspectRatio :=
           Some match rq_aspectRatio body with
                | Some r => r
                | None => ratio_16_9
                end;
         o_imageSize :=
           Some match rq_imageSize body with Some s => s | None => size_1K end;
         o_personGeneration := Some dont_allow |} = Ok images /\
    List.length variations = List.length images /\
    forall i bg,
      nth_error images i = Some bg ->
      exists v,
        nth_error variations i = Some v /\
        v_qualityScore v = qualityScore bg /\
        match compositeContextualThumbnail (gi_imageBase64 bg)
                (rq_cutoutBase64 body) sceneDesign with
        | Ok result =>
            v_composited v = true /\ v_imageBase64 v = imageBase64 result /\
            v_mimeType v = "image/png"%string /\
            insideWithMargin (cc_position result)
        | Err _ =>
            v_composited v = false /\ v_imageBase64 v = gi_imageBase64 bg /\
            v_mimeType v = mimeType bg
        end.
Proof.
  intro Hresp.
  destruct (route_generated_inversion H C body _ _ _ _ Hresp)
    as (Hschema & images & Hgen & _ & -> & -> & _).
  destruct (generateImages_inversion H C _ _ _ Hgen) as (_ & Hne & _).
  destruct (schema_accepts_ratio body Hschema) as (Hratio & _).
  apply schema_range in Hratio. destruct Hratio as [Hlo Hhi].
  split; [destruct images; [congruence | discriminate]|].
  split; [reflexivity|].
  exists images. split; [exact Hgen|]. split; [apply length_map|].
  intros i bg Hbg. eexists. split; [apply map_nth_error; exact Hbg|].
  unfold compositedEntry.
  destruct (compositeContextualThumbnail (gi_imageBase64 bg)
              (rq_cutoutBase64 body) (rq_sceneDesign body))
    as [result|e] eqn:Erun;
    cbn [v_composited v_imageBase64 v_mimeType v_qualityScore];
    [|repeat split; reflexivity].
  split; [reflexivity|]. split; [reflexivity|].
  split; [reflexivity|]. split; [reflexivity|].
  unfold compositeContextualThumbnail in Erun.
  destruct (metadata _) as [md|] eqn:Emd; [|discriminate].
  cbn [bind] in Erun. cbv zeta in Erun.
  destruct (resize _ _ _ contain) as [rc|]; [|discriminate].
  cbn [bind] in Erun.
  destruct (silhouette rc _ _ _) as [sb|]; [|discriminate].
  cbn [bind] in Erun.
  destruct (resize _ _ _ cover) as [rb|]; [|discriminate].
  cbn [bind] in Erun.
  destruct (composite rb _) as [final|]; [|discriminate].
  cbn [bind] in Erun. injection Erun as <-. cbn [cc_position].
  destruct (sharpMetadata _ _ Emd) as [Hmw Hmh].
  apply inside_below_threshold.
  - apply inject_pos. now apply orElse_positive.
  - apply inject_pos. now apply orElse_positive.
  - eapply Qle_lt_trans; [exact Hhi | reflexivity].
Qed.

Lemma route_variations_witness :
  exists id variations sceneDesign modelUsed,
    @postGenerateContextualThumbnail (Symbolic.host true)
      (Demo.cloud true 200 Demo.twoPredictions) (Demo.body None)
    = Generated id variations sceneDesign modelUsed /\
    variations <> [] /\ sceneDesign = rq_sceneDesign (Demo.body None).
Proof.
  eexists _, _, _, _. split; [reflexivity|].
  destruct (route_variations (Symbolic.host true)
              (Demo.cloud true 200 Demo.twoPredictions)
              (symbolic_metadata_contract true) (Demo.body None) _ _ _ _ eq_refl)
    as (Hne & Hscene & _).
  split; [exact Hne | exact Hscene].
Defined.

(** In an answer with status 200 the field [modelUsed] is
    imagen-4.0-<tier in lower case>-generate-001, while the request that was
    sent names the model IMAGEN_MODELS[tier], asks for between 1 and 4 samples
    of the prompt of the body and never allows people.  The reported and the
    requested model agree for the tiers FAST and ULTRA and differ for the
    tier STANDARD, which is also the default. *)
Theorem route_request_and_reported_model
    (H : Host) (C : Cloud) (body : ContextualThumbnailRequest)
    (id : string) (variations : list Variation) (sceneDesign : SceneDesign)
    (modelUsed : string) :
  postGenerateContextualThumbnail body
    = Generated id variations sceneDesign modelUsed ->
  let tier := match rq_modelTier body with Some t => t | None => STANDARD end in
  modelUsed = ("imagen-4.0-" ++ Str.toLowerCase (tierName tier)
                 ++ "-generate-001")%string /\
  (modelUsed = IMAGEN_MODELS tier <-> tier <> STANDARD) /\
  exists url authorization request response,
    fetch url authorization request = Ok response /\
    Str.includes (IMAGEN_MODELS tier) url = true /\
    pr_prompt request = rq_imagenPrompt body /\
    1 <= pr_sampleCount request <= 4 /\
    pr_personGeneration request = dont_allow.
Proof.
  intro Hresp. cbv zeta.
  destruct (route_generated_inversion H C body _ _ _ _ Hresp)
    as (Hschema & images & Hgen & _ & _ & _ & ->).
  destruct (schema_accepts_ratio body Hschema) as (_ & _ & _ & Hcount).
  destruct (generateImages_inversion H C _ _ _ Hgen)
    as (_ & _ & (url & auth & request & response & predictions
                 & Hfetch & Hurl & -> & _) & _).
  split; [reflexivity|]. split.
  - destruct (rq_modelTier body) as [[| |]|]; split; intro Hm;
      try discriminate; try reflexivity; try (now elim Hm).
    all: vm_compute in Hm; discriminate.
  - eexists url, auth, _, response.
    split; [exact Hfetch|]. cbn in Hurl |- *.
    repeat split; try assumption; lia.
Qed.

Lemma route_request_and_reported_model_witness :
  ("imagen-4.0-" ++ Str.toLowerCase (tierName STANDARD) ++ "-generate-001")%string
    = IMAGEN_MODELS STANDARD <-> STANDARD <> STANDARD.
Proof.
  destruct (route_request_and_reported_model (Symbolic.host true)
              (Demo.cloud true 200 Demo.twoPredictions) (Demo.body None)
              _ _ _ _ eq_refl) as (_ & Hiff & _).
  exact Hiff.
Defined.

(** * Reflection and clamps *)

(** When the contextual pipeline adds a reflection (the pedestal reflects,
    the position is center-bottom and the reflection chain succeeds), the
    reflection layer starts exactly at the lower edge of the product box,
    between y = 468 and y = 632: the limit of 670 for its top never
    applies. *)
Theorem reflection_directly_below_product
    (H : Host) (sceneDesign : SceneDesign) (md : Metadata)
    (shadowBuffer resizedCutout reflectionBuffer : Buffer) :
  plausibleMetadata md ->
  hasReflection (pedestal sceneDesign) = true ->
  p_position (pedestal sceneDesign) = center_bottom ->
  flipped resizedCutout (3 # 10) 3 (3 # 10) = Ok reflectionBuffer ->
  let position := contextualPosition sceneDesign md in
  let shadow := getShadowFromDesign sceneDesign in
  compositeInputs (pedestal sceneDesign) position shadow shadowBuffer
                  resizedCutout
  = [ shadowLayer shadowBuffer shadow position;
      layerAt reflectionBuffer (y position + height position) (x position);
      layerAt resizedCutout (y position) (x position) ] /\
  468 <= y position + height position <= 632.
Proof.
  intros [Hmw Hmh] Hrefl Hpos Hflip. cbv zeta.
  assert (Ha : (0 < inject_Z (orElse (md_width md) 400)
                    / inject_Z (orElse (md_height md) 400))%Q).
  { apply aspect_pos; apply inject_pos; now apply orElse_positive. }
  assert (Hbottom :
    468 <= y (contextualPosition sceneDesign md)
           + height (contextualPosition sceneDesign md) <= 632).
  { unfold contextualPosition. rewrite Hpos, contextual_unfold. cbv zeta.
    cbn [y height Contextual.anchorY].
    rewrite floor_sub_Z, pedestal_line.
    destruct (fitSize_bounds
                (Contextual.targetWidth (productSpaceRatio (pedestal sceneDesign)))
                _ Ha) as [_ Hdh].
    unfold THUMBNAIL_HEIGHT. lia. }
  split; [|exact Hbottom].
  unfold compositeInputs, push, shadowLayer, layerAt.
  rewrite Hrefl, Hpos, Hflip. cbn [andb PedestalPosition_eqb app].
  unfold THUMBNAIL_HEIGHT. rewrite Z.min_r by lia. reflexivity.
Qed.

Lemma reflection_directly_below_product_witness :
  @compositeInputs (Symbolic.host true) (pedestal Symbolic.scene)
    (contextualPosition Symbolic.scene
       {| md_width := Some 200; md_height := Some 300 |})
    (getShadowFromDesign Symbolic.scene)
    "shadow"%string "cutout"%string
  = [ layerAt "shadow"%string 40 436;
      layerAt "reflection(cutout)"%string 632 436;
      layerAt "cutout"%string 20 436 ].
Proof.
  assert (Hmd : plausibleMetadata {| md_width := Some 200; md_height := Some 300 |})
    by (split; cbn; intros n [= <-]; lia).
  destruct (reflection_directly_below_product (Symbolic.host true) Symbolic.scene
              {| md_width := Some 200; md_height := Some 300 |}
              "shadow"%string "cutout"%string "reflection(cutout)"%string
              Hmd eq_refl eq_refl eq_refl) as [Hlayers _].
  exact Hlayers.
Defined.

Lemma le_not_NaN (a b : Double.number) :
  Double.le a b = true -> Double.isNaN a = false /\ Double.isNaN b = false.
Proof.
  unfold Double.le, SFleb. destruct a, b; cbn; intro Hle;
    try discriminate; split; reflexivity.
Qed.

(** Both clamps keep the order of their inputs and leave a value inside the
    range as it is.  For radii other than NaN a larger blur radius never
    gives a smaller sigma, and a radius between 8 and 15 is the sigma.  For
    opacities other than NaN a larger opacity never gives a smaller clamped
    opacity, and an opacity between 0.20 and 0.30 is used as it is, so that
    the edge alpha is round(opacity * 255), with the product rounded to a
    double first.  An omitted radius is 12 and an omitted opacity 0.25, both
    inside the range. *)
Theorem clamps_are_monotone_and_exact_in_range
    (H : Host) (imageBuffer : Buffer) (r1 r2 o1 o2 : Double.number)
    (width height : Z) (pos : PedestalPosition) :
  Double.valid r1 = true -> Double.valid r2 = true ->
  Double.valid o1 = true -> Double.valid o2 = true ->
  Double.le r1 r2 = true -> Double.le o1 o2 = true ->
  Double.le (clampedRadius r1) (clampedRadius r2) = true /\
  (Double.le (Double.ofZ 8) r1 = true -> Double.le r1 (Double.ofZ 15) = true ->
   clampedRadius r1 = r1) /\
  applyGaussianBlur imageBuffer None = blurred imageBuffer (Double.ofZ 12) /\
  Double.le (clampedOpacity o1) (clampedOpacity o2) = true /\
  (Double.le (Double.decimal 20 100) o1 = true ->
   Double.le o1 (Double.decimal 30 100) = true ->
   clampedOpacity o1 = o1 /\
   exists alpha,
     Double.round (Double.mul o1 (Double.ofZ 255)) = Double.Finite alpha /\
     opacityHex o1 = hex2 alpha) /\
  createRadialGradient width height pos None
  = createRadialGradient width height pos (Some (Double.decimal 25 100)).
Proof.
  intros Vr1 Vr2 Vo1 Vo2 Hr Ho.
  destruct (le_not_NaN _ _ Hr) as [Nr1 Nr2].
  destruct (le_not_NaN _ _ Ho) as [No1 No2].
  rewrite le_rank in Hr, Ho by assumption. apply Z.leb_le in Hr, Ho.
  destruct (clampedRadius_spec r1 Vr1 Nr1)
    as (_ & Vc1 & Nc1 & _ & Ec1 & _ & _ & Hin1).
  destruct (clampedRadius_spec r2 Vr2 Nr2) as (_ & Vc2 & Nc2 & _ & Ec2 & _).
  destruct (clampedOpacity_spec o1 Vo1 No1) as (_ & Vd1 & Nd1 & Hd1 & Ed1 & Hino).
  destruct (clampedOpacity_spec o2 Vo2 No2) as (_ & Vd2 & Nd2 & _ & Ed2 & _).
  split; [rewrite le_rank by assumption; apply Z.leb_le; lia|].
  split.
  { rewrite !le_rank by (try assumption; reflexivity). intros Hlo Hhi.
    apply Z.leb_le in Hlo, Hhi. apply Hin1. lia. }
  split; [reflexivity|].
  split; [rewrite le_rank by assumption; apply Z.leb_le; lia|].
  split; [|reflexivity].
  rewrite !le_rank by (try assumption; reflexivity). intros Hlo Hhi.
  apply Z.leb_le in Hlo, Hhi.
  assert (Eo : clampedOpacity o1 = o1) by (apply Hino; lia).
  split; [exact Eo|].
  destruct (edge_alpha_range o1 Vo1 No1 ltac:(lia)) as (alpha & Hround & Hrange).
  exists alpha. split; [exact Hround|].
  unfold opacityHex. rewrite Eo, Hround. cbn [Double.toString16].
  apply toString16_two_digits. lia.
Qed.

Lemma clamps_are_monotone_and_exact_in_range_witness :
  Double.le (clampedRadius (Double.ofZ 3)) (clampedRadius (Double.ofZ 10)) = true /\
  clampedOpacity (Double.decimal 22 100) = Double.decimal 22 100 /\
  opacityHex (Double.decimal 22 100) = hex2 56.
Proof.
  destruct (clamps_are_monotone_and_exact_in_range (Symbolic.host true)
              "photo"%string (Double.ofZ 3) (Double.ofZ 10)
              (Double.decimal 22 100) (Double.decimal 50 100) 1280 720 center
              eq_refl eq_refl eq_refl eq_refl eq_refl eq_refl)
    as (Hmono & _ & _ & _ & Hexact & _).
  destruct (Hexact eq_refl eq_refl) as (Eo & alpha & Hround & Hhex).
  vm_compute in Hround. injection Hround as <-.
  split; [exact Hmono|]. split; [exact Eo | exact Hhex].
Defined.
